(** * goverter: the unit-conversion core of [main.go]

    A shallow embedding of the unit registry, [Convert], [FormatResult],
    the registry queries and the handlers.  Go's [float64] is the kernel's
    binary64 type [float] (IEEE 754, round to nearest even, no fused
    multiply-add), so every function below evaluates on concrete inputs
    exactly as the program does; what holds for every input is proved
    from the kernel's specification of the operations. *)

From Stdlib Require Import ZArith QArith Qabs Qpower Lqa Floats Uint63 Zpower.
From Stdlib Require Import String Ascii DecimalString DecimalFacts DecimalPos DecimalN.
From Stdlib Require Import List Bool Lia.
From stdpp Require Import gmap strings.

Local Close Scope Q_scope.

Set Warnings "-inexact-float".
Local Open Scope string_scope.

(** ** Data model *)

(** [type Unit struct]: conversion factor to the base unit, dimension tag,
    full name and the offset used by temperature units.  A field left out
    of a composite literal is the zero value. *)
Record Unit : Type := mkUnit {
  Factor : float;
  Dimension : string;
  Name : string;
  Offset : float
}.

(** [type UnitConverter struct { units map[string]Unit }] *)
Record UnitConverter : Type := mkUnitConverter {
  units : gmap string Unit
}.

(** The three [fmt.Errorf] values [Convert] can return, with the arguments
    each message is built from. *)
Inductive error : Type :=
| InvalidSourceUnit (from : string)
| InvalidTargetUnit (to : string)
| DimensionMismatch (from fromDim to toDim : string).

(** [err.Error()]: the text of each message. *)
Definition Error (e : error) : string :=
  match e with
  | InvalidSourceUnit from => "invalid source unit: " ++ from
  | InvalidTargetUnit to => "invalid target unit: " ++ to
  | DimensionMismatch from fromDim to toDim =>
      "cannot convert between different dimensions: " ++ from ++ " (" ++ fromDim
      ++ ") and " ++ to ++ " (" ++ toDim ++ ")"
  end.

(** ** The parts of Go's [math] package that [Convert] calls *)

Module math.

(** An integer below 2^53 as the [float64] of the same value. *)
Definition of_Z (n : Z) : float := of_uint63 (Uint63.of_Z n).

(** [math.Pi], the binary64 value nearest to pi. *)
Definition Pi : float := 3.14159265358979323846264338327950288419716939937510582097494459%float.

(** [math.Abs] *)
Definition Abs (x : float) : float := abs x.

(** [math.Pow(10, n)] for an integer [0 <= n <= 22]: these powers of ten
    are binary64 values, every product below is exact, and [Pow] returns
    them exactly. *)
Fixpoint pow10 (n : nat) : float :=
  match n with
  | O => 1%float
  | S n' => (10 * pow10 n')%float
  end.

Definition Pow10 (n : Z) : float := pow10 (Z.to_nat n).

(** [math.Round]: the nearest integer, halves away from zero;
    [Round(+-0) = +-0], [Round(+-Inf) = +-Inf], [Round(NaN) = NaN].
    As in Go's source, it works on the bits: [frshiftexp] splits [x] into
    a fraction in [[0.5, 1)], whose 53 bits [normfr_mantissa] returns, and
    an exponent kept with a bias of 2101, so that
    [|x| = mantissa * 2^(se - 2154)].  From [se = 2154] on, [x] is an
    integer.  Below, [k = 2154 - se] bits of the mantissa are fraction
    bits: half a unit is added and they are dropped (Go's
    [bits += half >> e; bits &^= fracMask >> e]); with more than 54 of
    them [|x| < 0.25] and the result is zero.  The sign of [x] is kept,
    also on a zero. *)
Definition Round (x : float) : float :=
  if PrimFloat.is_nan x || PrimFloat.is_zero x || PrimFloat.is_infinity x then x
  else
    let (r, se) := frshiftexp x in
    if (2154 <=? se)%uint63 then x
    else
      let k := (2154 - se)%uint63 in
      let n :=
        if (k <=? 54)%uint63
        then ((normfr_mantissa r + (1 << (k - 1))) >> k)%uint63
        else 0%uint63 in
      let a := of_uint63 n in
      if (x <? 0)%float then (- a)%float else a.

End math.

(** ** The registry *)

(** [NewUnitConverter]: the map literal, entry by entry. *)
Definition NewUnitConverter : UnitConverter :=
  let U (f : float) (d n : string) := mkUnit f d n 0%float in
  let T (f o : float) (d n : string) := mkUnit f d n o in
  mkUnitConverter (list_to_map (M := gmap string Unit) [
    (* Mass units (base = gram) *)
    ("mg", U 0.001 "mass" "Milligram");
    ("g", U 1 "mass" "Gram");
    ("kg", U 1000 "mass" "Kilogram");
    ("t", U 1000000 "mass" "Tonne");
    ("oz", U 28.3495 "mass" "Ounce");
    ("lb", U 453.59237 "mass" "Pound");
    (* Length units (base = meter) *)
    ("nm", U 0.000000001 "length" "Nanometer");
    ("µm", U 0.000001 "length" "Micrometer");
    ("mm", U 0.001 "length" "Millimeter");
    ("cm", U 0.01 "length" "Centimeter");
    ("m", U 1 "length" "Meter");
    ("km", U 1000 "length" "Kilometer");
    ("in", U 0.0254 "length" "Inch");
    ("ft", U 0.3048 "length" "Foot");
    ("yd", U 0.9144 "length" "Yard");
    ("mi", U 1609.344 "length" "Mile");
    (* Temperature units (base = Kelvin) *)
    ("C", T 1 273.15 "temperature" "Celsius");
    ("F", T (5.0 / 9.0) 255.372 "temperature" "Fahrenheit");
    ("K", T 1 0 "temperature" "Kelvin");
    ("Ra", T (5.0 / 9.0) 0 "temperature" "Rankine");
    (* Time units (base = second) *)
    ("ns", U 1e-9 "time" "Nanosecond");
    ("µs", U 1e-6 "time" "Microsecond");
    ("ms", U 1e-3 "time" "Millisecond");
    ("s", U 1 "time" "Second");
    ("min", U 60 "time" "Minute");
    ("h", U 3600 "time" "Hour");
    ("day", U 86400 "time" "Day");
    ("week", U 604800 "time" "Week");
    ("year", U 31536000 "time" "Year (365 days)");
    (* Frequency units (base = hertz) *)
    ("Hz", U 1 "frequency" "Hertz");
    ("kHz", U 1000 "frequency" "Kilohertz");
    ("MHz", U 1e6 "frequency" "Megahertz");
    ("GHz", U 1e9 "frequency" "Gigahertz");
    ("THz", U 1e12 "frequency" "Terahertz");
    (* Speed units (base = meters per second) *)
    ("m/s", U 1 "speed" "Meters per second");
    ("km/h", U 0.277778 "speed" "Kilometers per hour");
    ("ft/s", U 0.3048 "speed" "Feet per second");
    ("mph", U 0.44704 "speed" "Miles per hour");
    ("knot", U 0.514444 "speed" "Knot");
    ("mach", U 340.29 "speed" "Mach (at sea level)");
    (* Volume units (base = cubic meter) *)
    ("m³", U 1 "volume" "Cubic Meter");
    ("L", U 0.001 "volume" "Liter");
    ("gal", U 0.003785411784 "volume" "Gallon (US)");
    ("fl_oz", U 0.0000295735295625 "volume" "Fluid Ounce (US)");
    (* Area units (base = square meter) *)
    ("m²", U 1 "area" "Square Meter");
    ("acre", U 4046.8564224 "area" "Acre");
    ("ha", U 10000 "area" "Hectare");
    (* Energy units (base = joule) *)
    ("J", U 1 "energy" "Joule");
    ("cal", U 4.184 "energy" "Calorie");
    ("kcal", U 4184 "energy" "Kilocalorie");
    (* Power units (base = watt) *)
    ("W", U 1 "power" "Watt");
    ("HP", U 735.49875 "power" "Horsepower");
    (* Force units (base = newton) *)
    ("N", U 1 "force" "Newton");
    ("lbf", U 4.4482216153 "force" "Pound-force");
    (* Pressure units (base = pascal) *)
    ("Pa", U 1 "pressure" "Pascal");
    ("atm", U 101325 "pressure" "Atmosphere");
    ("bar", U 100000 "pressure" "Bar");
    (* Data Storage units (base = byte) *)
    ("B", U 1 "data_storage" "Byte");
    ("bit", U 0.125 "data_storage" "Bit");
    ("KB", U 1024 "data_storage" "Kilobyte");
    ("MB", U 1048576 "data_storage" "Megabyte");
    ("GB", U 1073741824 "data_storage" "Gigabyte");
    (* Angle units (base = radian) *)
    ("rad", U 1 "angle" "Radian");
    ("deg", U (math.Pi / 180) "angle" "Degree");
    ("arcmin", U (math.Pi / 10800) "angle" "Minute");
    ("arcsec", U (math.Pi / 648000) "angle" "Second")
  ]%float).

(** ** Convert *)

(** The last two lines of [Convert]: [precision := 12],
    [factor := math.Pow(10, float64(precision))],
    [math.Round(result*factor) / factor]. *)
Definition precision : Z := 12.

Definition round_result (result : float) : float :=
  let factor := math.Pow10 precision in
  (math.Round (result * factor) / factor)%float.

(** [func (uc *UnitConverter) Convert(value float64, from, to string)
    (float64, error)]; [None] is the [nil] error. *)
Definition Convert (uc : UnitConverter) (value : float) (from to : string)
  : float * option error :=
  match units uc !! from with
  | None => (0%float, Some (InvalidSourceUnit from))
  | Some unitFrom =>
      match units uc !! to with
      | None => (0%float, Some (InvalidTargetUnit to))
      | Some unitTo =>
          if negb (String.eqb (Dimension unitFrom) (Dimension unitTo)) then
            (0%float,
             Some (DimensionMismatch from (Dimension unitFrom) to (Dimension unitTo)))
          else
            let result :=
              if String.eqb (Dimension unitFrom) "temperature" then
                let baseValue := (value * Factor unitFrom + Offset unitFrom)%float in
                ((baseValue - Offset unitTo) / Factor unitTo)%float
              else
                (value * Factor unitFrom / Factor unitTo)%float
            in
            (round_result result, None)
      end
  end.

(** ** Printing a [float64]: the [%e] and [%f] verbs of Go's [fmt] *)

Module strconv.

(** Round [num / den] to the nearest integer, ties to the even one
    ([den > 0]): the rounding of [strconv]'s decimal conversion. *)
Definition div_round_even (num den : Z) : Z :=
  let q := (num / den)%Z in
  let r := (num mod den)%Z in
  if (den <? 2 * r)%Z then (q + 1)%Z
  else if (den =? 2 * r)%Z && Z.odd q then (q + 1)%Z
  else q.

(** A non-negative integer in decimal. *)
Definition itoa (n : Z) : string := NilZero.string_of_uint (N.to_uint (Z.to_N n)).

Fixpoint zeros (n : nat) : string :=
  match n with O => "" | S n' => String "0" (zeros n') end.

(** [s] padded with zeros on the left to at least [n] characters. *)
Definition pad_left (n : nat) (s : string) : string :=
  zeros (n - String.length s) ++ s.

(** The magnitude [m * 2^e] as a fraction [(num, den)]. *)
Definition fraction (m : positive) (e : Z) : Z * Z :=
  if (0 <=? e)%Z then (Zpos m * 2 ^ e, 1)%Z else (Zpos m, 2 ^ (- e))%Z.

(** Verb [f] with [prec] digits after the point, for the magnitude
    [num / den]: the exact value times [10^prec], rounded to an integer,
    printed with the point [prec] digits from the right (no point when
    [prec = 0]). *)
Definition fixed (prec : nat) (num den : Z) : string :=
  let n := div_round_even (num * 10 ^ Z.of_nat prec) den in
  let ds := pad_left (S prec) (itoa n) in
  let k := (String.length ds - prec)%nat in
  let ip := substring 0 k ds in
  match prec with
  | O => ip
  | _ => ip ++ "." ++ substring k prec ds
  end.

(** The decimal exponent [k] of [num / den > 0]:
    [10^k <= num / den < 10^(k+1)]. *)
Definition exponent10 (num den : Z) : Z :=
  let k0 := (Z.of_nat (String.length (itoa num)) - Z.of_nat (String.length (itoa den)))%Z in
  let above :=
    if (0 <=? k0)%Z then (10 ^ k0 * den <=? num)%Z else (den <=? num * 10 ^ (- k0))%Z in
  if above then k0 else (k0 - 1)%Z.

(** [num / den / 10^k] rounded to an integer. *)
Definition scaled (num den k : Z) : Z :=
  if (0 <=? k)%Z then div_round_even num (den * 10 ^ k)
  else div_round_even (num * 10 ^ (- k)) den.

(** Verb [e] with [prec] digits after the point: one digit, the point,
    [prec] digits, then [e], the sign of the exponent and at least two
    exponent digits. *)
Definition scientific (prec : nat) (num den : Z) : string :=
  let p := Z.of_nat prec in
  let k0 := exponent10 num den in
  let n0 := scaled num den (k0 - p) in
  let '(n, k) := if (10 ^ (p + 1) <=? n0)%Z then (10 ^ p, k0 + 1)%Z else (n0, k0) in
  let ds := itoa n in
  let mant :=
    match prec with
    | O => ds
    | _ => substring 0 1 ds ++ "." ++ substring 1 prec ds
    end in
  mant ++ "e" ++ (if (k <? 0)%Z then "-" else "+") ++ pad_left 2 (itoa (Z.abs k)).

Inductive verb : Type := verb_e | verb_f.

(** [strconv.FormatFloat(x, fmt, prec, 64)] for [fmt] in ['e'], ['f'] and
    [prec >= 0]; it is also what [fmt] prints for [%.<prec>e] and
    [%.<prec>f], which add no sign of their own. *)
Definition FormatFloat (x : float) (fmt : verb) (prec : nat) : string :=
  match Prim2SF x with
  | S754_nan => "NaN"
  | S754_infinity s => if s then "-Inf" else "+Inf"
  | S754_zero s =>
      (if s then "-" else "") ++
      match fmt with
      | verb_f => fixed prec 0 1
      | verb_e =>
          match prec with O => "0" | _ => "0." ++ zeros prec end ++ "e+00"
      end
  | S754_finite s m e =>
      let '(num, den) := fraction m e in
      (if s then "-" else "") ++
      match fmt with
      | verb_f => fixed prec num den
      | verb_e => scientific prec num den
      end
  end.

(** *** Reading a decimal number *)

(** The value of a decimal digit. *)
Definition digit (c : ascii) : option Z :=
  let n := Z.of_N (N_of_ascii c) in
  if (48 <=? n)%Z && (n <=? 57)%Z then Some (n - 48)%Z else None.

(** The leading digits of [s]: their value on top of [acc], how many
    they are, and the rest of [s]. *)
Fixpoint read_digits (s : string) (acc : Z) (count : nat) : Z * nat * string :=
  match s with
  | String c rest =>
      match digit c with
      | Some d => read_digits rest (10 * acc + d) (S count)
      | None => (acc, count, s)
      end
  | EmptyString => (acc, count, s)
  end.

Definition read_sign (s : string) : bool * string :=
  match s with
  | String "-" rest => (true, rest)
  | String "+" rest => (false, rest)
  | _ => (false, s)
  end.

(** An optional exponent part that must end the string. *)
Definition read_exponent (s : string) : option Z :=
  match s with
  | EmptyString => Some 0%Z
  | String c rest =>
      if Ascii.eqb c "e" || Ascii.eqb c "E" then
        let '(eneg, rest) := read_sign rest in
        let '(e, ne, rest) := read_digits rest 0 0 in
        match ne, rest with
        | S _, EmptyString => Some (if eneg then (- e)%Z else e)
        | _, _ => None
        end
      else None
  end.

(** The binary64 value nearest to [num / den], ties to even: a quotient
    of at least 56 bits with a sticky bit below it, rounded once. *)
Definition nearest (neg : bool) (num den : Z) : spec_float :=
  if (num =? 0)%Z then S754_zero neg
  else
    let s := Z.max 0 (56 + Z.log2 den - Z.log2 num) in
    let q := (num * 2 ^ s / den)%Z in
    let sticky := if ((num * 2 ^ s) mod den =? 0)%Z then 0%Z else 1%Z in
    let m := (2 * q + sticky)%Z in
    binary_normalize prec emax (if neg then (- m)%Z else m) (- s - 1) neg.

(** [strconv.ParseFloat(s, 64)] on decimal numbers: an optional sign,
    digits with an optional point, an optional exponent.  [None] is a
    non-nil error (a syntax error, or a value out of range).  Go also
    reads hexadecimal numbers, underscores between digits and the names
    of infinity and NaN; those are not covered here and give [None]. *)
Definition ParseFloat (s : string) : option float :=
  let '(neg, s) := read_sign s in
  let '(ip, ni, s) := read_digits s 0 0 in
  let '(m, nf, s) :=
    match s with
    | String "." rest => read_digits rest ip 0
    | _ => (ip, 0%nat, s)
    end in
  match (ni + nf)%nat, read_exponent s with
  | S _, Some e10 =>
      let e := (e10 - Z.of_nat nf)%Z in
      let x := if (0 <=? e)%Z then nearest neg (m * 10 ^ e) 1
               else nearest neg m (10 ^ (- e)) in
      match x with
      | S754_infinity _ => None
      | _ => Some (SF2Prim x)
      end
  | _, _ => None
  end.

End strconv.

(** ** FormatResult *)

(** [func (uc *UnitConverter) FormatResult(result float64, unit string)
    string].  The second branch builds the format ["%.<decimalPlaces>f %s"]
    with a first [Sprintf] and applies it with a second one. *)
Definition FormatResult (uc : UnitConverter) (result : float) (unit : string) : string :=
  let absResult := math.Abs result in
  if (absResult <? 0.001)%float || (1000000 <? absResult)%float then
    strconv.FormatFloat result strconv.verb_e 6 ++ " " ++ unit
  else
    let decimalPlaces : nat :=
      if (1000 <=? absResult)%float then 0
      else if (100 <=? absResult)%float then 1
      else if (10 <=? absResult)%float then 2
      else if (1 <=? absResult)%float then 3
      else 4 in
    strconv.FormatFloat result strconv.verb_f decimalPlaces ++ " " ++ unit.

(** ** Registry queries *)

(** [GetUnitsByDimension]: a fresh map with the entries of that dimension. *)
Definition GetUnitsByDimension (uc : UnitConverter) (dimension : string)
  : gmap string Unit :=
  filter (fun kv => Dimension kv.2 = dimension) (units uc).

(** [GetAllDimensions]: the dimension tags in use, without duplicates; Go
    returns them in the map's iteration order, which is unspecified, so the
    result is a set here. *)
Definition GetAllDimensions (uc : UnitConverter) : gset string :=
  map_fold (fun _ unit acc => {[Dimension unit]} ∪ acc) ∅ (units uc).

(** ** The [/convert] handler *)

(** [type ConversionResult struct], the JSON body of a failure; [Error_]
    is its field [Error], a name the method above already has. *)
Record ConversionResult : Type := mkConversionResult {
  Success : bool;
  Result : float;
  FormattedResult : string;
  Error_ : string;
  FromUnit : string;
  ToUnit : string;
  InputValue : float
}.

Module http.

Definition MethodPost : string := "POST".
Definition StatusOK : Z := 200.
Definition StatusBadRequest : Z := 400.
Definition StatusMethodNotAllowed : Z := 405.

(** What the handler reads of [*http.Request]: the method and the parsed
    form ([None] when [ParseForm] fails). *)
Record Request : Type := mkRequest {
  Method : string;
  Form : option (gmap string (list string))
}.

(** [r.FormValue(key)]: the first value of the field, [""] without one. *)
Definition FormValue (form : gmap string (list string)) (key : string) : string :=
  match form !! key with
  | Some (v :: _) => v
  | _ => ""
  end.

(** What is written to the body: text, or a value sent through
    [json.NewEncoder(w).Encode]. *)
Inductive chunk : Type :=
| Text (s : string)
| JSON (v : ConversionResult).

(** The state of an [http.ResponseWriter]: the header map, the status
    once it is written, and the body so far. *)
Record ResponseWriter : Type := mkResponseWriter {
  Header : gmap string string;
  Status : option Z;
  Body : list chunk
}.

Definition NewResponseWriter : ResponseWriter := mkResponseWriter ∅ None [].

(** [w.Header().Set(k, v)] *)
Definition Header_Set (k v : string) (w : ResponseWriter) : ResponseWriter :=
  mkResponseWriter (<[k := v]> (Header w)) (Status w) (Body w).

(** [w.WriteHeader(code)]: only the first status counts. *)
Definition WriteHeader (code : Z) (w : ResponseWriter) : ResponseWriter :=
  match Status w with
  | Some _ => w
  | None => mkResponseWriter (Header w) (Some code) (Body w)
  end.

(** [w.Write]: a first write without a status sends [200]. *)
Definition Write (c : chunk) (w : ResponseWriter) : ResponseWriter :=
  let w' := WriteHeader StatusOK w in
  mkResponseWriter (Header w') (Status w') (Body w' ++ [c]).

End http.

Section Handlers.

(** [strconv.ParseFloat(s, 64)]; [None] is a non-nil error. *)
Variable ParseFloat : string -> option float.

(** The failure value every error path builds. *)
Definition failure (msg : string) : ConversionResult :=
  mkConversionResult false 0%float "" msg "" "" 0%float.

(** [convertHandler(uc)] applied to a writer and a request. *)
Definition convertHandler (uc : UnitConverter)
    (w : http.ResponseWriter) (r : http.Request) : http.ResponseWriter :=
  let w := http.Header_Set "Content-Type" "application/json" w in
  if negb (String.eqb (http.Method r) http.MethodPost) then
    let result := failure "Method not allowed. Please use POST." in
    let w := http.WriteHeader http.StatusMethodNotAllowed w in
    http.Write (http.JSON result) w
  else
    match http.Form r with
    | None =>
        let result := failure "Error parsing form data" in
        let w := http.WriteHeader http.StatusBadRequest w in
        http.Write (http.JSON result) w
    | Some form =>
        let valueStr := http.FormValue form "value" in
        let fromUnit := http.FormValue form "from" in
        let toUnit := http.FormValue form "to" in
        if String.eqb valueStr "" || String.eqb fromUnit "" || String.eqb toUnit "" then
          let result := failure "All fields (value, from, to) are required" in
          let w := http.WriteHeader http.StatusBadRequest w in
          http.Write (http.JSON result) w
        else
          match ParseFloat valueStr with
          | None =>
              let result := failure "Invalid value: must be a number" in
              let w := http.WriteHeader http.StatusBadRequest w in
              http.Write (http.JSON result) w
          | Some value =>
              match Convert uc value fromUnit toUnit with
              | (_, Some err) =>
                  let errorResult := failure (Error err) in
                  let w := http.WriteHeader http.StatusBadRequest w in
                  http.Write (http.JSON errorResult) w
              | (result, None) =>
                  (* fmt.Fprintf(w, "%.3f %s", result, toUnit) *)
                  http.Write
                    (http.Text (strconv.FormatFloat result strconv.verb_f 3
                                ++ " " ++ toUnit)) w
              end
          end
    end.

End Handlers.

(** ** Definitions used to state the properties *)

(** The arithmetic of a successful [Convert], before the final rounding. *)
Definition unrounded (unitFrom unitTo : Unit) (value : float) : float :=
  if String.eqb (Dimension unitFrom) "temperature" then
    ((value * Factor unitFrom + Offset unitFrom - Offset unitTo) / Factor unitTo)%float
  else
    (value * Factor unitFrom / Factor unitTo)%float.

(** The two conditions on one entry, as a test. *)
Definition unit_ok (u : Unit) : bool :=
  (0 <? Factor u)%float
  && negb (Factor u =? 0)%float
  && (String.eqb (Dimension u) "temperature" || PrimFloat.Leibniz.eqb (Offset u) 0).

(** A finite binary64 value as [n * 2^e]. *)
Definition exact (x : float) : option (Z * Z) :=
  match Prim2SF x with
  | S754_zero _ => Some (0, 0)%Z
  | S754_finite s m e => Some (if s then Zneg m else Zpos m, e)
  | _ => None
  end.

(** The value of a finite binary64 number, as a rational. *)
Definition Q_of_float (x : float) : option Q :=
  match exact x with
  | Some (n, e) => Some (inject_Z n * 2 ^ e)%Q
  | None => None
  end.

(** [r] is within [1e-9] relative tolerance of [v]: both are finite and
    [|r - v| <= 10^-9 * |v|] on their values. *)
Definition close_1e9 (v r : float) : Prop :=
  exists qv qr : Q,
    Q_of_float v = Some qv /\ Q_of_float r = Some qr
    /\ (Qabs (qr - qv) <= (1 # 1000000000) * Qabs qv)%Q.

(** The same, decided on integers: both values are written over the
    smaller of the two exponents. *)
Definition within_1e9 (v r : float) : bool :=
  match exact v, exact r with
  | Some (nv, ev), Some (nr, er) =>
      let e := Z.min ev er in
      let a := (nv * 2 ^ (ev - e))%Z in
      let b := (nr * 2 ^ (er - e))%Z in
      (Z.abs (b - a) * 10 ^ 9 <=? Z.abs a)%Z
  | _, _ => false
  end.

(** What [Convert] returns for two units of one dimension. *)
Definition convert_units (unitFrom unitTo : Unit) (value : float) : float :=
  round_result (unrounded unitFrom unitTo value).

(** The request of the spec's example: [value=10&from=kg&to=g]. *)
Definition request_10_kg_g : http.Request :=
  http.mkRequest "POST"
    (Some (list_to_map [("value", ["10"]); ("from", ["kg"]); ("to", ["g"])])).

(** ** The remaining queries and handlers *)

(** [GetDimensionName]: the [switch] over the fourteen tags, in its order,
    with the tag itself as the default. *)
Definition GetDimensionName (uc : UnitConverter) (dimension : string) : string :=
  if String.eqb dimension "volume" then "Volume"
  else if String.eqb dimension "area" then "Area"
  else if String.eqb dimension "energy" then "Energy"
  else if String.eqb dimension "power" then "Power"
  else if String.eqb dimension "force" then "Force"
  else if String.eqb dimension "pressure" then "Pressure"
  else if String.eqb dimension "data_storage" then "Data Storage"
  else if String.eqb dimension "angle" then "Angle"
  else if String.eqb dimension "mass" then "Mass"
  else if String.eqb dimension "length" then "Length"
  else if String.eqb dimension "temperature" then "Temperature"
  else if String.eqb dimension "time" then "Time"
  else if String.eqb dimension "frequency" then "Frequency"
  else if String.eqb dimension "speed" then "Speed"
  else dimension.

(** [type TemplateData struct].  [Dimensions] is a slice in the iteration
    order of a map, which is unspecified: a set here, as the result of
    [GetAllDimensions]. *)
Record TemplateData : Type := mkTemplateData {
  Units : gmap string (gmap string Unit);
  Dimensions : gset string;
  DimensionNames : gmap string string;
  CurrentYear : Z
}.

Module api.

(** What the [GET] handlers read of [*http.Request]: [r.URL.Path] and
    [r.URL.Query()]. *)
Record Request : Type := mkRequest {
  Path : string;
  Query : gmap string (list string)
}.

(** [url.Values.Get]: the first value of the key, [""] without one. *)
Definition Get (values : gmap string (list string)) (key : string) : string :=
  match values !! key with
  | Some (v :: _) => v
  | _ => ""
  end.

(** What these handlers write to the body: a line of text (by
    [http.Error]), the map [unitInfoHandler] encodes, or the slice of
    [UnitInfo] that [unitsByDimensionHandler] encodes. *)
Inductive body : Type :=
| Line (s : string)
| UnitJSON (symbol name dimension : string) (factor : float)
| UnitInfosJSON (unitInfos : list (string * string)).

(** The state of the [http.ResponseWriter], as in [http] above.  A status
    of [None] when the handler returns is sent as [200] by the server. *)
Record ResponseWriter : Type := mkResponseWriter {
  Header : gmap string string;
  Status : option Z;
  Body : list body
}.

Definition NewResponseWriter : ResponseWriter := mkResponseWriter ∅ None [].

Definition Header_Set (k v : string) (w : ResponseWriter) : ResponseWriter :=
  mkResponseWriter (<[k := v]> (Header w)) (Status w) (Body w).

Definition WriteHeader (code : Z) (w : ResponseWriter) : ResponseWriter :=
  match Status w with
  | Some _ => w
  | None => mkResponseWriter (Header w) (Some code) (Body w)
  end.

Definition Write (b : body) (w : ResponseWriter) : ResponseWriter :=
  let w' := WriteHeader http.StatusOK w in
  mkResponseWriter (Header w') (Status w') (Body w' ++ [b]).

Definition StatusNotFound : Z := 404.

(** [http.Error(w, error, code)]: the two headers, the status, the
    message and a newline.  (Recent versions of Go also delete the
    [Content-Length] header, which no handler here sets.) *)
Definition Error (error : string) (code : Z) (w : ResponseWriter) : ResponseWriter :=
  let w := Header_Set "Content-Type" "text/plain; charset=utf-8" w in
  let w := Header_Set "X-Content-Type-Options" "nosniff" w in
  let w := WriteHeader code w in
  Write (Line error) w.

(** [http.NotFound(w, r)] *)
Definition NotFound (w : ResponseWriter) : ResponseWriter :=
  Error "404 page not found" StatusNotFound w.

(** Whether [encoding/json] can encode the value: it refuses a float64
    that is NaN or infinite. *)
Definition encodable (b : body) : bool :=
  match b with
  | UnitJSON _ _ _ factor => PrimFloat.is_finite factor
  | _ => true
  end.

(** [json.NewEncoder(w).Encode(v)]: the encoder writes the whole value, or
    returns an error and writes nothing.  The handlers drop the error. *)
Definition Encode (b : body) (w : ResponseWriter) : ResponseWriter :=
  if encodable b then Write b w else w.

End api.

(** [unitInfoHandler(uc)] applied to a writer and a request. *)
Definition unitInfoHandler (uc : UnitConverter)
    (w : api.ResponseWriter) (r : api.Request) : api.ResponseWriter :=
  let unitSymbol := api.Get (api.Query r) "unit" in
  if String.eqb unitSymbol "" then
    api.Error "Unit symbol is required" http.StatusBadRequest w
  else
    match units uc !! unitSymbol with
    | None => api.Error "Invalid unit symbol" http.StatusBadRequest w
    | Some unit =>
        let w := api.Header_Set "Content-Type" "application/json" w in
        api.Encode (api.UnitJSON unitSymbol (Name unit) (Dimension unit) (Factor unit)) w
    end.

Section MapIteration.

(** The order in which [for symbol, unit := range units] visits a map: Go
    leaves it unspecified, so it is a parameter, and the properties below
    assume only that it visits every entry once. *)
Variable iteration : gmap string Unit -> list (string * Unit).

(** [unitsByDimensionHandler(uc)] applied to a writer and a request. *)
Definition unitsByDimensionHandler (uc : UnitConverter)
    (w : api.ResponseWriter) (r : api.Request) : api.ResponseWriter :=
  let dimension := api.Get (api.Query r) "dimension" in
  if String.eqb dimension "" then
    api.Error "Dimension is required" http.StatusBadRequest w
  else
    let units := GetUnitsByDimension uc dimension in
    if (size units =? 0)%nat then
      api.Error "Invalid dimension" http.StatusBadRequest w
    else
      let unitInfos := map (fun su : string * Unit => (su.1, Name su.2)) (iteration units) in
      let w := api.Header_Set "Content-Type" "application/json" w in
      api.Encode (api.UnitInfosJSON unitInfos) w.

End MapIteration.

(** [homeHandler(uc)] up to the call of [template.ParseFiles]: either the
    answer of [http.NotFound], or the data handed to the template.  The
    year comes from the clock and is an argument; reading and executing
    the template file is outside this model. *)
Inductive home_result : Type :=
| HomeNotFound (w : api.ResponseWriter)
| HomeRender (data : TemplateData).

Definition homeHandler (uc : UnitConverter) (year : Z)
    (w : api.ResponseWriter) (r : api.Request) : home_result :=
  if negb (String.eqb (api.Path r) "/") then HomeNotFound (api.NotFound w)
  else
    let unitsByDimension : gmap string (gmap string Unit) :=
      set_to_map (fun dim => (dim, GetUnitsByDimension uc dim)) (GetAllDimensions uc) in
    let dimensionNames : gmap string string :=
      set_to_map (fun dim => (dim, GetDimensionName uc dim)) (GetAllDimensions uc) in
    HomeRender (mkTemplateData unitsByDimension (GetAllDimensions uc) dimensionNames year).

(** The failure answer every error path of [convertHandler] writes. *)
Definition failure_response (code : Z) (msg : string) : http.ResponseWriter :=
  http.mkResponseWriter {["Content-Type" := "application/json"]} (Some code)
    [http.JSON (failure msg)].

(** A unit of factor [1] and offset [0]: the base unit the comments of the
    table name for each dimension. *)
Definition is_base (u : Unit) : bool :=
  PrimFloat.Leibniz.eqb (Factor u) 1 && PrimFloat.Leibniz.eqb (Offset u) 0.

(** What [http.Error] leaves in a fresh writer. *)
Definition error_response (code : Z) (msg : string) : api.ResponseWriter :=
  api.mkResponseWriter
    {["Content-Type" := "text/plain; charset=utf-8"; "X-Content-Type-Options" := "nosniff"]}
    (Some code) [api.Line msg].

(** The fourteen dimension tags of the table in [NewUnitConverter]. *)
Definition dimension_tags : list string :=
  ["mass"; "length"; "temperature"; "time"; "frequency"; "speed"; "volume";
   "area"; "energy"; "power"; "force"; "pressure"; "data_storage"; "angle"].

(** The base units among the units of a dimension, and the test that
    there is exactly one. *)
Definition base_units (uc : UnitConverter) (dimension : string) : list (string * Unit) :=
  filter (fun su : string * Unit => is_base su.2 = true)
         (map_to_list (GetUnitsByDimension uc dimension)).

Definition one_base_unit (uc : UnitConverter) (dimension : string) : bool :=
  match base_units uc dimension with
  | [_] => true
  | _ => false
  end.

(** Every character of [s] is a decimal digit. *)
Fixpoint all_digits (s : string) : bool :=
  match s with
  | EmptyString => true
  | String c rest =>
      match strconv.digit c with Some _ => all_digits rest | None => false end
  end.

(** A factor that is positive and finite. *)
Definition finite_factor (u : Unit) : bool :=
  (0 <? Factor u)%float && PrimFloat.is_finite (Factor u).

(** Case analysis on the first test of a [switch] over strings. *)
Ltac switch_case x :=
  match goal with
  | |- context [String.eqb x ?tag] =>
      destruct (String.eqb_spec x tag) as [->|?]
  end.

(** ** Values and rounding errors *)

(** What the arithmetic of [float64] does to the values of the numbers,
    as rationals.  These definitions are used to state how far the
    result of [Convert] is from the exact quotient. *)

Local Open Scope Q_scope.

(** [2^e], for any integer [e]. *)
Definition pow2 (e : Z) : Q := 2 ^ e.

(** Where the value [x] lies between [m * 2^e] and [(m + 1) * 2^e],
    as the round and sticky bits say. *)
Definition inbetween (mrs : shr_record) (e : Z) (x : Q) : Prop :=
  let lo := inject_Z (shr_m mrs) * pow2 e in
  match shr_r mrs, shr_s mrs with
  | false, false => x == lo
  | false, true => lo < x /\ x < lo + (1 # 2) * pow2 e
  | true, false => x == lo + (1 # 2) * pow2 e
  | true, true => lo + (1 # 2) * pow2 e < x /\ x < lo + pow2 e
  end.

(** The magnitude and the sign of a binary64 number; infinities and NaN
    count for nothing here and are told apart by [SFfin]. *)
Definition SFmag (f : spec_float) : Q :=
  match f with
  | S754_finite _ m e => inject_Z (Zpos m) * pow2 e
  | _ => 0
  end.

Definition SFsign (f : spec_float) : bool :=
  match f with
  | S754_zero s | S754_infinity s | S754_finite s _ _ => s
  | S754_nan => false
  end.

(** A zero or a finite number: neither an infinity nor NaN. *)
Definition SFfin (f : spec_float) : bool :=
  match f with
  | S754_zero _ | S754_finite _ _ _ => true
  | _ => false
  end.

Definition signed (s : bool) (q : Q) : Q := if s then - q else q.

(** The value of a binary64 number. *)
Definition SF2Q (f : spec_float) : Q := signed (SFsign f) (SFmag f).

(** The exponent at which the first shift of [binary_round_aux] rounds. *)
Definition round_exponent (mx ex : Z) : Z :=
  Z.max ex (fexp prec emax (Zdigits2 mx + ex)).

(** The relative error of one rounding, [2^-53], and its absolute error
    among the subnormal numbers, [2^-1075]. *)
Definition u64 : Q := pow2 (-53).

Definition eta64 : Q := pow2 (-1075).

(** A result [r] of sign [s] for the exact magnitude [x]: it is no NaN,
    it overflows only from [2^970] on, and below it is within the relative
    error [u64] and the absolute error [eta64] of [x]. *)
Definition rounded (r : spec_float) (s : bool) (x : Q) : Prop :=
  r <> S754_nan /\ SFsign r = s
  /\ (SFfin r = false -> pow2 970 <= x)
  /\ (SFfin r = true -> Qabs (SFmag r - x) <= u64 * x + eta64).

(** The same for a result that needs no rounding. *)
Definition exactly (r : spec_float) (s : bool) (x : Q) : Prop :=
  r <> S754_nan /\ SFsign r = s
  /\ (SFfin r = false -> pow2 970 <= x)
  /\ (SFfin r = true -> SFmag r == x).

(** The result [r] of an operation whose exact result is [q]: while [q]
    is below [2^970] in magnitude, [r] is finite and within the relative
    error [u64] and the absolute error [eta64] of [q]. *)
Definition op_ok (r : spec_float) (q : Q) : Prop :=
  Qabs q < pow2 970 ->
  SFfin r = true /\ Qabs (SF2Q r - q) <= u64 * Qabs q + eta64.

(** The value of a [float64], and whether it is a zero or a finite
    number.  [Q_of_float x = Some q] says both: [Ffin x = true] and
    [q == F2Q x]. *)
Definition F2Q (x : float) : Q := SF2Q (Prim2SF x).

Definition Ffin (x : float) : bool := SFfin (Prim2SF x).

(** From the words of the spec: [N] is the integer nearest to [q], the
    one away from zero when two are as near, that is
    [|N| = floor (|q| + 1/2)] with the sign of [q]. *)
Definition nearest_away (N : Z) (q : Q) : Prop :=
  inject_Z (Z.abs N) <= Qabs q + (1 # 2)
  /\ Qabs q + (1 # 2) < inject_Z (Z.abs N) + 1
  /\ 0 <= inject_Z N * q.

(** Three magnitudes.  No operation overflows while its exact result is
    at most [Bmax]; a value of at most [Wmax] goes through the arithmetic
    of [Convert] without passing [Bmax]; and a value of at most [Vmax]
    can be converted and converted back. *)
Definition Bmax : Q := 10 ^ 280.

Definition Wmax : Q := 10 ^ 230.

Definition Vmax : Q := 10 ^ 200.

Local Close Scope Q_scope.

(** The value of [x] lies between [lo] and [hi]. *)
Definition in_range (lo hi : Q) (x : float) : bool :=
  match Q_of_float x with
  | Some q => Qle_bool lo q && Qle_bool q hi
  | None => false
  end.

(** The factors and offsets of the table: a temperature unit has a factor
    from [1/2] to [1] and an offset from [0] to [274]; any other unit has
    a factor from [10^-13] to [10^13] and no offset. *)
Definition unit_range (u : Unit) : bool :=
  if String.eqb (Dimension u) "temperature"
  then in_range (1 # 2) 1 (Factor u) && in_range 0 274 (Offset u)
  else in_range (1 # 10000000000000) 10000000000000 (Factor u)
       && PrimFloat.Leibniz.eqb (Offset u) 0.

(** The Fahrenheit entry with the offset [459.67 * 5 / 9], which is
    [255.37222222222221], in the place of [255.372]; and the Celsius
    entry of the table. *)
Definition Fahrenheit_exact : Unit :=
  mkUnit (5.0 / 9.0) "temperature" "Fahrenheit" (459.67 * 5 / 9).

Definition Celsius : Unit := mkUnit 1 "temperature" "Celsius" 273.15.

(** * Properties *)

(** ** The models on known values *)

Example registry_size : size (units NewUnitConverter) = 66%nat.
Proof. vm_compute. reflexivity. Qed.

(** Go evaluates [math.Pi / 180] exactly before rounding it; dividing the
    rounded [math.Pi] gives the same three factors. *)
Example angle_factors :
  (math.Pi / 180 = 0.017453292519943295769236907684886127)%float
  /\ (math.Pi / 10800 = 0.00029088820866572159615394846141476878)%float
  /\ (math.Pi / 648000 = 0.0000048481368110953599358991410235794797)%float.
Proof. repeat split; vm_compute; reflexivity. Qed.

Example Round_halves :
  (math.Round 0.5 = 1 /\ math.Round (-0.5) = -1 /\ math.Round 2.5 = 3
   /\ math.Round 0.49999999999999994 = 0 /\ math.Round (-0.3) = -0
   /\ math.Round 1e300 = 1e300 /\ math.Round infinity = infinity)%float.
Proof. repeat split; vm_compute; reflexivity. Qed.

Example FormatFloat_rounds_to_even :
  strconv.FormatFloat 0.125 strconv.verb_f 2 = "0.12"
  /\ strconv.FormatFloat 0.375 strconv.verb_f 2 = "0.38"
  /\ strconv.FormatFloat 2.5 strconv.verb_f 0 = "2"
  /\ strconv.FormatFloat (-0.0001) strconv.verb_f 3 = "-0.000"
  /\ strconv.FormatFloat 123456.789 strconv.verb_e 6 = "1.234568e+05"
  /\ strconv.FormatFloat 9.9999996 strconv.verb_e 6 = "1.000000e+01"
  /\ strconv.FormatFloat 1e-320 strconv.verb_e 6 = "9.999889e-321"
  /\ strconv.FormatFloat nan strconv.verb_f 4 = "NaN"
  /\ strconv.FormatFloat infinity strconv.verb_e 6 = "+Inf".
Proof. repeat split; vm_compute; reflexivity. Qed.

Example ParseFloat_decimal :
  strconv.ParseFloat "10" = Some 10%float
  /\ strconv.ParseFloat "-273.15" = Some (-273.15)%float
  /\ strconv.ParseFloat "1e-9" = Some 0.000000001%float
  /\ strconv.ParseFloat ".5" = Some 0.5%float
  /\ strconv.ParseFloat "9007199254740993" = Some 9007199254740992%float
  /\ strconv.ParseFloat "1e400" = None
  /\ strconv.ParseFloat "ten" = None
  /\ strconv.ParseFloat "" = None.
Proof. repeat split; vm_compute; reflexivity. Qed.

(** ** The four outcomes of [Convert] *)

Section ConvertOutcomes.

Variable uc : UnitConverter.
Variables (value : float) (from to : string).

Lemma Convert_source_absent :
  units uc !! from = None ->
  Convert uc value from to = (0%float, Some (InvalidSourceUnit from)).
Proof. intros Hfrom. unfold Convert. now rewrite Hfrom. Qed.

Lemma Convert_target_absent unitFrom :
  units uc !! from = Some unitFrom ->
  units uc !! to = None ->
  Convert uc value from to = (0%float, Some (InvalidTargetUnit to)).
Proof. intros Hfrom Hto. unfold Convert. now rewrite Hfrom, Hto. Qed.

Lemma Convert_mismatch unitFrom unitTo :
  units uc !! from = Some unitFrom ->
  units uc !! to = Some unitTo ->
  Dimension unitFrom <> Dimension unitTo ->
  Convert uc value from to =
    (0%float, Some (DimensionMismatch from (Dimension unitFrom) to (Dimension unitTo))).
Proof.
  intros Hfrom Hto Hdim. unfold Convert. rewrite Hfrom, Hto.
  apply String.eqb_neq in Hdim. now rewrite Hdim.
Qed.

Lemma Convert_same_dimension unitFrom unitTo :
  units uc !! from = Some unitFrom ->
  units uc !! to = Some unitTo ->
  Dimension unitFrom = Dimension unitTo ->
  Convert uc value from to = (round_result (unrounded unitFrom unitTo value), None).
Proof.
  intros Hfrom Hto Hdim. unfold Convert, unrounded. rewrite Hfrom, Hto.
  apply String.eqb_eq in Hdim. rewrite Hdim. reflexivity.
Qed.

End ConvertOutcomes.

(** [round_result] with its constants evaluated: times [10^12], [Round],
    divided by [10^12]. *)
Lemma round_result_unfold (result : float) :
  round_result result
  = (math.Round (result * 1000000000000) / 1000000000000)%float.
Proof. reflexivity. Qed.

(** C3. [Convert] fails exactly when the source symbol is absent, or the
    source is present and the target absent, or both are present with
    different dimension tags; each case gives its own error, and two
    registered units of one dimension convert without error, for every
    value. *)
Theorem Convert_error_iff (uc : UnitConverter) (value : float) (from to : string) :
  (snd (Convert uc value from to) <> None <->
     units uc !! from = None
     \/ (is_Some (units uc !! from) /\ units uc !! to = None)
     \/ (exists unitFrom unitTo,
           units uc !! from = Some unitFrom /\ units uc !! to = Some unitTo
           /\ Dimension unitFrom <> Dimension unitTo))
  /\ (units uc !! from = None ->
      snd (Convert uc value from to) = Some (InvalidSourceUnit from))
  /\ (is_Some (units uc !! from) -> units uc !! to = None ->
      snd (Convert uc value from to) = Some (InvalidTargetUnit to))
  /\ (forall unitFrom unitTo,
        units uc !! from = Some unitFrom -> units uc !! to = Some unitTo ->
        (Dimension unitFrom <> Dimension unitTo ->
         snd (Convert uc value from to)
         = Some (DimensionMismatch from (Dimension unitFrom) to (Dimension unitTo)))
        /\ (Dimension unitFrom = Dimension unitTo ->
            snd (Convert uc value from to) = None)).
Proof.
  destruct (units uc !! from) as [unitFrom|] eqn:Hfrom.
  - destruct (units uc !! to) as [unitTo|] eqn:Hto.
    + destruct (decide (Dimension unitFrom = Dimension unitTo)) as [Hdim|Hdim].
      * rewrite (Convert_same_dimension uc value from to _ _ Hfrom Hto Hdim).
        cbn [snd]. split; [split | split; [ | split]].
        -- intros H. now contradiction H.
        -- intros [H|[[_ H]|(uf & ut & Huf & Hut & Hne)]]; try discriminate.
           injection Huf as <-. injection Hut as <-. contradiction.
        -- discriminate.
        -- discriminate.
        -- intros ? ? [= <-] [= <-]. split; congruence.
      * rewrite (Convert_mismatch uc value from to _ _ Hfrom Hto Hdim).
        cbn [snd]. split; [split | split; [ | split]].
        -- intros _. right. right. exists unitFrom, unitTo. auto.
        -- discriminate.
        -- discriminate.
        -- discriminate.
        -- intros ? ? [= <-] [= <-]. split; congruence.
    + rewrite (Convert_target_absent uc value from to _ Hfrom Hto).
      cbn [snd]. split; [split | split; [ | split]].
      * intros _. right. left. split; [eauto | reflexivity].
      * discriminate.
      * discriminate.
      * reflexivity.
      * discriminate.
  - rewrite (Convert_source_absent uc value from to Hfrom).
    cbn [snd]. split; [split | split; [ | split]].
    + intros _. now left.
    + discriminate.
    + reflexivity.
    + intros [? H]. discriminate H.
    + discriminate.
Qed.

Lemma Convert_error_iff_witness :
  snd (Convert NewUnitConverter 1 "kg" "m")
  = Some (DimensionMismatch "kg" "mass" "m" "length")
  /\ snd (Convert NewUnitConverter 1 "kg" "lb") = None.
Proof.
  destruct (Convert_error_iff NewUnitConverter 1 "kg" "m") as (_ & _ & _ & Hm).
  destruct (Convert_error_iff NewUnitConverter 1 "kg" "lb") as (_ & _ & _ & Hs).
  split.
  - refine (proj1 (Hm (mkUnit 1000 "mass" "Kilogram" 0) (mkUnit 1 "length" "Meter" 0)
                      eq_refl eq_refl) _).
    discriminate.
  - exact (proj2 (Hs (mkUnit 1000 "mass" "Kilogram" 0) (mkUnit 453.59237 "mass" "Pound" 0)
                     eq_refl eq_refl) eq_refl).
Defined.

(** C10. With both symbols absent the source is reported, since it is
    looked up first, and the number returned with the error is [0]. *)
Theorem Convert_both_absent (uc : UnitConverter) (value : float) (from to : string) :
  units uc !! from = None ->
  units uc !! to = None ->
  Convert uc value from to = (0%float, Some (InvalidSourceUnit from)).
Proof. intros Hfrom _. now apply Convert_source_absent. Qed.

Lemma Convert_both_absent_witness :
  units NewUnitConverter !! "unknown" = None
  /\ units NewUnitConverter !! "furlong" = None
  /\ Convert NewUnitConverter 5 "unknown" "furlong"
     = (0%float, Some (InvalidSourceUnit "unknown")).
Proof.
  assert (H1 : units NewUnitConverter !! "unknown" = None) by (vm_compute; reflexivity).
  assert (H2 : units NewUnitConverter !! "furlong" = None) by (vm_compute; reflexivity).
  split; [exact H1 | split; [exact H2 |]].
  exact (Convert_both_absent NewUnitConverter 5 "unknown" "furlong" H1 H2).
Defined.

(** ** The relative tolerance *)

Lemma Qpower2_split (e d : Z) :
  (0 <= d)%Z -> (2 ^ (e + d) == inject_Z (2 ^ d) * 2 ^ e)%Q.
Proof.
  intros Hd. rewrite Qpower_plus by discriminate.
  rewrite Qmult_comm. apply Qmult_comp; [|reflexivity].
  symmetry. change 2%Q with (inject_Z 2). apply Zpower_Qpower. exact Hd.
Qed.

Lemma scaled_value (n e e0 : Z) :
  (e0 <= e)%Z -> (inject_Z n * 2 ^ e == inject_Z (n * 2 ^ (e - e0)) * 2 ^ e0)%Q.
Proof.
  intros He. replace e with (e0 + (e - e0))%Z at 1 by lia.
  rewrite Qpower2_split by lia. rewrite inject_Z_mult. ring.
Qed.

(** The integer test decides the tolerance on the rational values. *)
Lemma within_1e9_spec (v r : float) : within_1e9 v r = true <-> close_1e9 v r.
Proof.
  unfold within_1e9, close_1e9, Q_of_float.
  destruct (exact v) as [[nv ev]|];
    [ | split; [discriminate | intros (? & ? & [=] & _)] ].
  destruct (exact r) as [[nr er]|];
    [ | split; [discriminate | intros (? & ? & _ & [=] & _)] ].
  set (e := Z.min ev er).
  set (a := (nv * 2 ^ (ev - e))%Z). set (b := (nr * 2 ^ (er - e))%Z).
  assert (Hpos : (0 < 2 ^ e)%Q) by (apply Qpower_0_lt; reflexivity).
  assert (Hdiff : (inject_Z nr * 2 ^ er - inject_Z nv * 2 ^ ev
                   == inject_Z (b - a) * 2 ^ e)%Q).
  { rewrite (scaled_value nv ev e), (scaled_value nr er e) by (subst e; lia).
    fold a b. unfold Z.sub. rewrite inject_Z_plus, inject_Z_opp. ring. }
  assert (Hiff : (Qabs (inject_Z nr * 2 ^ er - inject_Z nv * 2 ^ ev)
                  <= (1 # 1000000000) * Qabs (inject_Z nv * 2 ^ ev))%Q
                 <-> (Z.abs (b - a) * 10 ^ 9 <= Z.abs a)%Z).
  { rewrite Hdiff, (scaled_value nv ev e) by (subst e; lia). fold a.
    rewrite !Qabs_Qmult, (Qabs_pos (2 ^ e)%Q) by (apply Qlt_le_weak; exact Hpos).
    rewrite Qmult_assoc, Qmult_le_r by exact Hpos.
    unfold Qle, Qabs, inject_Z, Qmult. cbn [Qnum Qden]. lia. }
  rewrite Z.leb_le, <- Hiff. split.
  - intros H. eexists _, _. split; [reflexivity|]. split; [reflexivity|]. exact H.
  - intros (qv & qr & [= <-] & [= <-] & H). exact H.
Qed.

(** ** The arithmetic of [float64] on values *)

(** Every operation of [float64] returns the exact result rounded to the
    nearest number of the format.  From the kernel's specification of the
    operations this part derives the usual bounds: while the exact result
    [q] is below [2^970] in magnitude, the result is finite and at most
    [2^-53 * |q| + 2^-1075] away from [q]; and [math.Round] returns the
    nearest integer, the one away from zero when two are as near. *)

Lemma SFeqb_refl_finite (s : bool) (m : positive) (e : Z) :
  SFeqb (S754_finite s m e) (S754_finite s m e) = true.
Proof.
  unfold SFeqb. cbn. destruct s; rewrite Z.compare_refl;
    change (PosDef.Pos.compare_cont Eq m m) with (Pos.compare m m);
    rewrite Pos.compare_refl; reflexivity.
Qed.

Local Open Scope Q_scope.

(** *** Powers of two *)

Lemma pow2_pos (e : Z) : 0 < pow2 e.
Proof. apply Qpower_0_lt. reflexivity. Qed.

Lemma pow2_add (a b : Z) : pow2 (a + b) == pow2 a * pow2 b.
Proof. apply Qpower_plus. discriminate. Qed.

Lemma pow2_succ (e : Z) : pow2 (e + 1) == 2 * pow2 e.
Proof. rewrite pow2_add. change (pow2 1) with 2. ring. Qed.

Lemma pow2_pred (e : Z) : pow2 e == 2 * pow2 (e - 1).
Proof. rewrite <- pow2_succ. now replace (e - 1 + 1)%Z with e by lia. Qed.

Lemma pow2_le (a b : Z) : (a <= b)%Z -> pow2 a <= pow2 b.
Proof. intros H. apply Qpower_le_compat_l; [exact H | discriminate]. Qed.

Lemma pow2_lt (a b : Z) : (a < b)%Z -> pow2 a < pow2 b.
Proof. intros H. apply Qpower_lt_compat_l; [exact H | reflexivity]. Qed.

Lemma pow2_Z (n : Z) : (0 <= n)%Z -> pow2 n == inject_Z (2 ^ n).
Proof. intros H. symmetry. apply Zpower_Qpower. exact H. Qed.

Lemma pow2_lt_inv (a b : Z) : pow2 a < pow2 b -> (a < b)%Z.
Proof. intros H. apply (Qpower_lt_compat_l_inv 2); [exact H | reflexivity]. Qed.

(** An integer below a power of two, on rationals. *)
Lemma inject_Z_lt_pow2 (m n : Z) : (0 <= n)%Z -> (m < 2 ^ n)%Z <-> inject_Z m < pow2 n.
Proof. intros H. rewrite (pow2_Z n H), <- Zlt_Qlt. reflexivity. Qed.

Lemma inject_Z_le_pow2 (m n : Z) : (0 <= n)%Z -> (2 ^ n <= m)%Z <-> pow2 n <= inject_Z m.
Proof. intros H. rewrite (pow2_Z n H), <- Zle_Qle. reflexivity. Qed.

(** *** The number of bits of a mantissa *)

Lemma digits2_pos_size (p : positive) : digits2_pos p = Pos.size p.
Proof. induction p; cbn; now rewrite ?IHp. Qed.

Lemma digits2_pos_bounds (p : positive) :
  (2 ^ (Zpos (digits2_pos p) - 1) <= Zpos p < 2 ^ Zpos (digits2_pos p))%Z.
Proof.
  rewrite digits2_pos_size. split.
  - pose proof (Pos.size_le p) as H.
    assert (H' : (2 ^ Zpos (Pos.size p) <= 2 * Zpos p)%Z).
    { rewrite <- Pos2Z.inj_pow. change (2 * Zpos p)%Z with (Zpos p~0). exact H. }
    replace (Zpos (Pos.size p)) with (Z.succ (Zpos (Pos.size p) - 1)) in H' by lia.
    rewrite Z.pow_succ_r in H' by lia. lia.
  - pose proof (Pos.size_gt p) as H. rewrite <- Pos2Z.inj_pow. exact H.
Qed.

Lemma Zdigits2_nonneg (m : Z) : (0 <= Zdigits2 m)%Z.
Proof. destruct m; cbn; lia. Qed.

Lemma Zdigits2_bounds (m : Z) :
  (0 < m)%Z -> (2 ^ (Zdigits2 m - 1) <= m < 2 ^ Zdigits2 m)%Z.
Proof. destruct m as [|p|p]; try lia. intros _. apply digits2_pos_bounds. Qed.

(** A positive integer with at most [n] bits. *)
Lemma Zdigits2_le (m n : Z) : (0 <= n)%Z -> (0 <= m < 2 ^ n)%Z -> (Zdigits2 m <= n)%Z.
Proof.
  intros Hn [H0 Hm]. destruct (Z.eq_dec m 0%Z) as [->|Hne]; [exact Hn|].
  destruct (Zdigits2_bounds m ltac:(lia)) as [Hlo _].
  destruct (Z_lt_le_dec n (Zdigits2 m)) as [Hlt|]; [|assumption].
  assert (2 ^ n <= 2 ^ (Zdigits2 m - 1))%Z by (apply Z.pow_le_mono_r; lia). lia.
Qed.

(** *** Shifting with a rounding record *)

Lemma inbetween_bounds (mrs : shr_record) (e : Z) (x : Q) :
  inbetween mrs e x ->
  inject_Z (shr_m mrs) * pow2 e <= x /\ x < (inject_Z (shr_m mrs) + 1) * pow2 e.
Proof.
  pose proof (pow2_pos e). unfold inbetween. destruct (shr_r mrs), (shr_s mrs); cbv zeta; lra.
Qed.

Lemma shr_1_inbetween (mrs : shr_record) (e : Z) (x : Q) :
  (0 <= shr_m mrs)%Z -> inbetween mrs e x ->
  inbetween (shr_1 mrs) (e + 1) x /\ (0 <= shr_m (shr_1 mrs))%Z.
Proof.
  pose proof (pow2_pos e) as Hpos. pose proof (pow2_succ e) as Hsucc.
  destruct mrs as [m r s]. cbn [shr_m]. intros Hm.
  assert (HO : forall p, inject_Z (Zpos p~0) == 2 * inject_Z (Zpos p)).
  { intros p. rewrite Pos2Z.inj_xO, inject_Z_mult. reflexivity. }
  assert (HI : forall p, inject_Z (Zpos p~1) == 2 * inject_Z (Zpos p) + 1).
  { intros p. rewrite Pos2Z.inj_xI, inject_Z_plus, inject_Z_mult. reflexivity. }
  destruct m as [|[p|p|]|p]; try lia;
    unfold inbetween; cbn [shr_1 shr_m shr_r shr_s]; cbv zeta;
    destruct r, s; cbn [orb]; rewrite ?HO, ?HI, ?Hsucc;
    change (inject_Z 0) with 0; change (inject_Z 1) with 1;
    intros H; (split; [|lia]); lra.
Qed.

Lemma iter_shr_1_inbetween (n : positive) (mrs : shr_record) (e : Z) (x : Q) :
  (0 <= shr_m mrs)%Z -> inbetween mrs e x ->
  inbetween (SpecFloat.iter_pos shr_1 n mrs) (e + Zpos n) x
  /\ (0 <= shr_m (SpecFloat.iter_pos shr_1 n mrs))%Z.
Proof.
  revert mrs e. induction n as [n IH|n IH|]; intros mrs e Hm H; cbn [SpecFloat.iter_pos].
  - destruct (shr_1_inbetween mrs e x Hm H) as [H1 Hm1].
    destruct (IH _ _ Hm1 H1) as [H2 Hm2]. destruct (IH _ _ Hm2 H2) as [H3 Hm3].
    split; [|exact Hm3].
    now replace (e + Zpos n~1)%Z with (e + 1 + Zpos n + Zpos n)%Z by lia.
  - destruct (IH _ _ Hm H) as [H2 Hm2]. destruct (IH _ _ Hm2 H2) as [H3 Hm3].
    split; [|exact Hm3].
    now replace (e + Zpos n~0)%Z with (e + Zpos n + Zpos n)%Z by lia.
  - now apply shr_1_inbetween.
Qed.

(** [shr] by [n] bits, whatever the sign of [n]. *)
Lemma shr_inbetween (mrs : shr_record) (e n : Z) (x : Q) :
  (0 <= shr_m mrs)%Z -> inbetween mrs e x ->
  let '(mrs', e') := shr mrs e n in
  inbetween mrs' e' x /\ (0 <= shr_m mrs')%Z /\ e' = (e + Z.max 0 n)%Z
  /\ ((n <= 0)%Z -> mrs' = mrs).
Proof.
  intros Hm H. unfold shr. destruct n as [|p|p].
  - rewrite Z.add_0_r. auto.
  - destruct (iter_shr_1_inbetween p mrs e x Hm H) as [H1 Hm1].
    split; [exact H1 | split; [exact Hm1 | split; [lia | lia]]].
  - rewrite Z.add_0_r. auto.
Qed.

Lemma inbetween_of_loc_Exact (m e : Z) :
  inbetween (shr_record_of_loc m loc_Exact) e (inject_Z m * pow2 e).
Proof. unfold inbetween. cbn. reflexivity. Qed.

Lemma shr_m_of_loc (m : Z) (l : location) : shr_m (shr_record_of_loc m l) = m.
Proof. destruct l as [|[]]; reflexivity. Qed.

(** Rounding to nearest moves by at most half a unit. *)
Lemma round_nearest_even_bound (mrs : shr_record) (e : Z) (x : Q) :
  (0 <= shr_m mrs)%Z -> inbetween mrs e x ->
  let m' := round_nearest_even (shr_m mrs) (loc_of_shr_record mrs) in
  (shr_m mrs <= m' <= shr_m mrs + 1)%Z
  /\ Qabs (inject_Z m' * pow2 e - x) <= (1 # 2) * pow2 e
  /\ (loc_of_shr_record mrs = loc_Exact -> inject_Z m' * pow2 e == x).
Proof.
  pose proof (pow2_pos e) as Hpos. destruct mrs as [m r s]. cbn [shr_m]. intros Hm.
  unfold inbetween. cbn [shr_m shr_r shr_s loc_of_shr_record]. cbv zeta.
  assert (Hplus : inject_Z (m + 1) == inject_Z m + 1)
    by (rewrite inject_Z_plus; reflexivity).
  destruct r, s; cbn [round_nearest_even]; intros H;
    try destruct (Z.even m);
    (split; [lia | split; [apply Qabs_Qle_condition; rewrite ?Hplus; lra | ]]);
    try discriminate.
  all: intros _; lra.
Qed.

(** *** Values *)

Lemma fexp_eq (e : Z) : fexp prec emax e = Z.max (e - 53) (-1074).
Proof. reflexivity. Qed.

Lemma SFmag_nonneg (f : spec_float) : 0 <= SFmag f.
Proof.
  destruct f as [s|s| |s m e]; cbn; try lra.
  pose proof (pow2_pos e). assert (0 < inject_Z (Zpos m)) by (rewrite <- (Zlt_Qlt 0); lia).
  nra.
Qed.

(** *** [binary_round_aux] *)

(** The second shift of [binary_round_aux]: a mantissa of at most 53 bits
    stays, and [2^53] becomes [2^52] one exponent up. *)
Lemma shr_fexp_after_rounding (m e : Z) :
  (0 <= m <= 2 ^ 53)%Z -> (-1074 <= e)%Z ->
  let '(mrs, e') := shr_fexp prec emax m e loc_Exact in
  (0 <= shr_m mrs)%Z /\ (e <= e' <= e + 1)%Z
  /\ inject_Z (shr_m mrs) * pow2 e' == inject_Z m * pow2 e.
Proof.
  intros [H0 Hm] He. unfold shr_fexp. rewrite fexp_eq.
  destruct (Z.eq_dec m (2 ^ 53)%Z) as [->|Hne].
  - change (Zdigits2 (2 ^ 53)) with 54%Z.
    replace (Z.max (54 + e - 53) (-1074) - e)%Z with 1%Z by lia.
    change (2 ^ 53)%Z with 9007199254740992%Z.
    cbn [shr shr_record_of_loc SpecFloat.iter_pos shr_1 shr_m].
    split; [lia | split; [lia|]]. rewrite pow2_succ.
    change (inject_Z 9007199254740992) with (2 * inject_Z 4503599627370496). ring.
  - assert (Hd : (Zdigits2 m <= 53)%Z) by (apply Zdigits2_le; lia).
    pose proof (Zdigits2_nonneg m) as Hd0.
    pose proof (shr_inbetween (shr_record_of_loc m loc_Exact) e
                  (Z.max (Zdigits2 m + e - 53) (-1074) - e) (inject_Z m * pow2 e)) as H.
    cbn [shr_record_of_loc shr_m] in H. specialize (H H0 (inbetween_of_loc_Exact m e)).
    destruct (shr _ _ _) as [mrs e']. destruct H as (_ & Hm' & -> & Hsame).
    rewrite Hsame by lia. cbn [shr_m].
    replace (Z.max 0 (Z.max (Zdigits2 m + e - 53) (-1074) - e)) with 0%Z by lia.
    rewrite Z.add_0_r. split; [lia | split; [lia | reflexivity]].
Qed.

Section BinaryRoundAux.

Variables (s : bool) (mx ex : Z) (lx : location) (x : Q).
Hypothesis Hmx : (0 <= mx)%Z.
Hypothesis Hx : inbetween (shr_record_of_loc mx lx) ex x.

Lemma binary_round_aux_bound :
  let r := binary_round_aux prec emax s mx ex lx in
  r <> S754_nan /\ SFsign r = s
  /\ (SFfin r = false -> pow2 970 <= x)
  /\ (SFfin r = true ->
      Qabs (SFmag r - x) <= (1 # 2) * pow2 (round_exponent mx ex)
      /\ (lx = loc_Exact -> (fexp prec emax (Zdigits2 mx + ex) <= ex)%Z -> SFmag r == x)).
Proof.
  unfold binary_round_aux, round_exponent.
  change (shr_fexp prec emax mx ex lx)
    with (shr (shr_record_of_loc mx lx) ex (fexp prec emax (Zdigits2 mx + ex) - ex)).
  rewrite fexp_eq.
  set (D := (Zdigits2 mx + ex)%Z).
  pose proof (Zdigits2_nonneg mx) as Hd0.
  pose proof (shr_inbetween (shr_record_of_loc mx lx) ex (Z.max (D - 53) (-1074) - ex) x) as H1.
  rewrite shr_m_of_loc in H1. specialize (H1 Hmx Hx).
  destruct (shr _ _ _) as [mrs1 e1]. destruct H1 as (Hin1 & Hm1 & He1 & Hsame).
  assert (He1' : e1 = Z.max ex (Z.max (D - 53) (-1074))) by lia.
  rewrite <- He1'. clear He1. cbv beta iota.
  (* the mantissa after the first shift has at most 53 bits *)
  assert (Hx_lt : x < pow2 D).
  { destruct (inbetween_bounds _ _ _ Hx) as [_ Hup]. rewrite shr_m_of_loc in Hup.
    unfold D. rewrite pow2_add.
    assert (Hle : inject_Z mx + 1 <= pow2 (Zdigits2 mx)).
    { destruct (Z.eq_dec mx 0%Z) as [->|Hne]; [now vm_compute|].
      destruct (Zdigits2_bounds mx ltac:(lia)) as [_ Hlt].
      rewrite (pow2_Z _ Hd0). change 1 with (inject_Z 1).
      rewrite <- (inject_Z_plus mx 1), <- Zle_Qle. lia. }
    pose proof (pow2_pos ex). nra. }
  assert (Hm1_lt : (shr_m mrs1 < 2 ^ 53)%Z).
  { apply (inject_Z_lt_pow2 _ 53); [lia|].
    destruct (inbetween_bounds _ _ _ Hin1) as [Hlo _].
    assert (Hpow : pow2 D <= pow2 53 * pow2 e1).
    { rewrite <- pow2_add. apply pow2_le. lia. }
    pose proof (pow2_pos e1).
    assert (inject_Z (shr_m mrs1) * pow2 e1 < pow2 53 * pow2 e1) by lra.
    nra. }
  destruct (round_nearest_even_bound mrs1 e1 x Hm1 Hin1) as (Hm2 & Herr & Hexact).
  set (m2 := round_nearest_even (shr_m mrs1) (loc_of_shr_record mrs1)) in *.
  pose proof (shr_fexp_after_rounding m2 e1 ltac:(lia) ltac:(lia)) as H2.
  destruct (shr_fexp prec emax m2 e1 loc_Exact) as [mrs2 e2].
  destruct H2 as (Hm3 & He2 & Hval).
  assert (Hexact' : lx = loc_Exact -> (Z.max (D - 53) (-1074) <= ex)%Z ->
                    inject_Z m2 * pow2 e1 == x).
  { intros -> Hle. apply Hexact. rewrite Hsame by lia. reflexivity. }
  destruct (shr_m mrs2) as [|m3|m3] eqn:Hm3e; [ | | lia].
  - (* zero *)
    cbv zeta. cbn [SFfin SFsign SFmag].
    split; [discriminate | split; [reflexivity | split; [discriminate|]]].
    intros _. change (inject_Z 0) with 0 in Hval.
    assert (Hz : inject_Z m2 * pow2 e1 == 0) by lra.
    split; [|intros Hl Hle; rewrite <- (Hexact' Hl Hle); lra].
    rewrite <- Hz. exact Herr.
  - destruct (Z.leb_spec e2 (emax - prec)) as [Hle|Hgt]; cbv zeta;
      cbn [SFfin SFsign SFmag].
    + split; [discriminate | split; [reflexivity | split; [discriminate|]]].
      intros _. split.
      * assert (Heq : inject_Z (Zpos m3) * pow2 e2 - x == inject_Z m2 * pow2 e1 - x) by lra.
        rewrite Heq. exact Herr.
      * intros Hl Hle'. rewrite Hval. now apply Hexact'.
    + split; [discriminate | split; [reflexivity | split; [|discriminate]]].
      intros _. change (emax - prec)%Z with 971%Z in Hgt.
      apply Qabs_Qle_condition in Herr.
      assert (H1 : 1 <= inject_Z (Zpos m3)) by (rewrite <- (Zle_Qle 1); lia).
      pose proof (pow2_pos e2) as Hp2. pose proof (pow2_pos e1) as Hp1.
      assert (Hle12 : pow2 e1 <= pow2 e2) by (apply pow2_le; lia).
      assert (H972 : pow2 972 <= pow2 e2) by (apply pow2_le; lia).
      assert (H970 : pow2 972 == 4 * pow2 970) by reflexivity.
      nra.
Qed.

End BinaryRoundAux.

(** *** The error of one rounding *)

(** Half a unit in the last place, against the value. *)
Lemma half_ulp_bound (mx ex : Z) (x : Q) :
  (0 <= mx)%Z -> inject_Z mx * pow2 ex <= x ->
  (ex <= fexp prec emax (Zdigits2 mx + ex))%Z ->
  (1 # 2) * pow2 (round_exponent mx ex) <= pow2 (-53) * x + pow2 (-1075).
Proof.
  intros Hmx Hlo He. unfold round_exponent. rewrite fexp_eq in *.
  set (D := (Zdigits2 mx + ex)%Z) in *.
  pose proof (pow2_pos ex) as Hpex. pose proof (pow2_pos (-53)) as Hp53.
  assert (Hm0 : 0 <= inject_Z mx) by (rewrite <- (Zle_Qle 0); exact Hmx).
  assert (Hx0 : 0 <= x) by nra.
  assert (Heta : (1 # 2) * pow2 (-1074) == pow2 (-1075)) by reflexivity.
  replace (Z.max ex (Z.max (D - 53) (-1074))) with (Z.max (D - 53) (-1074)) by lia.
  destruct (Z.max_spec (D - 53) (-1074)) as [[_ ->]|[HD ->]]; [rewrite Heta; nra|].
  destruct (Z.eq_dec mx 0%Z) as [->|Hne]; [unfold D in *; cbn [Zdigits2] in *; lia|].
  destruct (Zdigits2_bounds mx ltac:(lia)) as [Hd _].
  pose proof (Zdigits2_nonneg mx) as Hd0.
  assert (Hd1 : (1 <= Zdigits2 mx)%Z).
  { destruct mx; cbn; lia. }
  apply (inject_Z_le_pow2 mx (Zdigits2 mx - 1) ltac:(lia)) in Hd.
  replace (D - 53)%Z with (-53 + (Zdigits2 mx - 1 + 1 + ex))%Z by (unfold D; lia).
  rewrite pow2_add, pow2_add, pow2_succ.
  pose proof (pow2_pos (Zdigits2 mx - 1)) as Hpd.
  assert (Hx1 : pow2 (Zdigits2 mx - 1) * pow2 ex <= x).
  { apply Qle_trans with (inject_Z mx * pow2 ex); [|exact Hlo].
    apply Qmult_le_compat_r; [exact Hd | lra]. }
  set (a := pow2 (Zdigits2 mx - 1) * pow2 ex) in *.
  assert (Ha : pow2 (-53) * (2 * pow2 (Zdigits2 mx - 1) * pow2 ex) == 2 * (pow2 (-53) * a))
    by (unfold a; ring).
  rewrite Ha. pose proof (pow2_pos (-1075)).
  assert (pow2 (-53) * a <= pow2 (-53) * x) by (apply Qmult_le_l; lra).
  lra.
Qed.

Lemma u64_pos : 0 < u64.
Proof. apply pow2_pos. Qed.

Lemma eta64_pos : 0 < eta64.
Proof. apply pow2_pos. Qed.

Lemma exactly_rounded (r : spec_float) (s : bool) (x : Q) :
  0 <= x -> exactly r s x -> rounded r s x.
Proof.
  intros Hx (Hn & Hs & Hinf & Hex). split; [exact Hn | split; [exact Hs | split; [exact Hinf|]]].
  intros Hf. rewrite (Hex Hf).
  assert (Hz : x - x == 0) by ring. rewrite Hz. change (Qabs 0) with 0.
  pose proof u64_pos. pose proof eta64_pos. nra.
Qed.

Lemma binary_round_aux_rounded (s : bool) (mx ex : Z) (lx : location) (x : Q) :
  (0 <= mx)%Z -> inbetween (shr_record_of_loc mx lx) ex x ->
  (ex <= fexp prec emax (Zdigits2 mx + ex))%Z \/ lx = loc_Exact ->
  rounded (binary_round_aux prec emax s mx ex lx) s x.
Proof.
  intros Hmx Hx Hcase.
  destruct (binary_round_aux_bound s mx ex lx x Hmx Hx) as (Hn & Hs & Hinf & Hfin).
  destruct (inbetween_bounds _ _ _ Hx) as [Hlo Hup]. rewrite shr_m_of_loc in Hlo, Hup.
  assert (Hx0 : 0 <= x).
  { pose proof (pow2_pos ex). assert (0 <= inject_Z mx) by (rewrite <- (Zle_Qle 0); exact Hmx).
    nra. }
  split; [exact Hn | split; [exact Hs | split; [exact Hinf|]]].
  intros Hf. destruct (Hfin Hf) as [Herr Hexact].
  destruct (Z_le_gt_dec ex (fexp prec emax (Zdigits2 mx + ex))) as [Hle|Hgt].
  - eapply Qle_trans; [exact Herr|]. now apply half_ulp_bound.
  - destruct Hcase as [Hle | Hl]; [lia|].
    rewrite (Hexact Hl ltac:(lia)).
    assert (Hz : x - x == 0) by ring. rewrite Hz. change (Qabs 0) with 0.
    pose proof u64_pos. pose proof eta64_pos. nra.
Qed.

Lemma binary_round_aux_exactly (s : bool) (mx ex : Z) (x : Q) :
  (0 <= mx)%Z -> x == inject_Z mx * pow2 ex ->
  (fexp prec emax (Zdigits2 mx + ex) <= ex)%Z ->
  exactly (binary_round_aux prec emax s mx ex loc_Exact) s x.
Proof.
  intros Hmx Hx Hle.
  assert (Hin : inbetween (shr_record_of_loc mx loc_Exact) ex x)
    by (unfold inbetween; cbn; exact Hx).
  destruct (binary_round_aux_bound s mx ex loc_Exact x Hmx Hin) as (Hn & Hs & Hinf & Hfin).
  split; [exact Hn | split; [exact Hs | split; [exact Hinf|]]].
  intros Hf. destruct (Hfin Hf) as [_ Hexact]. now apply Hexact.
Qed.

(** *** Aligning a mantissa *)

Lemma iter_xO (d m : positive) : Zpos (Pos.iter xO m d) = (Zpos m * 2 ^ Zpos d)%Z.
Proof.
  change (Pos.iter xO m d) with (shift_pos d m). rewrite shift_pos_correct.
  rewrite Z.pow_pos_fold. lia.
Qed.

Lemma shl_align_spec (mx : positive) (ex ex' : Z) :
  let '(m', e') := shl_align mx ex ex' in
  (e' = Z.min ex ex') /\ Zpos m' = (Zpos mx * 2 ^ (ex - e'))%Z.
Proof.
  unfold shl_align. destruct (ex' - ex)%Z as [|d|d] eqn:Hd.
  - split; [lia|]. replace (ex - ex)%Z with 0%Z by lia. lia.
  - split; [lia|]. replace (ex - ex)%Z with 0%Z by lia. lia.
  - split; [lia|]. rewrite iter_xO. f_equal. f_equal. lia.
Qed.

Lemma shl_align_value (mx : positive) (ex ex' : Z) :
  let '(m', e') := shl_align mx ex ex' in
  e' = Z.min ex ex' /\ inject_Z (Zpos m') * pow2 e' == inject_Z (Zpos mx) * pow2 ex.
Proof.
  pose proof (shl_align_spec mx ex ex') as H. destruct (shl_align mx ex ex') as [m' e'].
  destruct H as [He Hm]. split; [exact He|]. rewrite Hm, inject_Z_mult.
  rewrite <- (pow2_Z (ex - e')) by lia.
  assert (Hp : pow2 ex == pow2 (ex - e') * pow2 e').
  { rewrite <- pow2_add. now replace (ex - e' + e')%Z with ex by lia. }
  rewrite Hp. ring.
Qed.

(** *** [binary_round] and [binary_normalize] *)

Lemma binary_round_rounded (s : bool) (m : positive) (e : Z) :
  rounded (binary_round prec emax s m e) s (inject_Z (Zpos m) * pow2 e)
  /\ ((fexp prec emax (Zpos (digits2_pos m) + e) <= e)%Z ->
      exactly (binary_round prec emax s m e) s (inject_Z (Zpos m) * pow2 e)).
Proof.
  unfold binary_round.
  pose proof (shl_align_spec m e (fexp prec emax (Zpos (digits2_pos m) + e))) as Hs.
  pose proof (shl_align_value m e (fexp prec emax (Zpos (digits2_pos m) + e))) as Hv.
  destruct (shl_align _ _ _) as [mz ez]. destruct Hs as [He Hm]. destruct Hv as [_ Hv].
  split.
  - apply binary_round_aux_rounded; [lia | | now right].
    unfold inbetween. cbn. now rewrite Hv.
  - intros Hle. apply binary_round_aux_exactly; [lia | now rewrite Hv |].
    (* aligned: the mantissa has moved to the exponent [fexp] asks for *)
    assert (Hez : ez = fexp prec emax (Zpos (digits2_pos m) + e)) by lia.
    assert (Hd : (Zdigits2 (Zpos mz) + ez = Zpos (digits2_pos m) + e)%Z).
    { destruct (digits2_pos_bounds m) as [Hlo Hhi].
      destruct (digits2_pos_bounds mz) as [Hlo' Hhi'].
      cbn [Zdigits2]. rewrite Hm in Hlo', Hhi'.
      set (d := Zpos (digits2_pos m)) in *. set (d' := Zpos (digits2_pos mz)) in *.
      set (k := (e - ez)%Z) in *. assert (0 <= k)%Z by lia.
      assert (Hpk : (0 < 2 ^ k)%Z) by (apply Z.pow_pos_nonneg; lia).
      assert (H1 : (2 ^ (d' - 1) < 2 ^ (d + k))%Z).
      { rewrite Z.pow_add_r by lia. nia. }
      assert (H2 : (2 ^ (d - 1 + k) < 2 ^ d')%Z).
      { rewrite Z.pow_add_r by lia. nia. }
      apply Z.pow_lt_mono_r_iff in H1; [|lia|lia].
      apply Z.pow_lt_mono_r_iff in H2; [|lia|lia]. lia. }
    rewrite Hd. lia.
Qed.

Lemma binary_normalize_rounded (m e : Z) (szero : bool) :
  let r := binary_normalize prec emax m e szero in
  let x := inject_Z (Z.abs m) * pow2 e in
  (m = 0%Z -> r = S754_zero szero)
  /\ (m <> 0%Z -> rounded r (m <? 0)%Z x
      /\ ((fexp prec emax (Zdigits2 m + e) <= e)%Z -> exactly r (m <? 0)%Z x)).
Proof.
  destruct m as [|p|p]; cbn [binary_normalize Z.abs Z.ltb Z.compare Zdigits2]; cbv zeta.
  - split; [reflexivity | intros H; now contradiction H].
  - split; [discriminate | intros _; apply binary_round_rounded].
  - split; [discriminate | intros _; apply binary_round_rounded].
Qed.

(** *** The four operations on values *)

Lemma op_ok_eq (r : spec_float) (q q' : Q) : q == q' -> op_ok r q -> op_ok r q'.
Proof. intros Hq H. unfold op_ok in *. rewrite <- Hq. exact H. Qed.

Lemma Qabs_signed (s : bool) (x : Q) : Qabs (signed s x) == Qabs x.
Proof. destruct s; cbn [signed]; [apply Qabs_opp | reflexivity]. Qed.

Lemma signed_minus (s : bool) (a b : Q) : signed s a - signed s b == signed s (a - b).
Proof. destruct s; cbn [signed]; ring. Qed.

Lemma signed_mult (s t : bool) (a b : Q) :
  signed s a * signed t b == signed (xorb s t) (a * b).
Proof. destruct s, t; cbn [signed xorb]; ring. Qed.

Lemma rounded_ok (r : spec_float) (s : bool) (x : Q) :
  0 <= x -> rounded r s x -> op_ok r (signed s x).
Proof.
  intros Hx (Hn & Hs & Hinf & Hfin) Hq. rewrite Qabs_signed, (Qabs_pos x Hx) in Hq.
  destruct (SFfin r) eqn:Hf; [|specialize (Hinf eq_refl); lra].
  split; [reflexivity|]. unfold SF2Q. rewrite Hs, signed_minus, !Qabs_signed.
  rewrite (Qabs_pos x Hx). now apply Hfin.
Qed.

Lemma zero_ok (r : spec_float) (q : Q) :
  SFfin r = true -> SF2Q r == 0 -> q == 0 -> op_ok r q.
Proof.
  intros Hf Hr Hq _. split; [exact Hf|]. rewrite Hr, Hq.
  assert (Hz : 0 - 0 == 0) by ring. rewrite Hz. change (Qabs 0) with 0.
  pose proof u64_pos. pose proof eta64_pos. lra.
Qed.

Lemma SF2Q_finite (s : bool) (m : positive) (e : Z) :
  SF2Q (S754_finite s m e) = signed s (inject_Z (Zpos m) * pow2 e).
Proof. reflexivity. Qed.

Lemma mag_pos (m : positive) (e : Z) : 0 < inject_Z (Zpos m) * pow2 e.
Proof.
  pose proof (pow2_pos e). assert (0 < inject_Z (Zpos m)) by (rewrite <- (Zlt_Qlt 0); lia).
  nra.
Qed.

Lemma SF2Q_zero (s : bool) : SF2Q (S754_zero s) == 0.
Proof. destruct s; reflexivity. Qed.

(** **** Multiplication *)

Lemma SFmul_ok (x y : spec_float) :
  SFfin x = true -> SFfin y = true ->
  op_ok (SFmul prec emax x y) (SF2Q x * SF2Q y).
Proof.
  destruct x as [sx|sx| |sx mx ex], y as [sy|sy| |sy my ey]; try discriminate; intros _ _;
    cbn [SFmul].
  1-3: apply zero_ok; [reflexivity | apply SF2Q_zero | rewrite ?SF2Q_zero; ring].
  apply (op_ok_eq _ (signed (xorb sx sy) (inject_Z (Zpos (mx * my)) * pow2 (ex + ey)))).
  { rewrite !SF2Q_finite, signed_mult.
    destruct (xorb sx sy); cbn [signed];
      rewrite Pos2Z.inj_mul, inject_Z_mult, pow2_add; ring. }
  apply rounded_ok; [apply Qlt_le_weak, mag_pos|].
  apply binary_round_aux_rounded; [lia | | now right].
  unfold inbetween. cbn. reflexivity.
Qed.

(** **** Division *)

(** The quotient and the remainder of [SFdiv_core_binary], located. *)
Lemma new_location_inbetween (q r m2 e : Z) (x : Q) :
  (0 < m2)%Z -> (0 <= r < m2)%Z -> (0 <= q)%Z ->
  x * inject_Z m2 == (inject_Z q * inject_Z m2 + inject_Z r) * pow2 e ->
  inbetween (shr_record_of_loc q (new_location m2 r)) e x.
Proof.
  intros Hm2 Hr Hq Hx. pose proof (pow2_pos e) as Hp.
  assert (Hm2' : 0 < inject_Z m2) by (rewrite <- (Zlt_Qlt 0); lia).
  assert (Hr0 : 0 <= inject_Z r) by (rewrite <- (Zle_Qle 0); lia).
  assert (Hloc : new_location m2 r
                 = if (r =? 0)%Z then loc_Exact else loc_Inexact (2 * r ?= m2)%Z).
  { unfold new_location, new_location_even, new_location_odd.
    destruct (Z.even m2) eqn:Hev; [reflexivity|].
    destruct (r =? 0)%Z; [reflexivity|]. f_equal.
    assert (Hodd : Z.odd m2 = true) by (rewrite <- Z.negb_even, Hev; reflexivity).
    apply Z.odd_spec in Hodd as [k Hk].
    destruct (Z.compare_spec (2 * r + 1) m2), (Z.compare_spec (2 * r) m2);
      try reflexivity; lia. }
  rewrite Hloc. clear Hloc. unfold inbetween.
  destruct (Z.eqb_spec r 0) as [->|Hne].
  - cbn [shr_record_of_loc shr_m shr_r shr_s]. cbv zeta.
    change (inject_Z 0) with 0 in Hx.
    assert ((x - inject_Z q * pow2 e) * inject_Z m2 == 0) by lra.
    apply Qmult_integral in H as [H|H]; lra.
  - assert (Hscale : forall a b : Q, a * inject_Z m2 < b * inject_Z m2 -> a < b).
    { intros a b H. nra. }
    assert (Hscale' : forall a b : Q, a * inject_Z m2 == b * inject_Z m2 -> a == b).
    { intros a b H. assert ((a - b) * inject_Z m2 == 0) by lra.
      apply Qmult_integral in H0 as [H0|H0]; lra. }
    assert (Hr1 : 0 < inject_Z r) by (rewrite <- (Zlt_Qlt 0); lia).
    assert (Hrm : inject_Z r < inject_Z m2) by (rewrite <- Zlt_Qlt; lia).
    destruct (Z.compare_spec (2 * r) m2) as [Heq|Hlt|Hgt];
      cbn [shr_record_of_loc shr_m shr_r shr_s]; cbv zeta.
    + assert (Heq' : 2 * inject_Z r == inject_Z m2).
      { rewrite <- Heq, inject_Z_mult. reflexivity. }
      apply Hscale'. nra.
    + assert (Hlt' : 2 * inject_Z r < inject_Z m2).
      { change 2 with (inject_Z 2). rewrite <- inject_Z_mult, <- Zlt_Qlt. exact Hlt. }
      split; apply Hscale; nra.
    + assert (Hgt' : inject_Z m2 < 2 * inject_Z r).
      { change 2 with (inject_Z 2). rewrite <- inject_Z_mult, <- Zlt_Qlt. lia. }
      split; apply Hscale; nra.
Qed.

Lemma exact_ok (r : spec_float) (q : Q) : SFfin r = true -> SF2Q r == q -> op_ok r q.
Proof.
  intros Hf Hr _. split; [exact Hf|]. rewrite Hr.
  assert (Hz : q - q == 0) by ring. rewrite Hz.
  pose proof u64_pos. pose proof eta64_pos. pose proof (Qabs_nonneg q).
  change (Qabs 0) with 0. nra.
Qed.

Lemma SFdiv_core_binary_spec (mx my : positive) (ex ey : Z) (x : Q) :
  x * (inject_Z (Zpos my) * pow2 ey) == inject_Z (Zpos mx) * pow2 ex ->
  let '(q, e', l) := SFdiv_core_binary prec emax (Zpos mx) ex (Zpos my) ey in
  (0 <= q)%Z /\ inbetween (shr_record_of_loc q l) e' x
  /\ (e' <= fexp prec emax (Zdigits2 q + e'))%Z.
Proof.
  intros Hx. unfold SFdiv_core_binary. rewrite !fexp_eq.
  set (d1 := Zdigits2 (Zpos mx)). set (d2 := Zdigits2 (Zpos my)).
  set (e' := Z.min (Z.max (d1 + ex - (d2 + ey) - 53) (-1074)) (ex - ey)).
  set (s := (ex - ey - e')%Z).
  assert (Hs : (0 <= s)%Z) by (unfold s, e'; lia).
  set (m' := match s with
             | 0%Z => Zpos mx
             | Zpos _ => Z.shiftl (Zpos mx) s
             | Zneg _ => 0%Z
             end).
  assert (Hm' : m' = (Zpos mx * 2 ^ s)%Z).
  { unfold m'. destruct s as [|p|p] eqn:Hs'; [lia | | lia].
    apply Z.shiftl_mul_pow2. lia. }
  pose proof (Z_div_mod m' (Zpos my) ltac:(lia)) as Hdiv.
  change (IntDef.Z.div_eucl m' (Zpos my)) with (Z.div_eucl m' (Zpos my)).
  destruct (Z.div_eucl m' (Zpos my)) as [q r]. destruct Hdiv as [Heq Hr].
  assert (Hps : (0 < 2 ^ s)%Z) by (apply Z.pow_pos_nonneg; lia).
  assert (Hq : (0 <= q)%Z) by nia.
  split; [exact Hq | split].
  - apply new_location_inbetween; [lia | exact Hr | exact Hq |].
    pose proof (pow2_pos ey) as Hpey.
    assert (Hm : inject_Z q * inject_Z (Zpos my) + inject_Z r
                 == inject_Z (Zpos mx) * pow2 s).
    { rewrite (pow2_Z s Hs), <- !inject_Z_mult, <- inject_Z_plus.
      apply inject_Z_injective. lia. }
    rewrite Hm.
    assert (Hpe : pow2 ex == pow2 s * pow2 e' * pow2 ey).
    { rewrite <- !pow2_add. now replace (s + e' + ey)%Z with ex by (unfold s; lia). }
    rewrite Hpe in Hx.
    generalize (inject_Z (Zpos my)) (inject_Z (Zpos mx)) (pow2 s) (pow2 e') (pow2 ey) Hpey Hx.
    clear. intros B A ps pe pey Hpey Hx.
    assert (Hc : (x * B - A * ps * pe) * pey == 0).
    { transitivity (x * (B * pey) - A * (ps * pe * pey)); [ring|].
      rewrite Hx. ring. }
    clear Hx. apply Qmult_integral in Hc as [Hc|Hc]; [lra | exfalso; lra].
  - rewrite fexp_eq. destruct (Z_le_gt_dec e' (-1074)) as [Hle|Hgt]; [lia|].
    assert (He' : (e' <= d1 + ex - (d2 + ey) - 53)%Z) by (unfold e' in *; lia).
    destruct (digits2_pos_bounds mx) as [Hlo1 _].
    destruct (digits2_pos_bounds my) as [_ Hhi2].
    fold (Zdigits2 (Zpos mx)) in Hlo1. fold (Zdigits2 (Zpos my)) in Hhi2.
    fold d1 in Hlo1. fold d2 in Hhi2.
    assert (Hd1 : (1 <= d1)%Z) by (unfold d1; cbn; lia).
    assert (Hd2 : (1 <= d2)%Z) by (unfold d2; cbn; lia).
    set (k := (d1 - 1 + s - d2)%Z). assert (Hk : (52 <= k)%Z) by (unfold k, s; lia).
    assert (Hpow : (2 ^ (d1 - 1) * 2 ^ s = 2 ^ k * 2 ^ d2)%Z).
    { rewrite <- !Z.pow_add_r by lia. f_equal. unfold k. lia. }
    assert (Hpk : (0 < 2 ^ k)%Z) by (apply Z.pow_pos_nonneg; lia).
    assert (Hqk : (2 ^ k <= q)%Z) by nia.
    assert (H52 : (2 ^ 52 <= 2 ^ k)%Z) by (apply Z.pow_le_mono_r; lia).
    destruct (Zdigits2_bounds q ltac:(lia)) as [_ Hqd].
    assert (Hdq : (52 < Zdigits2 q)%Z).
    { apply (Z.pow_lt_mono_r_iff 2); [lia | apply Zdigits2_nonneg | lia]. }
    lia.
Qed.

(** **** Division by a number that is not zero *)

Lemma SFdiv_ok (x y : spec_float) (q : Q) :
  SFfin x = true -> SFfin y = true -> ~ SF2Q y == 0 ->
  q * SF2Q y == SF2Q x ->
  op_ok (SFdiv prec emax x y) q.
Proof.
  destruct x as [sx|sx| |sx mx ex], y as [sy|sy| |sy my ey]; try discriminate;
    intros _ _ Hy Hq; cbn [SFdiv].
  - destruct Hy. apply SF2Q_zero.
  - apply zero_ok; [reflexivity | apply SF2Q_zero |].
    rewrite SF2Q_zero in Hq. apply Qmult_integral in Hq as [Hq|Hq]; [exact Hq | contradiction].
  - destruct Hy. apply SF2Q_zero.
  - rewrite !SF2Q_finite in Hq.
    pose proof (mag_pos mx ex) as Hpx. pose proof (mag_pos my ey) as Hpy.
    set (X := inject_Z (Zpos mx) * pow2 ex) in *.
    set (Y := inject_Z (Zpos my) * pow2 ey) in *.
    (* the magnitude of the quotient *)
    assert (Hmag : signed (xorb sx sy) q * Y == X).
    { destruct sx, sy; cbn [signed xorb] in *; lra. }
    assert (Hq0 : 0 <= signed (xorb sx sy) q).
    { destruct (Qlt_le_dec (signed (xorb sx sy) q) 0) as [Hneg|]; [|assumption]. nra. }
    pose proof (SFdiv_core_binary_spec mx my ex ey (signed (xorb sx sy) q) Hmag) as Hcore.
    destruct (SFdiv_core_binary prec emax (Zpos mx) ex (Zpos my) ey) as [[mz ez] lz].
    destruct Hcore as (Hmz & Hin & Hez).
    apply (op_ok_eq _ (signed (xorb sx sy) (signed (xorb sx sy) q))).
    { destruct (xorb sx sy); cbn [signed]; ring. }
    apply rounded_ok; [exact Hq0|].
    apply binary_round_aux_rounded; [exact Hmz | exact Hin | now left].
Qed.

(** **** Addition and subtraction *)

Lemma cond_Zopp_value (s : bool) (m : positive) (e : Z) :
  inject_Z (cond_Zopp s (Zpos m)) * pow2 e == signed s (inject_Z (Zpos m) * pow2 e).
Proof. destruct s; cbn [cond_Zopp signed]; [|reflexivity]. rewrite inject_Z_opp. ring. Qed.

Lemma aligned_value (s : bool) (m : positive) (e ez : Z) :
  (ez <= e)%Z ->
  inject_Z (cond_Zopp s (Zpos (fst (shl_align m e ez)))) * pow2 ez
  == signed s (inject_Z (Zpos m) * pow2 e).
Proof.
  intros Hle. pose proof (shl_align_value m e ez) as H.
  destruct (shl_align m e ez) as [m' e']. destruct H as [He Hv]. cbn [fst].
  rewrite cond_Zopp_value. replace e' with ez in Hv by lia.
  destruct s; cbn [signed]; rewrite Hv; reflexivity.
Qed.

Lemma binary_normalize_ok (m e : Z) (q : Q) :
  q == inject_Z m * pow2 e ->
  op_ok (binary_normalize prec emax m e false) q.
Proof.
  intros Hq. destruct (binary_normalize_rounded m e false) as [Hz Hnz].
  destruct (Z.eq_dec m 0%Z) as [->|Hne].
  - rewrite (Hz eq_refl). apply zero_ok; [reflexivity | reflexivity|]. rewrite Hq.
    change (inject_Z 0) with 0. ring.
  - destruct (Hnz Hne) as [Hr _].
    apply (op_ok_eq _ (signed (m <? 0)%Z (inject_Z (Z.abs m) * pow2 e))).
    + rewrite Hq. destruct (Z.ltb_spec m 0) as [Hneg|Hpos]; cbn [signed].
      * rewrite Z.abs_neq by lia. rewrite inject_Z_opp. ring.
      * rewrite Z.abs_eq by lia. reflexivity.
    + apply rounded_ok; [|exact Hr].
      pose proof (pow2_pos e). assert (0 <= inject_Z (Z.abs m)) by (rewrite <- (Zle_Qle 0); lia).
      nra.
Qed.

Lemma SFadd_ok (x y : spec_float) :
  SFfin x = true -> SFfin y = true ->
  op_ok (SFadd prec emax x y) (SF2Q x + SF2Q y).
Proof.
  destruct x as [sx|sx| |sx mx ex], y as [sy|sy| |sy my ey]; try discriminate; intros _ _;
    cbn [SFadd].
  - apply zero_ok; [destruct sx, sy; reflexivity | destruct sx, sy; reflexivity |].
    rewrite !SF2Q_zero. ring.
  - apply exact_ok; [reflexivity|]. rewrite SF2Q_zero. ring.
  - apply exact_ok; [reflexivity|]. rewrite SF2Q_zero. ring.
  - apply binary_normalize_ok. rewrite inject_Z_plus, Qmult_plus_distr_l.
    rewrite !aligned_value by lia. reflexivity.
Qed.

Lemma SFsub_ok (x y : spec_float) :
  SFfin x = true -> SFfin y = true ->
  op_ok (SFsub prec emax x y) (SF2Q x - SF2Q y).
Proof.
  destruct x as [sx|sx| |sx mx ex], y as [sy|sy| |sy my ey]; try discriminate; intros _ _;
    cbn [SFsub].
  - apply zero_ok; [destruct sx, sy; reflexivity | destruct sx, sy; reflexivity |].
    rewrite !SF2Q_zero. ring.
  - apply exact_ok; [reflexivity|]. rewrite SF2Q_zero, !SF2Q_finite.
    destruct sy; cbn [signed negb]; ring.
  - apply exact_ok; [reflexivity|]. rewrite SF2Q_zero. ring.
  - apply binary_normalize_ok. unfold Z.sub at 1. rewrite inject_Z_plus, inject_Z_opp.
    assert (Hd : forall a b c : Q, (a + - b) * c == a * c - b * c) by (intros; ring).
    rewrite Hd, !aligned_value by lia. reflexivity.
Qed.

(** *** Values of [float64] numbers *)

Lemma mul_ok (x y : float) :
  Ffin x = true -> Ffin y = true -> op_ok (Prim2SF (x * y)) (F2Q x * F2Q y).
Proof. intros Hx Hy. rewrite FloatAxioms.mul_spec. now apply SFmul_ok. Qed.

Lemma add_ok (x y : float) :
  Ffin x = true -> Ffin y = true -> op_ok (Prim2SF (x + y)) (F2Q x + F2Q y).
Proof. intros Hx Hy. rewrite FloatAxioms.add_spec. now apply SFadd_ok. Qed.

Lemma sub_ok (x y : float) :
  Ffin x = true -> Ffin y = true -> op_ok (Prim2SF (x - y)) (F2Q x - F2Q y).
Proof. intros Hx Hy. rewrite FloatAxioms.sub_spec. now apply SFsub_ok. Qed.

Lemma div_ok (x y : float) (q : Q) :
  Ffin x = true -> Ffin y = true -> ~ F2Q y == 0 -> q * F2Q y == F2Q x ->
  op_ok (Prim2SF (x / y)) q.
Proof. intros Hx Hy Hy0 Hq. rewrite FloatAxioms.div_spec. now apply SFdiv_ok. Qed.

(** *** What the tests on a [float64] say of its representation *)

Lemma finite_tests (x : float) (s : bool) (m : positive) (e : Z) :
  Prim2SF x = S754_finite s m e ->
  PrimFloat.is_nan x = false /\ PrimFloat.is_zero x = false
  /\ PrimFloat.is_infinity x = false /\ (x <? 0)%float = s.
Proof.
  intros Hx. unfold PrimFloat.is_nan, PrimFloat.is_zero, PrimFloat.is_infinity.
  rewrite !FloatAxioms.eqb_spec, FloatAxioms.ltb_spec, FloatAxioms.abs_spec, Hx.
  change (Prim2SF PrimFloat.zero) with (S754_zero false).
  change (Prim2SF 0) with (S754_zero false).
  change (Prim2SF infinity) with (S754_infinity false).
  rewrite SFeqb_refl_finite. cbn [SFabs negb]. unfold SFeqb, SFltb. cbn [SFcompare].
  repeat split; destruct s; reflexivity.
Qed.

Lemma zero_tests (x : float) (s : bool) :
  Prim2SF x = S754_zero s -> PrimFloat.is_nan x = false /\ PrimFloat.is_zero x = true.
Proof.
  intros Hx. unfold PrimFloat.is_nan, PrimFloat.is_zero.
  rewrite !FloatAxioms.eqb_spec, Hx.
  change (Prim2SF PrimFloat.zero) with (S754_zero false). now destruct s.
Qed.

(** A valid mantissa has at most 53 bits, and exactly 53 above the
    smallest exponent. *)
Lemma valid_finite (x : float) (s : bool) (m : positive) (e : Z) :
  Prim2SF x = S754_finite s m e ->
  (Zpos (digits2_pos m) <= 53)%Z /\ (-1074 <= e <= 971)%Z
  /\ ((-1074 < e)%Z -> Zpos (digits2_pos m) = 53%Z).
Proof.
  intros Hx. pose proof (Prim2SF_valid x) as Hv. rewrite Hx in Hv.
  cbn [valid_binary] in Hv. unfold bounded, canonical_mantissa in Hv.
  apply andb_prop in Hv as [Hc Hb]. apply Z.eqb_eq in Hc. apply Z.leb_le in Hb.
  rewrite fexp_eq in Hc. change (emax - prec)%Z with 971%Z in Hb. lia.
Qed.

(** *** [of_uint63] on integers below [2^53] *)

Lemma of_uint63_exact (n : int) :
  (to_Z n < 2 ^ 53)%Z ->
  Ffin (of_uint63 n) = true /\ F2Q (of_uint63 n) == inject_Z (to_Z n)
  /\ SFsign (Prim2SF (of_uint63 n)) = false.
Proof.
  intros Hn. unfold Ffin, F2Q. rewrite FloatAxioms.of_uint63_spec.
  pose proof (to_Z_bounded n) as [H0 _].
  destruct (binary_normalize_rounded (to_Z n) 0 false) as [Hz Hnz].
  destruct (Z.eq_dec (to_Z n) 0%Z) as [Heq|Hne].
  - rewrite (Hz Heq), Heq. repeat split; reflexivity.
  - destruct (Hnz Hne) as [_ Hex].
    assert (Hfexp : (fexp prec emax (Zdigits2 (to_Z n) + 0) <= 0)%Z).
    { rewrite fexp_eq.
      assert (Zdigits2 (to_Z n) <= 53)%Z by (apply Zdigits2_le; lia). lia. }
    destruct (Hex Hfexp) as (Hn' & Hs & Hinf & Hfin).
    rewrite Z.abs_eq in Hinf, Hfin by lia.
    assert (Hval : inject_Z (to_Z n) * pow2 0 == inject_Z (to_Z n)).
    { change (pow2 0) with 1. ring. }
    replace (to_Z n <? 0)%Z with false in Hs by (symmetry; apply Z.ltb_ge; lia).
    destruct (SFfin _) eqn:Hf.
    + split; [reflexivity | split; [|exact Hs]].
      unfold SF2Q. rewrite Hs. cbn [signed]. rewrite (Hfin eq_refl). exact Hval.
    + exfalso. specialize (Hinf eq_refl). rewrite Hval in Hinf.
      assert (Hb : inject_Z (to_Z n) <= pow2 53).
      { rewrite (pow2_Z 53) by lia. rewrite <- Zle_Qle. lia. }
      pose proof (pow2_lt 53 970 ltac:(lia)). lra.
Qed.

(** *** [math.Round] is the nearest integer, halves away from zero *)

Lemma SF2Q_opp (y : spec_float) : SF2Q (SFopp y) == - SF2Q y.
Proof. destruct y as [[]|[]| |[] m e]; unfold SF2Q; cbn; ring. Qed.

Lemma F2Q_opp (a : float) : F2Q (- a) == - F2Q a.
Proof. unfold F2Q. rewrite FloatAxioms.opp_spec. apply SF2Q_opp. Qed.

Lemma Ffin_opp (a : float) : Ffin (- a) = Ffin a.
Proof. unfold Ffin. rewrite FloatAxioms.opp_spec. now destruct (Prim2SF a). Qed.

(** The fraction and the exponent that [frshiftexp] returns. *)
Lemma frshiftexp_finite (x : float) (s : bool) (m : positive) (e : Z) :
  Prim2SF x = S754_finite s m e ->
  exists m' : positive,
    to_Z (normfr_mantissa (fst (frshiftexp x))) = Zpos m'
    /\ (2 ^ 52 <= Zpos m' < 2 ^ 53)%Z
    /\ inject_Z (Zpos m) * pow2 e
       == inject_Z (Zpos m') * pow2 (to_Z (snd (frshiftexp x)) - 2154).
Proof.
  intros Hx. destruct (valid_finite x s m e Hx) as (Hd & He & Hn).
  pose proof (frshiftexp_spec x) as Hspec. rewrite Hx in Hspec.
  destruct (frshiftexp x) as [r se]. cbn [fst snd].
  pose proof (normfr_mantissa_spec r) as Hmant.
  unfold SFfrexp in Hspec. change shift with 2101%Z in Hspec.
  destruct (digits2_pos_bounds m) as [Hlo Hhi].
  destruct (Z.leb_spec prec (Zpos (digits2_pos m))) as [Hle|Hlt];
    change prec with 53%Z in *; injection Hspec as Hr Hse; rewrite Hr in Hmant;
    cbn [SFnormfr_mantissa] in Hmant; change (- (53) =? - (53))%Z with true in Hmant;
    cbv iota in Hmant; change (IntDef.Z.of_N (Npos ?p)) with (Zpos p) in Hmant.
  - exists m. split; [exact Hmant | split].
    + assert (Hd53 : Zpos (digits2_pos m) = 53%Z) by (clear - Hd Hle; lia).
      rewrite Hd53 in Hlo, Hhi. exact (conj Hlo Hhi).
    + change FloatOps.shift with 2101%Z in Hse.
      now replace (to_Z se - 2154)%Z with e by (clear - Hse; lia).
  - set (d := (53 - Zpos (digits2_pos m))%Z) in *.
    assert (Hd0 : (0 < d)%Z) by (unfold d; lia).
    exists (Pos.iter xO m (Z.to_pos d)). rewrite iter_xO, Z2Pos.id by lia.
    split; [rewrite Hmant, iter_xO, Z2Pos.id by lia; reflexivity | split].
    + assert (Hp : (2 ^ 53 = 2 ^ Zpos (digits2_pos m) * 2 ^ d)%Z).
      { rewrite <- Z.pow_add_r by lia. f_equal. unfold d. lia. }
      assert (Hp' : (2 ^ 52 = 2 ^ (Zpos (digits2_pos m) - 1) * 2 ^ d)%Z).
      { rewrite <- Z.pow_add_r by lia. f_equal. unfold d. lia. }
      assert (0 < 2 ^ d)%Z by (apply Z.pow_pos_nonneg; lia).
      rewrite Hp, Hp'. nia.
    + rewrite inject_Z_mult, <- (pow2_Z d) by lia.
      change FloatOps.shift with 2101%Z in Hse.
      assert (Hpe : pow2 e == pow2 d * pow2 (to_Z se - 2154)).
      { rewrite <- pow2_add. now replace (d + (to_Z se - 2154))%Z with e by (clear - Hse; lia). }
      rewrite Hpe. ring.
Qed.

Lemma nearest_away_self (N : Z) : nearest_away N (inject_Z N).
Proof.
  unfold nearest_away.
  assert (Ha : Qabs (inject_Z N) == inject_Z (Z.abs N)).
  { unfold Qabs, inject_Z. cbn. reflexivity. }
  rewrite Ha. repeat split; try lra.
  rewrite <- inject_Z_mult, <- (Zle_Qle 0). nia.
Qed.

(** The integer part of [m / 2^k + 1/2], as the shifts compute it. *)
Lemma half_up_floor (m k : Z) :
  (0 <= m)%Z -> (1 <= k)%Z ->
  let n := ((m + 2 ^ (k - 1)) / 2 ^ k)%Z in
  inject_Z n <= inject_Z m * pow2 (- k) + (1 # 2)
  /\ inject_Z m * pow2 (- k) + (1 # 2) < inject_Z n + 1.
Proof.
  intros Hm Hk n.
  assert (Hpow : (2 ^ k = 2 * 2 ^ (k - 1))%Z).
  { replace k with (Z.succ (k - 1)) at 1 by lia. apply Z.pow_succ_r. lia. }
  assert (Hpos : (0 < 2 ^ (k - 1))%Z) by (apply Z.pow_pos_nonneg; lia).
  pose proof (Z.div_mod (m + 2 ^ (k - 1)) (2 ^ k) ltac:(lia)) as Hdiv. fold n in Hdiv.
  pose proof (Z.mod_pos_bound (m + 2 ^ (k - 1)) (2 ^ k) ltac:(lia)) as Hmod.
  assert (H1 : (n * 2 ^ k <= m + 2 ^ (k - 1))%Z) by lia.
  assert (H2 : (m + 2 ^ (k - 1) < (n + 1) * 2 ^ k)%Z) by lia.
  pose proof (pow2_pos (- k)) as Hp. pose proof (pow2_pos k) as Hpk.
  assert (Hinv : pow2 k * pow2 (- k) == 1).
  { rewrite <- pow2_add. now replace (k + - k)%Z with 0%Z by lia. }
  assert (Hhalf : pow2 (k - 1) * pow2 (- k) == 1 # 2).
  { rewrite <- pow2_add. now replace (k - 1 + - k)%Z with (-1)%Z by lia. }
  clearbody n.
  rewrite Zle_Qle in H1. rewrite Zlt_Qlt in H2.
  rewrite !inject_Z_mult, !inject_Z_plus, <- !pow2_Z in H1, H2 by lia.
  rewrite ?(inject_Z_plus n 1) in H2. change (inject_Z 1) with 1 in H2.
  set (a := inject_Z n) in *. set (b := inject_Z m) in *.
  set (p := pow2 (- k)) in *. set (P := pow2 k) in *. set (P1 := pow2 (k - 1)) in *.
  clearbody a b p P P1. clear - H1 H2 Hp Hpk Hinv Hhalf.
  assert (Ha : forall c : Q, c * P * p == c).
  { intros c. transitivity (c * (P * p)); [ring | rewrite Hinv; ring]. }
  assert (Hb : (b + P1) * p == b * p + (1 # 2)) by (rewrite <- Hhalf; ring).
  split.
  - rewrite <- Hb, <- (Ha a). apply Qmult_le_compat_r; [exact H1 | apply Qlt_le_weak, Hp].
  - rewrite <- Hb, <- (Ha (a + 1)). apply Qmult_lt_compat_r; [exact Hp | exact H2].
Qed.

(** The integer that the shifts of [math.Round] compute. *)
Lemma Round_bits (mant se : int) (m' : positive) :
  to_Z mant = Zpos m' -> (2 ^ 52 <= Zpos m' < 2 ^ 53)%Z ->
  (to_Z se < 2154)%Z ->
  let k := (2154 - se)%uint63 in
  let n := if (k <=? 54)%uint63
           then ((mant + (1 << (k - 1))) >> k)%uint63
           else 0%uint63 in
  let X := inject_Z (Zpos m') * pow2 (to_Z se - 2154) in
  (to_Z n < 2 ^ 53)%Z
  /\ inject_Z (to_Z n) <= X + (1 # 2) /\ X + (1 # 2) < inject_Z (to_Z n) + 1.
Proof.
  intros Hmant Hm Hse k n X.
  pose proof (to_Z_bounded se) as Hb.
  assert (HK : to_Z k = (2154 - to_Z se)%Z).
  { unfold k. rewrite Uint63.sub_spec. change (to_Z 2154) with 2154%Z.
    apply Z.mod_small. change wB with (2 ^ 63)%Z. lia. }
  set (K := (2154 - to_Z se)%Z) in *. assert (HK1 : (1 <= K)%Z) by (unfold K; lia).
  assert (HX : X = inject_Z (Zpos m') * pow2 (- K)).
  { unfold X. f_equal. f_equal. unfold K. lia. }
  rewrite HX. clear HX. clearbody X.
  destruct (Uint63.lebP k 54) as [Hle|Hgt]; change (to_Z 54) with 54%Z in *; rewrite HK in *.
  - assert (Hk1 : to_Z (k - 1) = (K - 1)%Z).
    { rewrite Uint63.sub_spec, HK. change (to_Z 1) with 1%Z.
      apply Z.mod_small. change wB with (2 ^ 63)%Z. lia. }
    assert (Hp1 : (0 < 2 ^ (K - 1) <= 2 ^ 53)%Z).
    { split; [apply Z.pow_pos_nonneg; lia | apply Z.pow_le_mono_r; lia]. }
    assert (Hone : to_Z (1 << (k - 1)) = (2 ^ (K - 1))%Z).
    { rewrite Uint63.lsl_spec, Hk1. change (to_Z 1) with 1%Z. rewrite Z.mul_1_l.
      apply Z.mod_small. change wB with (2 ^ 63)%Z.
      change (2 ^ 63)%Z with (1024 * 2 ^ 53)%Z. lia. }
    assert (Hsum : to_Z (mant + (1 << (k - 1))) = (Zpos m' + 2 ^ (K - 1))%Z).
    { rewrite Uint63.add_spec, Hone, Hmant. apply Z.mod_small. change wB with (2 ^ 63)%Z.
      change (2 ^ 63)%Z with (1024 * 2 ^ 53)%Z. lia. }
    assert (Hn : to_Z n = ((Zpos m' + 2 ^ (K - 1)) / 2 ^ K)%Z).
    { unfold n. now rewrite Uint63.lsr_spec, Hsum, HK. }
    rewrite Hn. destruct (half_up_floor (Zpos m') K ltac:(lia) HK1) as [H1 H2].
    split; [|split; [exact H1 | exact H2]].
    assert (Hpow : (2 ^ K = 2 * 2 ^ (K - 1))%Z).
    { replace K with (Z.succ (K - 1)) at 1 by lia. apply Z.pow_succ_r. lia. }
    apply Z.div_lt_upper_bound; [lia|].
    change (2 ^ 53)%Z with (2 * 2 ^ 52)%Z in *. nia.
  - subst n. cbv zeta. change (to_Z 0) with 0%Z. change (inject_Z 0) with 0.
    split; [reflexivity|].
    assert (Hx : 0 < inject_Z (Zpos m') * pow2 (- K)
                 /\ inject_Z (Zpos m') * pow2 (- K) < 1 # 4).
    { set (X' := inject_Z (Zpos m') * pow2 (- K)). unfold X'.
      pose proof (pow2_pos (- K)) as Hp.
      assert (Hm1 : 0 < inject_Z (Zpos m')) by (rewrite <- (Zlt_Qlt 0); reflexivity).
      assert (Hm2 : inject_Z (Zpos m') < pow2 53)
        by (apply (proj1 (inject_Z_lt_pow2 (Zpos m') 53 ltac:(discriminate))), Hm).
      assert (Hp2 : pow2 (- K) * pow2 53 <= 1 # 4).
      { rewrite <- pow2_add. change (1 # 4) with (pow2 (-2)). apply pow2_le.
        clear - Hgt. lia. }
      split; [apply mag_pos|].
      assert (Hlt : inject_Z (Zpos m') * pow2 (- K) < pow2 53 * pow2 (- K))
        by (apply Qmult_lt_compat_r; assumption).
      eapply Qlt_le_trans; [exact Hlt|]. rewrite Qmult_comm. exact Hp2. }
    lra.
Qed.

(** [math.Round] returns the integer nearest to its argument, the one
    away from zero when two are as near. *)
Lemma Round_nearest (x : float) :
  Ffin x = true ->
  Ffin (math.Round x) = true
  /\ exists N : Z, F2Q (math.Round x) == inject_Z N /\ nearest_away N (F2Q x).
Proof.
  unfold Ffin, F2Q. destruct (Prim2SF x) as [s|s| |s m e] eqn:Hx; try discriminate; intros _.
  - (* a zero *)
    destruct (zero_tests x s Hx) as [Hnan Hzero]. unfold math.Round.
    rewrite Hnan, Hzero. cbn [orb]. rewrite Hx. split; [reflexivity|].
    exists 0%Z. split; [apply SF2Q_zero|].
    destruct (nearest_away_self 0) as (H1 & H2 & H3).
    unfold nearest_away. rewrite (SF2Q_zero s). auto.
  - destruct (finite_tests x s m e Hx) as (Hnan & Hzero & Hinf & Hneg).
    destruct (frshiftexp_finite x s m e Hx) as (m' & Hmant & Hm' & Hval).
    unfold math.Round. rewrite Hnan, Hzero, Hinf, Hneg. cbn [orb].
    destruct (frshiftexp x) as [r se]. cbn [fst snd] in Hmant, Hval.
    destruct (Uint63.lebP 2154 se) as [Hbig|Hsmall]; change (to_Z 2154) with 2154%Z in *.
    + (* an integer already *)
      rewrite Hx. split; [reflexivity|].
      set (E := (to_Z se - 2154)%Z) in *.
      exists (if s then - (Zpos m' * 2 ^ E) else Zpos m' * 2 ^ E)%Z.
      assert (Hq : SF2Q (S754_finite s m e)
                   == inject_Z (if s then - (Zpos m' * 2 ^ E) else Zpos m' * 2 ^ E)%Z).
      { rewrite SF2Q_finite. destruct s; cbn [signed];
          rewrite ?inject_Z_opp, inject_Z_mult, <- (pow2_Z E) by (unfold E; lia);
          rewrite Hval; reflexivity. }
      split; [exact Hq|]. 
      destruct (nearest_away_self (if s then - (Zpos m' * 2 ^ E) else Zpos m' * 2 ^ E)%Z)
        as (H1 & H2 & H3).
      unfold nearest_away. rewrite Hq. auto.
    + pose proof (Round_bits (normfr_mantissa r) se m' Hmant Hm' ltac:(lia)) as Hbits.
      cbv zeta in Hbits |- *.
      set (n := if (2154 - se <=? 54)%uint63 then _ else _) in *.
      destruct Hbits as (Hn53 & Hlo & Hhi).
      destruct (of_uint63_exact n Hn53) as (Hfin & Hvaln & Hsign).
      unfold Ffin, F2Q in Hfin, Hvaln.
      pose proof (to_Z_bounded n) as [Hn0 _].
      assert (HX : Qabs (SF2Q (S754_finite s m e))
                   == inject_Z (Zpos m') * pow2 (to_Z se - 2154)).
      { rewrite SF2Q_finite, Qabs_signed, Hval. apply Qabs_pos.
        apply Qlt_le_weak, mag_pos. }
      assert (HX0 : 0 < inject_Z (Zpos m') * pow2 (to_Z se - 2154)) by apply mag_pos.
      assert (Hn0' : 0 <= inject_Z (to_Z n)) by (rewrite <- (Zle_Qle 0); exact Hn0).
      destruct s.
      * rewrite FloatAxioms.opp_spec. split; [now destruct (Prim2SF (of_uint63 n))|].
        exists (- to_Z n)%Z. rewrite SF2Q_opp, Hvaln, inject_Z_opp. split; [reflexivity|].
        unfold nearest_away. rewrite HX, Z.abs_opp, Z.abs_eq by lia.
        split; [exact Hlo | split; [exact Hhi|]].
        rewrite SF2Q_finite. cbn [signed]. rewrite inject_Z_opp.
        assert (0 <= inject_Z (to_Z n) * (inject_Z (Zpos m) * pow2 e))
          by (apply Qmult_le_0_compat; [exact Hn0' | apply Qlt_le_weak, mag_pos]).
        lra.
      * split; [exact Hfin|]. exists (to_Z n). split; [exact Hvaln|].
        unfold nearest_away. rewrite HX, Z.abs_eq by lia.
        split; [exact Hlo | split; [exact Hhi|]].
        rewrite SF2Q_finite. cbn [signed].
        apply Qmult_le_0_compat; [exact Hn0' | apply Qlt_le_weak, mag_pos].
Qed.

(** *** Numbers *)

Lemma u64_value : u64 == 1 # 9007199254740992.
Proof. reflexivity. Qed.

Lemma eta64_small : eta64 <= (1 # 1000000000000000000000000000000).
Proof. unfold eta64, pow2. now vm_compute. Qed.

Lemma Bmax_pow2 : Bmax < pow2 970.
Proof. unfold pow2. now vm_compute. Qed.

Lemma Bmax_big : 1 <= Bmax.
Proof. now vm_compute. Qed.

(** [op_ok] with its numbers: the result of an operation whose exact
    value is at most [10^280] in magnitude. *)
Lemma op_ok_use (r : spec_float) (q : Q) :
  op_ok r q -> Qabs q <= Bmax ->
  SFfin r = true
  /\ Qabs (SF2Q r - q) <= (1 # 9007199254740992) * Qabs q + (1 # 1000000000000000000000000000000).
Proof.
  intros Hop Hq. destruct Hop as [Hf Herr].
  { eapply Qle_lt_trans; [exact Hq | exact Bmax_pow2]. }
  split; [exact Hf|]. rewrite <- u64_value. eapply Qle_trans; [exact Herr|].
  pose proof eta64_small. lra.
Qed.

(** Absolute values, for linear arithmetic. *)
Lemma Qabs_le_iff (x y : Q) : Qabs x <= y <-> - y <= x /\ x <= y.
Proof. apply Qabs_Qle_condition. Qed.

Lemma Qabs_bounds (x : Q) : 0 <= Qabs x /\ - Qabs x <= x /\ x <= Qabs x.
Proof.
  split; [apply Qabs_nonneg|]. apply Qabs_Qle_condition. apply Qle_refl.
Qed.

Lemma nearest_away_close (N : Z) (q : Q) :
  nearest_away N q -> Qabs (inject_Z N - q) <= 1 # 2.
Proof.
  intros (H1 & H2 & H3).
  assert (HN : Qabs (inject_Z N) == inject_Z (Z.abs N))
    by (unfold Qabs, inject_Z; cbn; reflexivity).
  rewrite <- HN in H1, H2.
  apply Qabs_Qle_condition.
  revert H1 H2 H3. generalize (inject_Z N). intros n.
  apply (Qabs_case n); apply (Qabs_case q); intros Hq Hn H1 H2 H3.
  - lra.
  - destruct (Qlt_le_dec 0 n) as [Hn'|Hn']; [|lra].
    destruct (Qlt_le_dec q 0) as [Hq'|Hq']; [|lra].
    exfalso. assert (0 < n * - q) by (apply Qmult_lt_0_compat; lra). lra.
  - destruct (Qlt_le_dec n 0) as [Hn'|Hn']; [|lra].
    destruct (Qlt_le_dec 0 q) as [Hq'|Hq']; [|lra].
    exfalso. assert (0 < - n * q) by (apply Qmult_lt_0_compat; lra). lra.
  - lra.
Qed.

(** *** The constant [10^12] *)

Lemma Pow10_12 :
  Ffin (math.Pow10 precision) = true /\ F2Q (math.Pow10 precision) == 10 ^ 12.
Proof. split; [now vm_compute|]. unfold F2Q. now vm_compute. Qed.

(** *** The rounding of [Convert] *)

(** [round_result y] is a multiple of [10^-12] (as nearly as [float64]
    has one) next to [y]: at most [5.01 * 10^-13] away, up to three
    relative rounding errors. *)
Lemma round_result_error (y : float) :
  Ffin y = true -> Qabs (F2Q y) * 10000000000000 <= Bmax ->
  Ffin (round_result y) = true
  /\ Qabs (F2Q (round_result y) - F2Q y)
     <= (501 # 1000000000000000) + (3 # 10000000000000000) * Qabs (F2Q y).
Proof.
  intros Hy Hb. unfold round_result. cbv zeta.
  destruct Pow10_12 as [HF HFv]. set (F := math.Pow10 precision) in *. clearbody F.
  (* the product *)
  pose proof (mul_ok y F Hy HF) as Hmul.
  apply op_ok_use in Hmul.
  2:{ rewrite HFv, Qabs_Qmult. change (Qabs (10 ^ 12)) with 1000000000000.
      pose proof (Qabs_nonneg (F2Q y)). revert Hb H. generalize (Qabs (F2Q y)). intros. lra. }
  destruct Hmul as [Hpf Hperr]. fold (Ffin (y * F)) in Hpf. fold (F2Q (y * F)) in Hperr.
  (* the nearest integer *)
  destruct (Round_nearest (y * F) Hpf) as (HRf & N & HRv & HN).
  apply nearest_away_close in HN.
  (* the quotient *)
  set (R := math.Round (y * F)) in *. clearbody R.
  assert (HF0 : ~ F2Q F == 0) by (rewrite HFv; now vm_compute).
  pose proof (div_ok R F (inject_Z N * (1 # 1000000000000)) HRf HF HF0) as Hdiv.
  assert (HqN : inject_Z N * (1 # 1000000000000) * F2Q F == F2Q R).
  { rewrite HFv, HRv. transitivity (inject_Z N * ((1 # 1000000000000) * 10 ^ 12)); [ring|].
    assert (Hone : (1 # 1000000000000) * 10 ^ 12 == 1) by reflexivity. rewrite Hone. ring. }
  specialize (Hdiv HqN).
  rewrite HFv, Qabs_Qmult in Hperr. change (Qabs (10 ^ 12)) with 1000000000000 in Hperr.
  assert (Hcst : 10 ^ 12 == 1000000000000) by reflexivity. rewrite Hcst in Hperr. clear Hcst.
  revert Hperr HN Hb Hdiv. generalize (F2Q (y * F)) (inject_Z N) (F2Q y).
  intros P n Y Hperr HN Hb Hdiv.
  apply Qabs_le_iff in Hperr. apply Qabs_le_iff in HN.
  destruct (Qabs_bounds Y) as (HY0 & HY1 & HY2).
  revert Hperr Hb HY0 HY1 HY2. generalize (Qabs Y). intros aY Hperr Hb HY0 HY1 HY2.
  assert (Hn : Qabs (n * (1 # 1000000000000)) <= Bmax).
  { pose proof Bmax_big. apply Qabs_le_iff. lra. }
  apply op_ok_use in Hdiv; [|exact Hn].
  destruct Hdiv as [Hrf Hrerr]. split; [exact Hrf|].
  fold (F2Q (R / F)) in Hrerr. revert Hrerr. generalize (F2Q (R / F)). intros r Hrerr.
  apply Qabs_le_iff in Hrerr.
  assert (Hn' : Qabs (n * (1 # 1000000000000)) <= (11 # 10) * aY + (1 # 1000000000000)).
  { apply Qabs_le_iff. lra. }
  revert Hrerr Hn Hn'. generalize (Qabs (n * (1 # 1000000000000))). intros aN Hrerr Hn Hn'.
  apply Qabs_le_iff. lra.
Qed.

(** *** The arithmetic of [Convert], before the rounding *)

Lemma Wmax_facts :
  1 <= Wmax
  /\ Wmax * 10000000000000000000000000000000000000000000000 <= Bmax.
Proof. split; now vm_compute. Qed.

Lemma scale_bounds (x e k : Q) :
  0 <= k -> - e <= x <= e -> - (e * k) <= x * k <= e * k.
Proof.
  intros Hk [H1 H2]. split.
  - assert (H : (- e) * k <= x * k) by (apply Qmult_le_compat_r; assumption).
    assert (Heq : - (e * k) == (- e) * k) by ring. rewrite Heq. exact H.
  - apply Qmult_le_compat_r; assumption.
Qed.

Lemma mult_le_l (a b c : Q) : 0 <= a -> b <= c -> a * b <= a * c.
Proof.
  intros Ha Hbc. rewrite (Qmult_comm a b), (Qmult_comm a c).
  apply Qmult_le_compat_r; assumption.
Qed.

Lemma mult_le (a b A B : Q) : 0 <= a -> 0 <= b -> a <= A -> b <= B -> a * b <= A * B.
Proof.
  intros Ha Hb HA HB. apply Qle_trans with (A * b).
  - apply Qmult_le_compat_r; assumption.
  - apply mult_le_l; [lra | assumption].
Qed.

Lemma Qabs_mult_le (a b A B : Q) :
  Qabs a <= A -> Qabs b <= B -> Qabs (a * b) <= A * B.
Proof.
  intros Ha Hb. rewrite Qabs_Qmult.
  apply mult_le; auto using Qabs_nonneg.
Qed.

(** The result of one operation, as [op_ok_use] on [float]. *)
Lemma float_use (z : float) (q : Q) :
  op_ok (Prim2SF z) q -> Qabs q <= Bmax ->
  Ffin z = true
  /\ Qabs (F2Q z - q)
     <= (1 # 9007199254740992) * Qabs q + (1 # 1000000000000000000000000000000).
Proof. intros H Hq. exact (op_ok_use _ _ H Hq). Qed.

(** [v * f / g], against the exact [W = V * phi / gamma]; [ig] is
    [1 / gamma]. *)
Lemma ratio_error (v f g : float) (ig : Q) :
  Ffin v = true -> Ffin f = true -> Ffin g = true ->
  Qabs (F2Q v) <= Wmax ->
  0 < F2Q f -> F2Q f <= 10000000000000 ->
  0 < ig -> ig <= 10000000000000 -> ig * F2Q g == 1 ->
  let W := F2Q v * F2Q f * ig in
  Ffin (v * f / g) = true
  /\ Qabs (F2Q (v * f / g) - W)
     <= (3 # 10000000000000000) * Qabs W + (1 # 10000000000000000).
Proof.
  intros Hv Hf Hg HV Hphi0 Hphi Hig0 Hig Hinv W.
  destruct Wmax_facts as [HV1 HV2].
  (* the product *)
  pose proof (mul_ok v f Hv Hf) as Hmul.
  assert (HX : Qabs (F2Q v * F2Q f) <= Wmax * 10000000000000).
  { apply Qabs_mult_le; [exact HV|]. rewrite Qabs_pos by lra. exact Hphi. }
  apply float_use in Hmul; [|lra].
  destruct Hmul as [Hpf Hperr].
  (* the quotient *)
  assert (Hg0 : ~ F2Q g == 0).
  { intros H0. rewrite H0 in Hinv. lra. }
  pose proof (div_ok (v * f) g (F2Q (v * f) * ig) Hpf Hg Hg0) as Hdiv.
  assert (Hq : F2Q (v * f) * ig * F2Q g == F2Q (v * f)).
  { transitivity (F2Q (v * f) * (ig * F2Q g)); [ring | rewrite Hinv; ring]. }
  specialize (Hdiv Hq). clear Hq.
  (* on rationals *)
  assert (HWabs : Qabs W == Qabs (F2Q v * F2Q f) * ig).
  { unfold W. rewrite Qabs_Qmult, (Qabs_pos ig) by lra. reflexivity. }
  revert Hperr Hdiv HX HWabs. unfold W. clear W.
  generalize (F2Q (v * f)) (F2Q v * F2Q f).
  intros P X Hperr Hdiv HX HWabs.
  apply Qabs_le_iff in Hperr.
  pose proof (scale_bounds _ _ ig (Qlt_le_weak _ _ Hig0) Hperr) as Hs.
  destruct (Qabs_bounds X) as (HX0 & HX1 & HX2).
  pose proof (scale_bounds X (Qabs X) ig (Qlt_le_weak _ _ Hig0) (conj HX1 HX2)) as HsX.
  assert (HXig : Qabs X * ig <= Wmax * 10000000000000 * 10000000000000).
  { apply mult_le; lra. }
  assert (HXig0 : 0 <= Qabs X * ig) by (apply Qmult_le_0_compat; lra).
  clear Hperr HX HX1 HX2.
  revert Hs HsX HXig HXig0 HWabs Hdiv. generalize (Qabs X). intros aX Hs HsX HXig HXig0 HWabs Hdiv.
  assert (HT : Qabs (P * ig) <= Bmax) by (apply Qabs_le_iff; lra).
  apply float_use in Hdiv; [|exact HT]. destruct Hdiv as [Hqf Hqerr].
  split; [exact Hqf|].
  rewrite HWabs. apply Qabs_le_iff in Hqerr. apply Qabs_le_iff.
  assert (HT' : Qabs (P * ig) <= aX * ig * (11 # 10) + (1 # 100000000000000000))
    by (apply Qabs_le_iff; lra).
  revert Hqerr HT'. generalize (Qabs (P * ig)). intros aT Hqerr HT'. lra.
Qed.

(** [((v * f + a) - b) / g], against the exact
    [W = (V * phi + alpha - beta) / gamma], for factors and offsets in
    the range of the temperature units. *)
Lemma affine_error (v f a b g : float) (ig : Q) :
  Ffin v = true -> Ffin f = true -> Ffin a = true -> Ffin b = true -> Ffin g = true ->
  Qabs (F2Q v) <= Wmax ->
  0 < F2Q f -> F2Q f <= 1 ->
  0 <= F2Q a -> F2Q a <= 274 -> 0 <= F2Q b -> F2Q b <= 274 ->
  0 < ig -> ig <= 2 -> ig * F2Q g == 1 ->
  let X := F2Q v * F2Q f in
  let W := (X + F2Q a - F2Q b) * ig in
  Ffin ((v * f + a - b) / g) = true
  /\ Qabs (F2Q ((v * f + a - b) / g) - W)
     <= (12 # 100000000000000000)
        * (Qabs W + 3 * (Qabs X * ig) + (2 * F2Q a + F2Q b) * ig)
        + (1 # 100000000000000000000).
Proof.
  intros Hv Hf Ha Hb Hg HV Hphi0 Hphi Ha0 Ha1 Hb0 Hb1 Hig0 Hig Hinv X W.
  destruct Wmax_facts as [HV1 HV2].
  (* the product *)
  pose proof (mul_ok v f Hv Hf) as Hmul.
  assert (HX : Qabs X <= Wmax).
  { apply Qle_trans with (Wmax * 1); [|lra].
    apply Qabs_mult_le; [exact HV|]. rewrite Qabs_pos by lra. exact Hphi. }
  fold X in Hmul.
  assert (HWeq : W == X * ig + F2Q a * ig - F2Q b * ig) by (unfold W; ring).
  clearbody W X.
  apply float_use in Hmul; [|lra].
  destruct Hmul as [Hpf Hperr]. apply Qabs_le_iff in Hperr.
  destruct (Qabs_bounds X) as (HX0 & HX1 & HX2).
  (* the sum *)
  pose proof (add_ok (v * f) a Hpf Ha) as Hadd.
  assert (HS : Qabs (F2Q (v * f) + F2Q a)
               <= (10000000000000002 # 10000000000000000) * Qabs X + F2Q a
                  + (1 # 1000000000000000000000000000000))
    by (apply Qabs_le_iff; lra).
  apply float_use in Hadd; [|lra].
  destruct Hadd as [Hsf Hserr]. apply Qabs_le_iff in Hserr.
  (* the difference *)
  pose proof (sub_ok (v * f + a) b Hsf Hb) as Hsub.
  assert (HD : Qabs (F2Q (v * f + a) - F2Q b)
               <= (10000000000000004 # 10000000000000000) * Qabs X
                  + (10000000000000002 # 10000000000000000) * F2Q a + F2Q b
                  + (3 # 1000000000000000000000000000000)).
  { revert Hserr HS. generalize (Qabs (F2Q (v * f) + F2Q a)). intros aS Hserr HS.
    apply Qabs_le_iff. lra. }
  apply float_use in Hsub; [|lra].
  destruct Hsub as [Hdf Hderr]. apply Qabs_le_iff in Hderr.
  (* the error of the difference *)
  assert (HDe : Qabs (F2Q (v * f + a - b) - (X + F2Q a - F2Q b))
                <= (112 # 1000000000000000000) * (3 * Qabs X + 2 * F2Q a + F2Q b)
                   + (1 # 10000000000000000000000000000)).
  { revert Hserr Hderr HS HD.
    generalize (Qabs (F2Q (v * f) + F2Q a)) (Qabs (F2Q (v * f + a) - F2Q b)).
    intros aS aD Hserr Hderr HS HD. apply Qabs_le_iff. lra. }
  clear Hserr Hderr HS HD Hperr.
  (* the quotient *)
  assert (Hg0 : ~ F2Q g == 0).
  { intros H0. rewrite H0 in Hinv. lra. }
  pose proof (div_ok (v * f + a - b) g (F2Q (v * f + a - b) * ig) Hdf Hg Hg0) as Hdiv.
  assert (Hq : F2Q (v * f + a - b) * ig * F2Q g == F2Q (v * f + a - b)).
  { transitivity (F2Q (v * f + a - b) * (ig * F2Q g)); [ring | rewrite Hinv; ring]. }
  specialize (Hdiv Hq). clear Hq.
  (* on rationals *)
  apply Qabs_le_iff in HDe.
  pose proof (scale_bounds _ _ ig (Qlt_le_weak _ _ Hig0) HDe) as Hs.
  destruct (Qabs_bounds W) as (HW0 & HW1 & HW2).
  assert (HXig0 : 0 <= Qabs X * ig) by (apply Qmult_le_0_compat; lra).
  assert (Haig0 : 0 <= F2Q a * ig) by (apply Qmult_le_0_compat; lra).
  assert (Hbig0 : 0 <= F2Q b * ig) by (apply Qmult_le_0_compat; lra).
  assert (HXig : Qabs X * ig <= Wmax * 2) by (apply mult_le; lra).
  assert (Haig : F2Q a * ig <= 274 * 2) by (apply mult_le; lra).
  assert (Hbig : F2Q b * ig <= 274 * 2) by (apply mult_le; lra).
  pose proof (scale_bounds X (Qabs X) ig (Qlt_le_weak _ _ Hig0) (conj HX1 HX2)) as HsX.
  assert (HaW : Qabs W <= Wmax * 2 + 1096) by (apply Qabs_le_iff; lra).
  revert Hdiv Hs HW0 HW1 HW2 HaW. generalize (F2Q (v * f + a - b)). generalize (Qabs W).
  intros aW D' Hdiv Hs HW0 HW1 HW2 HaW.
  revert HX HX0 HX1 HX2 HXig0 HXig HsX Hs. generalize (Qabs X).
  intros aX HX HX0 HX1 HX2 HXig0 HXig HsX Hs.
  assert (HT : Qabs (D' * ig)
               <= aW + (112 # 1000000000000000000)
                        * (3 * (aX * ig) + 2 * (F2Q a * ig) + F2Q b * ig)
                  + (2 # 10000000000000000000000000000)).
  { apply Qabs_le_iff. lra. }
  apply float_use in Hdiv; [|lra]. destruct Hdiv as [Hqf Hqerr].
  split; [exact Hqf|].
  apply Qabs_le_iff in Hqerr. revert Hqerr HT. generalize (Qabs (D' * ig)).
  intros aT Hqerr HT. apply Qabs_le_iff. lra.
Qed.

Local Close Scope Q_scope.

(** ** The two conversion formulas *)

(** C4.  Between two temperature units [Convert] goes through Kelvin:
    [base = value * fromFactor + fromOffset], then
    [(base - toOffset) / toFactor], then the rounding at 12 decimals; and
    [Convert(0, "C", "K")] is [273.15] exactly.  The two other examples
    fail on the code: [Convert(32, "F", "C")] is [-0.000222222222], more
    than [0.0002] away from [0], and [Convert(100, "C", "F")] is
    [212.0004], not within [1e-9] of [212].  The table has the Fahrenheit
    offset cut to [255.372]; with [459.67 * 5 / 9] the same arithmetic
    returns [0] and [212]. *)
Theorem Convert_temperature :
  (forall (uc : UnitConverter) (value : float) (from to : string)
          (unitFrom unitTo : Unit),
      units uc !! from = Some unitFrom ->
      units uc !! to = Some unitTo ->
      Dimension unitFrom = "temperature" ->
      Dimension unitTo = "temperature" ->
      let baseValue := (value * Factor unitFrom + Offset unitFrom)%float in
      let result := ((baseValue - Offset unitTo) / Factor unitTo)%float in
      Convert uc value from to
      = ((math.Round (result * 1000000000000) / 1000000000000)%float, None))
  /\ Convert NewUnitConverter 0 "C" "K" = (273.15%float, None)
  /\ Convert NewUnitConverter 32 "F" "C" = ((-0.000222222222)%float, None)
  /\ ~ close_1e9 0 (-0.000222222222)
  /\ (exists q : Q, Q_of_float (-0.000222222222) = Some q /\ ((2 # 10000) < Qabs q)%Q)
  /\ Convert NewUnitConverter 100 "C" "F" = (212.0004%float, None)
  /\ ~ close_1e9 212 212.0004
  /\ units NewUnitConverter !! "F"
     = Some (mkUnit (5.0 / 9.0) "temperature" "Fahrenheit" 255.372)
  /\ Offset Fahrenheit_exact = 255.37222222222221%float
  /\ convert_units Fahrenheit_exact Celsius 32 = 0%float
  /\ convert_units Celsius Fahrenheit_exact 100 = 212%float.
Proof.
  split.
  { intros uc value from to unitFrom unitTo Hfrom Hto HdimF HdimT baseValue result.
    rewrite (Convert_same_dimension uc value from to unitFrom unitTo Hfrom Hto)
      by congruence.
    unfold unrounded. rewrite HdimF. reflexivity. }
  split; [vm_compute; reflexivity|].
  split; [vm_compute; reflexivity|].
  split; [rewrite <- within_1e9_spec; vm_compute; discriminate|].
  split; [eexists; split; [vm_compute; reflexivity | vm_compute; reflexivity]|].
  split; [vm_compute; reflexivity|].
  split; [rewrite <- within_1e9_spec; vm_compute; discriminate|].
  repeat split; vm_compute; reflexivity.
Qed.

Lemma Convert_temperature_witness :
  Convert NewUnitConverter 25 "C" "Ra"
  = ((math.Round ((25 * 1 + 273.15 - 0) / (5.0 / 9.0) * 1000000000000)
      / 1000000000000)%float, None).
Proof.
  destruct Convert_temperature as [H _].
  exact (H NewUnitConverter 25%float "C" "Ra"
           (mkUnit 1 "temperature" "Celsius" 273.15)
           (mkUnit (5.0 / 9.0) "temperature" "Rankine" 0)
           eq_refl eq_refl eq_refl eq_refl).
Defined.

(** What [math.Round] does with infinities and NaN. *)
Lemma Round_not_finite (x : float) : Ffin x = false -> math.Round x = x.
Proof.
  unfold Ffin. intros Hx. unfold math.Round.
  assert (H : PrimFloat.is_nan x || PrimFloat.is_zero x || PrimFloat.is_infinity x = true).
  { unfold PrimFloat.is_nan, PrimFloat.is_infinity.
    rewrite !FloatAxioms.eqb_spec, FloatAxioms.abs_spec.
    change (Prim2SF infinity) with (S754_infinity false).
    destruct (Prim2SF x) as [s|s| |s m e]; try discriminate.
    - cbn. now rewrite orb_true_r.
    - reflexivity. }
  now rewrite H.
Qed.

(** C5.  Between two units of one dimension other than temperature
    [Convert] computes [value * fromFactor / toFactor], multiplies by
    [10^12], rounds to the nearest integer (the one away from zero when
    two are as near) and divides by [10^12].  [Convert(1, "km", "m")] is
    [1000] and [Convert(1000, "g", "kg")] is [1]; and one kilometre, which
    is [0.62137119223733395] miles before the rounding, is
    [0.621371192237] miles. *)
Theorem Convert_ratio :
  (forall (uc : UnitConverter) (value : float) (from to : string)
          (unitFrom unitTo : Unit),
      units uc !! from = Some unitFrom ->
      units uc !! to = Some unitTo ->
      Dimension unitFrom = Dimension unitTo ->
      Dimension unitFrom <> "temperature" ->
      let result := (value * Factor unitFrom / Factor unitTo)%float in
      let scaled := (result * 1000000000000)%float in
      exists rounded : float,
        Convert uc value from to = ((rounded / 1000000000000)%float, None)
        /\ (Ffin scaled = true ->
            Ffin rounded = true
            /\ exists N : Z,
                 (F2Q rounded == inject_Z N)%Q /\ nearest_away N (F2Q scaled))
        /\ (Ffin scaled = false -> rounded = scaled))
  /\ (F2Q 1000000000000 == 10 ^ 12)%Q
  /\ Convert NewUnitConverter 1 "km" "m" = (1000%float, None)
  /\ Convert NewUnitConverter 1000 "g" "kg" = (1%float, None)
  /\ (1 * 1000 / 1609.344)%float = 0.62137119223733395%float
  /\ Convert NewUnitConverter 1 "km" "mi" = (0.621371192237%float, None).
Proof.
  split.
  { intros uc value from to unitFrom unitTo Hfrom Hto Hdim Htemp result scaled.
    exists (math.Round scaled). split; [|split].
    - rewrite (Convert_same_dimension uc value from to unitFrom unitTo Hfrom Hto Hdim).
      unfold unrounded. apply String.eqb_neq in Htemp. rewrite Htemp. reflexivity.
    - apply Round_nearest.
    - apply Round_not_finite. }
  split; [exact (proj2 Pow10_12)|].
  repeat split; vm_compute; reflexivity.
Qed.

Lemma Convert_ratio_witness :
  exists rounded : float,
    Convert NewUnitConverter 1 "km" "mi" = ((rounded / 1000000000000)%float, None)
    /\ (Ffin (1 * 1000 / 1609.344 * 1000000000000) = true ->
        Ffin rounded = true
        /\ exists N : Z,
             (F2Q rounded == inject_Z N)%Q
             /\ nearest_away N (F2Q (1 * 1000 / 1609.344 * 1000000000000)))
    /\ (Ffin (1 * 1000 / 1609.344 * 1000000000000) = false ->
        rounded = (1 * 1000 / 1609.344 * 1000000000000)%float).
Proof.
  destruct Convert_ratio as [H _].
  refine (H NewUnitConverter 1%float "km" "mi"
            (mkUnit 1000 "length" "Kilometer" 0)
            (mkUnit 1609.344 "length" "Mile" 0)
            eq_refl eq_refl eq_refl _).
  discriminate.
Defined.

(** ** The registry *)

Lemma registry_checked :
  map_Forall (fun _ u => unit_ok u = true) (units NewUnitConverter).
Proof. apply (bool_decide_unpack _). vm_compute. exact I. Qed.

(** C9. Every entry of the registry built by [NewUnitConverter] has a
    factor that is strictly positive, hence not zero, and an offset of [0]
    unless its dimension is temperature.  The registry is a value: the
    operations take it as an argument and none returns a registry; the
    one that hands out a map, [GetUnitsByDimension], builds a new map out
    of entries of the registry. *)
Theorem registry_invariant :
  (forall (symbol : string) (u : Unit),
      units NewUnitConverter !! symbol = Some u ->
      (0 <? Factor u)%float = true
      /\ (Factor u =? 0)%float = false
      /\ (Dimension u <> "temperature" -> Offset u = 0%float))
  /\ (forall (dimension symbol : string) (u : Unit),
        GetUnitsByDimension NewUnitConverter dimension !! symbol = Some u ->
        units NewUnitConverter !! symbol = Some u /\ Dimension u = dimension).
Proof.
  split.
  - intros symbol u Hu.
    pose proof (registry_checked symbol u Hu) as Hok. unfold unit_ok in Hok.
    apply andb_prop in Hok as [Hok Hoff]. apply andb_prop in Hok as [Hpos Hnz].
    split; [exact Hpos | split].
    + now apply negb_true_iff in Hnz.
    + intros Hdim. apply orb_prop in Hoff as [Htemp | Hzero].
      * apply String.eqb_eq in Htemp. contradiction.
      * now apply FloatAxioms.Leibniz.eqb_spec in Hzero.
  - intros dimension symbol u Hu. unfold GetUnitsByDimension in Hu.
    now apply map_lookup_filter_Some in Hu.
Qed.

Lemma registry_invariant_witness :
  (0 <? Factor (mkUnit (5.0 / 9.0) "temperature" "Fahrenheit" 255.372))%float = true
  /\ units NewUnitConverter !! "acre" = Some (mkUnit 4046.8564224 "area" "Acre" 0).
Proof.
  destruct registry_invariant as [Hreg Hdim]. split.
  - exact (proj1 (Hreg "F" (mkUnit (5.0 / 9.0) "temperature" "Fahrenheit" 255.372)
                    eq_refl)).
  - refine (proj1 (Hdim "area" "acre" (mkUnit 4046.8564224 "area" "Acre" 0) _)).
    vm_compute. reflexivity.
Defined.

(** ** FormatResult *)

(** *** The shape of fixed notation *)

Lemma length_substring (s : string) (k n : nat) :
  k + n <= String.length s -> String.length (substring k n s) = n.
Proof.
  revert k n. induction s as [|c s IH]; intros k n Hlen; cbn in Hlen.
  - assert (k = 0%nat /\ n = 0%nat) as [-> ->] by lia. reflexivity.
  - destruct k as [|k]; cbn.
    + destruct n as [|n]; [reflexivity|]. cbn. f_equal. apply IH. lia.
    + apply IH. lia.
Qed.

Lemma length_append (s t : string) :
  String.length (s ++ t) = String.length s + String.length t.
Proof.
  induction s as [|c s IH]; [reflexivity|].
  change (S (String.length (s ++ t)) = S (String.length s + String.length t)).
  now rewrite IH.
Qed.

Lemma length_zeros (n : nat) : String.length (strconv.zeros n) = n.
Proof. induction n as [|n IH]; cbn; [reflexivity | now rewrite IH]. Qed.

Lemma length_pad_left (n : nat) (s : string) :
  n <= String.length (strconv.pad_left n s).
Proof. unfold strconv.pad_left. rewrite length_append, length_zeros. lia. Qed.

(** The order of binary64 values: below [y] and [y] below or equal to [z]
    leaves no way for [z] to be below or equal to [x]. *)
Lemma SF_lt_le_not_le (x y z : spec_float) :
  SFltb x y = true -> SFleb y z = true -> SFleb z x = false.
Proof.
  unfold SFltb, SFleb.
  destruct x as [sx|sx| |sx mx ex], y as [sy|sy| |sy my ey], z as [sz|sz| |sz mz ez];
    cbn [SFcompare];
    repeat match goal with s : bool |- _ => destruct s end;
    try discriminate; try reflexivity;
    change (Pos.compare_cont Eq) with Pos.compare;
    repeat match goal with
           | |- context [Z.compare ?a ?b] => destruct (Z.compare_spec a b)
           | |- context [Pos.compare ?a ?b] => destruct (Pos.compare_spec a b)
           end;
    cbn; try discriminate; try reflexivity; intros; lia.
Qed.

Lemma float_lt_le_not_le (x y z : float) :
  (x <? y)%float = true -> (y <=? z)%float = true -> (z <=? x)%float = false.
Proof.
  rewrite FloatAxioms.ltb_spec, !FloatAxioms.leb_spec. apply SF_lt_le_not_le.
Qed.

(** The number of decimals [FormatResult] picks, from the code's [switch]. *)
Lemma FormatResult_fixed (uc : UnitConverter) (result : float) (unit : string) :
  (math.Abs result <? 0.001)%float = false ->
  (1000000 <? math.Abs result)%float = false ->
  FormatResult uc result unit
  = strconv.FormatFloat result strconv.verb_f
      (if (1000 <=? math.Abs result)%float then 0
       else if (100 <=? math.Abs result)%float then 1
       else if (10 <=? math.Abs result)%float then 2
       else if (1 <=? math.Abs result)%float then 3
       else 4) ++ " " ++ unit.
Proof. intros Hlo Hhi. unfold FormatResult. now rewrite Hlo, Hhi. Qed.

(** *** The digits of fixed notation *)

Lemma all_digits_string_of_uint (d : Decimal.uint) :
  all_digits (NilEmpty.string_of_uint d) = true.
Proof. induction d; cbn; assumption || reflexivity. Qed.

Lemma all_digits_itoa (n : Z) : all_digits (strconv.itoa n) = true.
Proof.
  unfold strconv.itoa, NilZero.string_of_uint.
  destruct (N.to_uint (Z.to_N n)); try apply all_digits_string_of_uint. reflexivity.
Qed.

Lemma all_digits_append (s t : string) :
  all_digits s = true -> all_digits t = true -> all_digits (s ++ t) = true.
Proof.
  intros Hs Ht. induction s as [|c s IH]; [exact Ht|].
  cbn [all_digits] in Hs. change (String c s ++ t) with (String c (s ++ t)).
  cbn [all_digits]. destruct (strconv.digit c); [now apply IH | discriminate].
Qed.

Lemma all_digits_zeros (n : nat) : all_digits (strconv.zeros n) = true.
Proof. induction n as [|n IH]; [reflexivity | exact IH]. Qed.

Lemma all_digits_substring (s : string) (k n : nat) :
  all_digits s = true -> all_digits (substring k n s) = true.
Proof.
  revert k n. induction s as [|c s IH]; intros k n Hs.
  - destruct k, n; reflexivity.
  - cbn in Hs. destruct (strconv.digit c) eqn:Hc; [|discriminate].
    destruct k as [|k]; cbn.
    + destruct n as [|n]; [reflexivity|]. cbn. rewrite Hc. now apply IH.
    + now apply IH.
Qed.

Lemma fixed_digits (prec : nat) (num den : Z) :
  prec <> 0%nat ->
  exists ip fp : string,
    strconv.fixed prec num den = ip ++ "." ++ fp
    /\ all_digits ip = true /\ 1 <= String.length ip
    /\ all_digits fp = true /\ String.length fp = prec.
Proof.
  intros Hprec. unfold strconv.fixed.
  set (n := strconv.div_round_even _ _).
  set (ds := strconv.pad_left (S prec) (strconv.itoa n)).
  assert (Hlen : S prec <= String.length ds) by apply length_pad_left.
  assert (Hds : all_digits ds = true).
  { unfold ds, strconv.pad_left.
    apply all_digits_append; [apply all_digits_zeros | apply all_digits_itoa]. }
  destruct prec as [|p]; [contradiction|].
  eexists _, _. split; [reflexivity|].
  split; [now apply all_digits_substring|].
  split; [rewrite length_substring; lia|].
  split; [now apply all_digits_substring | apply length_substring; lia].
Qed.

Lemma FormatFloat_f_digits (x : float) (prec : nat) :
  prec <> 0%nat ->
  PrimFloat.is_finite x = true ->
  exists sign ip fp : string,
    strconv.FormatFloat x strconv.verb_f prec = sign ++ ip ++ "." ++ fp
    /\ (sign = "" \/ sign = "-")
    /\ all_digits ip = true /\ 1 <= String.length ip
    /\ all_digits fp = true /\ String.length fp = prec.
Proof.
  intros Hprec Hfin. unfold strconv.FormatFloat, Prim2SF.
  unfold PrimFloat.is_finite in Hfin.
  destruct (PrimFloat.is_nan x); [discriminate|].
  assert (Hsign : forall b : bool, (if b then "-" else "") = "" \/ (if b then "-" else "") = "-")
    by (intros []; auto).
  destruct (PrimFloat.is_zero x).
  - destruct (fixed_digits prec 0 1 Hprec) as (ip & fp & -> & H).
    exists (if get_sign x then "-" else ""), ip, fp. auto.
  - destruct (PrimFloat.is_infinity x); [discriminate|].
    destruct (Z.frexp x) as [r e].
    destruct (shr_fexp _ _ _ _ _) as [shr e'].
    destruct (shr_m shr) as [|p|p].
    + destruct (fixed_digits prec 0 1 Hprec) as (ip & fp & -> & H).
      exists "", ip, fp. auto.
    + destruct (strconv.fraction p e') as [num den].
      destruct (fixed_digits prec num den Hprec) as (ip & fp & -> & H).
      exists (if get_sign x then "-" else ""), ip, fp. auto.
    + destruct (fixed_digits prec 0 1 Hprec) as (ip & fp & -> & H).
      exists "", ip, fp. auto.
Qed.

(** *** The number of digits of an integer *)

Lemma of_uint_acc_bounds (l : Decimal.uint) (acc : positive) :
  (Zpos acc * 10 ^ Z.of_nat (Decimal.nb_digits l) <= Zpos (Pos.of_uint_acc l acc)
   < (Zpos acc + 1) * 10 ^ Z.of_nat (Decimal.nb_digits l))%Z.
Proof.
  revert acc. induction l as [|l IH|l IH|l IH|l IH|l IH|l IH|l IH|l IH|l IH|l IH];
    intros acc; cbn [Pos.of_uint_acc Decimal.nb_digits];
    [ cbn; lia | .. ];
    rewrite Nat2Z.inj_succ, Z.pow_succ_r by lia;
    match goal with
    | |- context [Pos.of_uint_acc l ?a] => specialize (IH a)
    end;
    assert (Hp : (0 < 10 ^ Z.of_nat (Decimal.nb_digits l))%Z)
      by (apply Z.pow_pos_nonneg; lia);
    rewrite ?Pos2Z.inj_add, ?Pos2Z.inj_mul in IH; nia.
Qed.

Lemma length_string_of_uint (d : Decimal.uint) :
  String.length (NilEmpty.string_of_uint d) = Decimal.nb_digits d.
Proof. induction d; cbn; congruence. Qed.

(** A positive number is printed without a leading zero. *)
Lemma to_uint_head (p : positive) :
  exists (k : positive) (l : Decimal.uint),
    (Zpos k <= 9)%Z /\ Decimal.nb_digits (Pos.to_uint p) = S (Decimal.nb_digits l)
    /\ p = Pos.of_uint_acc l k.
Proof.
  pose proof (DecimalPos.Unsigned.of_to p) as Hof.
  pose proof (DecimalPos.Unsigned.to_of (Pos.to_uint p)) as Hto.
  rewrite Hof in Hto. cbn [N.to_uint] in Hto.
  pose proof (DecimalPos.Unsigned.to_uint_nonzero p) as Hnz.
  pose proof (DecimalPos.Unsigned.to_uint_nonnil p) as Hnn.
  destruct (Pos.to_uint p) as [|l|l|l|l|l|l|l|l|l|l] eqn:Hd;
    try (cbn [Pos.of_uint] in Hof; injection Hof as Hof;
         eexists _, l; split; [|split; [reflexivity | symmetry; exact Hof]]; lia).
  - contradiction.
  - exfalso. rewrite unorm_D0 in Hto. unfold Decimal.unorm in Hto.
    destruct (Decimal.nzhead l) eqn:Hh; try discriminate.
    + apply Hnz. exact Hto.
    + injection Hto as Hto. subst. exact (nzhead_nonzero _ _ Hh).
Qed.

(** [itoa n] has as many digits as [n] needs. *)
Lemma itoa_bounds (n : Z) :
  (0 < n)%Z ->
  (10 ^ (Z.of_nat (String.length (strconv.itoa n)) - 1) <= n
   < 10 ^ Z.of_nat (String.length (strconv.itoa n)))%Z.
Proof.
  intros Hn. unfold strconv.itoa.
  destruct n as [|p|p]; try lia. cbn [Z.to_N N.to_uint].
  destruct (to_uint_head p) as (k & l & Hk & Hlen & Hp).
  assert (Hs : String.length (NilZero.string_of_uint (Pos.to_uint p))
               = S (Decimal.nb_digits l)).
  { unfold NilZero.string_of_uint.
    destruct (Pos.to_uint p) eqn:Hd; try discriminate;
      rewrite length_string_of_uint; exact Hlen. }
  rewrite Hs, Nat2Z.inj_succ.
  replace (Z.succ (Z.of_nat (Decimal.nb_digits l)) - 1)%Z
    with (Z.of_nat (Decimal.nb_digits l)) by lia.
  rewrite Z.pow_succ_r by lia.
  pose proof (of_uint_acc_bounds l k) as Hb. rewrite <- Hp in Hb.
  assert (Hpow : (0 < 10 ^ Z.of_nat (Decimal.nb_digits l))%Z)
    by (apply Z.pow_pos_nonneg; lia).
  nia.
Qed.

Lemma itoa_length (n : Z) (k : nat) :
  (10 ^ Z.of_nat k <= n)%Z -> k < String.length (strconv.itoa n).
Proof.
  intros Hk.
  assert (Hn : (0 < n)%Z).
  { assert (0 < 10 ^ Z.of_nat k)%Z by (apply Z.pow_pos_nonneg; lia). lia. }
  destruct (itoa_bounds n Hn) as [_ Hup].
  assert (Hlt : (10 ^ Z.of_nat k < 10 ^ Z.of_nat (String.length (strconv.itoa n)))%Z) by lia.
  apply Z.pow_lt_mono_r_iff in Hlt; lia.
Qed.

(** *** The shape of scientific notation *)

Lemma div_round_even_lower (num den : Z) :
  (0 < den)%Z -> (num / den <= strconv.div_round_even num den)%Z.
Proof.
  intros Hden. unfold strconv.div_round_even. cbv zeta.
  destruct (den <? 2 * (num mod den))%Z; [lia|].
  destruct ((den =? 2 * (num mod den))%Z && Z.odd (num / den)); lia.
Qed.

(** [10^k <= num / den] for the exponent [k] that [exponent10] finds. *)
Lemma exponent10_lower (num den : Z) :
  (0 < num)%Z -> (0 < den)%Z ->
  let k := strconv.exponent10 num den in
  if (0 <=? k)%Z then (10 ^ k * den <= num)%Z else (den <= num * 10 ^ (- k))%Z.
Proof.
  intros Hnum Hden. unfold strconv.exponent10. cbv zeta.
  set (Ln := Z.of_nat (String.length (strconv.itoa num))).
  set (Ld := Z.of_nat (String.length (strconv.itoa den))).
  destruct (itoa_bounds num Hnum) as [Hnlo _]. fold Ln in Hnlo.
  destruct (itoa_bounds den Hden) as [Hdlo Hdhi]. fold Ld in Hdlo, Hdhi.
  assert (HLn : (1 <= Ln)%Z).
  { destruct (Z_lt_le_dec Ln 1) as [H|H]; [|exact H]. exfalso.
    assert (Hz : String.length (strconv.itoa num) = 0%nat) by (unfold Ln in H; lia).
    pose proof (itoa_length num 0 ltac:(cbn; lia)). lia. }
  assert (HLd : (1 <= Ld)%Z).
  { destruct (Z_lt_le_dec Ld 1) as [H|H]; [|exact H]. exfalso.
    assert (Hz : String.length (strconv.itoa den) = 0%nat) by (unfold Ld in H; lia).
    pose proof (itoa_length den 0 ltac:(cbn; lia)). lia. }
  set (k0 := (Ln - Ld)%Z).
  destruct (0 <=? k0)%Z eqn:Hk0.
  - apply Z.leb_le in Hk0.
    destruct (10 ^ k0 * den <=? num)%Z eqn:Habove.
    + rewrite (proj2 (Z.leb_le 0 k0) Hk0). now apply Z.leb_le.
    + destruct (0 <=? k0 - 1)%Z eqn:Hk1.
      * apply Z.leb_le in Hk1.
        assert (Hp : (10 ^ (Ln - 1) = 10 ^ (k0 - 1) * 10 ^ Ld)%Z).
        { rewrite <- Z.pow_add_r by lia. f_equal. unfold k0. lia. }
        assert (Hq : (0 < 10 ^ (k0 - 1))%Z) by (apply Z.pow_pos_nonneg; lia).
        nia.
      * apply Z.leb_gt in Hk1. assert (k0 = 0%Z) by lia.
        replace (- (k0 - 1))%Z with 1%Z by lia.
        assert (Hp : (10 ^ Ld = 10 ^ (Ln - 1) * 10 ^ 1)%Z).
        { rewrite <- Z.pow_add_r by lia. f_equal. unfold k0 in *. lia. }
        lia.
  - apply Z.leb_gt in Hk0.
    destruct (den <=? num * 10 ^ (- k0))%Z eqn:Habove.
    + rewrite (proj2 (Z.leb_gt 0 k0) Hk0). now apply Z.leb_le.
    + rewrite (proj2 (Z.leb_gt 0 (k0 - 1)) ltac:(lia)).
      assert (Hp : (10 ^ Ld = 10 ^ (Ln - 1) * 10 ^ (- (k0 - 1)))%Z).
      { rewrite <- Z.pow_add_r by lia. f_equal. unfold k0. lia. }
      assert (Hq : (0 < 10 ^ (- (k0 - 1)))%Z) by (apply Z.pow_pos_nonneg; lia).
      nia.
Qed.

(** The mantissa of scientific notation has at least [prec + 1] digits. *)
Lemma scaled_lower (num den k : Z) (p : Z) :
  (0 < num)%Z -> (0 < den)%Z -> (0 <= p)%Z ->
  (if (0 <=? k)%Z then (10 ^ k * den <= num)%Z else (den <= num * 10 ^ (- k))%Z) ->
  (10 ^ p <= strconv.scaled num den (k - p))%Z.
Proof.
  intros Hnum Hden Hp Hk. unfold strconv.scaled.
  assert (Hpp : (0 < 10 ^ p)%Z) by (apply Z.pow_pos_nonneg; lia).
  destruct (0 <=? k - p)%Z eqn:Hj.
  - apply Z.leb_le in Hj. rewrite (proj2 (Z.leb_le 0 k) ltac:(lia)) in Hk.
    assert (Hq : (0 < 10 ^ (k - p))%Z) by (apply Z.pow_pos_nonneg; lia).
    eapply Z.le_trans; [|apply div_round_even_lower; nia].
    apply Z.div_le_lower_bound; [nia|].
    assert (He : (10 ^ k = 10 ^ (k - p) * 10 ^ p)%Z).
    { rewrite <- Z.pow_add_r by lia. f_equal. lia. }
    nia.
  - apply Z.leb_gt in Hj.
    eapply Z.le_trans; [|apply div_round_even_lower; exact Hden].
    apply Z.div_le_lower_bound; [exact Hden|].
    destruct (0 <=? k)%Z eqn:Hk0.
    + apply Z.leb_le in Hk0.
      assert (He : (10 ^ p = 10 ^ k * 10 ^ (- (k - p)))%Z).
      { rewrite <- Z.pow_add_r by lia. f_equal. lia. }
      assert (Hq : (0 < 10 ^ (- (k - p)))%Z) by (apply Z.pow_pos_nonneg; lia).
      nia.
    + apply Z.leb_gt in Hk0.
      assert (He : (10 ^ (- (k - p)) = 10 ^ (- k) * 10 ^ p)%Z).
      { rewrite <- Z.pow_add_r by lia. f_equal. lia. }
      nia.
Qed.

Lemma scientific_digits (prec : nat) (num den : Z) :
  prec <> 0%nat -> (0 < num)%Z -> (0 < den)%Z ->
  exists d frac esign ex : string,
    strconv.scientific prec num den = (d ++ "." ++ frac) ++ "e" ++ esign ++ ex
    /\ all_digits d = true /\ String.length d = 1%nat
    /\ all_digits frac = true /\ String.length frac = prec
    /\ (esign = "+" \/ esign = "-")
    /\ all_digits ex = true /\ 2 <= String.length ex.
Proof.
  intros Hprec Hnum Hden. unfold strconv.scientific. cbv zeta.
  set (p := Z.of_nat prec).
  pose proof (exponent10_lower num den Hnum Hden) as Hk. cbv zeta in Hk.
  set (k0 := strconv.exponent10 num den) in *.
  pose proof (scaled_lower num den k0 p Hnum Hden ltac:(lia) Hk) as Hn0.
  set (n0 := strconv.scaled num den (k0 - p)) in *.
  assert (Hn : forall n k : Z,
             (if (10 ^ (p + 1) <=? n0)%Z then (10 ^ p, k0 + 1)%Z else (n0, k0)) = (n, k) ->
             (10 ^ p <= n)%Z).
  { intros n k. destruct (10 ^ (p + 1) <=? n0)%Z; intros [= <- <-]; lia. }
  destruct (if (10 ^ (p + 1) <=? n0)%Z then (10 ^ p, k0 + 1)%Z else (n0, k0)) as [n k].
  specialize (Hn n k eq_refl).
  pose proof (itoa_length n prec Hn) as Hlen.
  pose proof (all_digits_itoa n) as Hds.
  destruct prec as [|q]; [contradiction|].
  eexists _, _, _, _. split; [reflexivity|].
  split; [now apply all_digits_substring|].
  split; [apply length_substring; lia|].
  split; [now apply all_digits_substring|].
  split; [apply length_substring; lia|].
  split; [destruct (k <? 0)%Z; auto|].
  split.
  - unfold strconv.pad_left.
    apply all_digits_append; [apply all_digits_zeros | apply all_digits_itoa].
  - apply length_pad_left.
Qed.

Lemma fraction_positive (m : positive) (e : Z) :
  let '(num, den) := strconv.fraction m e in (0 < num)%Z /\ (0 < den)%Z.
Proof.
  unfold strconv.fraction. destruct (0 <=? e)%Z eqn:He.
  - apply Z.leb_le in He. assert (0 < 2 ^ e)%Z by (apply Z.pow_pos_nonneg; lia). nia.
  - apply Z.leb_gt in He. assert (0 < 2 ^ (- e))%Z by (apply Z.pow_pos_nonneg; lia). lia.
Qed.

(** Verb [e] with a precision above [0] prints a finite number as an
    optional minus sign, one digit, a point, exactly [prec] digits, [e],
    the sign of the exponent and at least two digits. *)
Lemma FormatFloat_e_digits (x : float) (prec : nat) :
  prec <> 0%nat ->
  PrimFloat.is_finite x = true ->
  exists sign d frac esign ex : string,
    strconv.FormatFloat x strconv.verb_e prec
    = sign ++ (d ++ "." ++ frac) ++ "e" ++ esign ++ ex
    /\ (sign = "" \/ sign = "-")
    /\ all_digits d = true /\ String.length d = 1%nat
    /\ all_digits frac = true /\ String.length frac = prec
    /\ (esign = "+" \/ esign = "-")
    /\ all_digits ex = true /\ 2 <= String.length ex.
Proof.
  intros Hprec Hfin.
  assert (Hsign : forall b : bool, (if b then "-" else "") = "" \/ (if b then "-" else "") = "-")
    by (intros []; auto).
  assert (Hzero : forall s : bool,
             exists sign d frac esign ex : string,
               (if s then "-" else "")
               ++ match prec with O => "0" | _ => "0." ++ strconv.zeros prec end ++ "e+00"
               = sign ++ (d ++ "." ++ frac) ++ "e" ++ esign ++ ex
               /\ (sign = "" \/ sign = "-")
               /\ all_digits d = true /\ String.length d = 1%nat
               /\ all_digits frac = true /\ String.length frac = prec
               /\ (esign = "+" \/ esign = "-")
               /\ all_digits ex = true /\ 2 <= String.length ex).
  { intros s. exists (if s then "-" else ""), "0", (strconv.zeros prec), "+", "00".
    destruct prec as [|q]; [contradiction|].
    split; [reflexivity|]. split; [apply Hsign|].
    split; [reflexivity|]. split; [reflexivity|].
    split; [apply all_digits_zeros|]. split; [apply length_zeros|].
    split; [now left|]. split; [reflexivity | cbn; lia]. }
  unfold strconv.FormatFloat.
  destruct (Prim2SF x) as [s|s| |s m e] eqn:Hx.
  - apply Hzero.
  - exfalso. unfold PrimFloat.is_finite, PrimFloat.is_infinity in Hfin.
    rewrite FloatAxioms.eqb_spec, FloatAxioms.abs_spec, Hx in Hfin.
    rewrite orb_true_r in Hfin. discriminate.
  - exfalso. unfold PrimFloat.is_finite, PrimFloat.is_nan in Hfin.
    rewrite FloatAxioms.eqb_spec, Hx in Hfin. discriminate.
  - pose proof (fraction_positive m e) as Hpos.
    destruct (strconv.fraction m e) as [num den]. destruct Hpos as [Hnum Hden].
    destruct (scientific_digits prec num den Hprec Hnum Hden)
      as (d & frac & esign & ex & -> & H).
    exists (if s then "-" else ""), d, frac, esign, ex.
    split; [reflexivity | split; [apply Hsign | exact H]].
Qed.

(** *** The shape of fixed notation without decimals *)

Lemma fixed_0_digits (num den : Z) :
  all_digits (strconv.fixed 0 num den) = true
  /\ 1 <= String.length (strconv.fixed 0 num den).
Proof.
  unfold strconv.fixed.
  set (ds := strconv.pad_left 1 _).
  assert (Hlen : 1 <= String.length ds) by apply length_pad_left.
  assert (Hds : all_digits ds = true).
  { unfold ds, strconv.pad_left.
    apply all_digits_append; [apply all_digits_zeros | apply all_digits_itoa]. }
  split; [now apply all_digits_substring|].
  rewrite length_substring; lia.
Qed.

Lemma FormatFloat_f_0_digits (x : float) :
  PrimFloat.is_finite x = true ->
  exists sign ip : string,
    strconv.FormatFloat x strconv.verb_f 0 = sign ++ ip
    /\ (sign = "" \/ sign = "-")
    /\ all_digits ip = true /\ 1 <= String.length ip.
Proof.
  intros Hfin. unfold strconv.FormatFloat, Prim2SF.
  unfold PrimFloat.is_finite in Hfin.
  destruct (PrimFloat.is_nan x); [discriminate|].
  assert (Hsign : forall b : bool, (if b then "-" else "") = "" \/ (if b then "-" else "") = "-")
    by (intros []; auto).
  destruct (PrimFloat.is_zero x).
  - exists (if get_sign x then "-" else ""), (strconv.fixed 0 0 1).
    split; [reflexivity | split; [apply Hsign | apply fixed_0_digits]].
  - destruct (PrimFloat.is_infinity x); [discriminate|].
    destruct (Z.frexp x) as [r e].
    destruct (shr_fexp _ _ _ _ _) as [shr e'].
    destruct (shr_m shr) as [|p|p].
    + exists "", (strconv.fixed 0 0 1).
      split; [reflexivity | split; [now left | apply fixed_0_digits]].
    + destruct (strconv.fraction p e') as [num den].
      exists (if get_sign x then "-" else ""), (strconv.fixed 0 num den).
      split; [reflexivity | split; [apply Hsign | apply fixed_0_digits]].
    + exists "", (strconv.fixed 0 0 1).
      split; [reflexivity | split; [now left | apply fixed_0_digits]].
Qed.

(** C6, as the claim has it, fails on the results that are not finite:
    an infinity is above [1000000] and is printed as ["+Inf"] or ["-Inf"],
    with no digit, point or exponent, and NaN, which is neither below nor
    above anything, is printed as ["NaN"]. *)
Lemma FormatResult_by_magnitude_counterexample :
  (1000000 <? abs infinity)%float = true
  /\ FormatResult NewUnitConverter infinity "m" = "+Inf m"
  /\ (1000000 <? abs neg_infinity)%float = true
  /\ FormatResult NewUnitConverter neg_infinity "m" = "-Inf m"
  /\ strconv.FormatFloat infinity strconv.verb_e 6 = "+Inf"
  /\ existsb (fun c => Ascii.eqb c "." || Ascii.eqb c "e")
       (list_ascii_of_string "+Inf m") = false
  /\ (abs nan <? 0.001)%float = false
  /\ (1000000 <? abs nan)%float = false
  /\ FormatResult NewUnitConverter nan "m" = "NaN m".
Proof. repeat split; vm_compute; reflexivity. Qed.

(** C6, as the code has it.  For a finite [result] and [a = |result|]:
    outside [0.001 <= a <= 1000000] the result is printed in scientific
    notation with 6 digits after the point; inside, in fixed notation with
    0 decimals from 1000 up, 1 from 100, 2 from 10, 3 from 1 and 4 below
    1; a space and the unit follow.  Scientific notation is an optional
    minus sign, one digit, a point, exactly 6 digits, [e], the sign of the
    exponent and two digits or more; fixed notation is an optional minus
    sign and digits, with a point and exactly [n] digits after it when
    [n] is not [0].  [format(1500000, "m")] is ["1.500000e+06 m"],
    [format(42.5, "kg")] is ["42.50 kg"], [format(0.0005, "s")] is
    ["5.000000e-04 s"], and a negative result is printed as its
    magnitude is, with a minus sign. *)
Theorem FormatResult_by_magnitude :
  (forall (uc : UnitConverter) (result : float) (unit : string),
      PrimFloat.is_finite result = true ->
      let a := abs result in
      let scientific := strconv.FormatFloat result strconv.verb_e 6 ++ " " ++ unit in
      let fixed n := strconv.FormatFloat result strconv.verb_f n ++ " " ++ unit in
      ((a <? 0.001)%float = true \/ (1000000 <? a)%float = true ->
       FormatResult uc result unit = scientific)
      /\ ((a <? 0.001)%float = false /\ (1000000 <? a)%float = false ->
          ((1000 <=? a)%float = true -> FormatResult uc result unit = fixed 0%nat)
          /\ ((100 <=? a)%float = true -> (a <? 1000)%float = true ->
              FormatResult uc result unit = fixed 1%nat)
          /\ ((10 <=? a)%float = true -> (a <? 100)%float = true ->
              FormatResult uc result unit = fixed 2%nat)
          /\ ((1 <=? a)%float = true -> (a <? 10)%float = true ->
              FormatResult uc result unit = fixed 3%nat)
          /\ ((a <? 1)%float = true -> FormatResult uc result unit = fixed 4%nat))
      /\ (exists sign d frac esign ex : string,
            strconv.FormatFloat result strconv.verb_e 6
            = sign ++ (d ++ "." ++ frac) ++ "e" ++ esign ++ ex
            /\ (sign = "" \/ sign = "-")
            /\ all_digits d = true /\ String.length d = 1%nat
            /\ all_digits frac = true /\ String.length frac = 6%nat
            /\ (esign = "+" \/ esign = "-")
            /\ all_digits ex = true /\ 2 <= String.length ex)
      /\ (exists sign ip : string,
            strconv.FormatFloat result strconv.verb_f 0 = sign ++ ip
            /\ (sign = "" \/ sign = "-")
            /\ all_digits ip = true /\ 1 <= String.length ip)
      /\ (forall n : nat, n <> 0%nat ->
          exists sign ip fp : string,
            strconv.FormatFloat result strconv.verb_f n = sign ++ ip ++ "." ++ fp
            /\ (sign = "" \/ sign = "-")
            /\ all_digits ip = true /\ 1 <= String.length ip
            /\ all_digits fp = true /\ String.length fp = n))
  /\ FormatResult NewUnitConverter 1500000 "m" = "1.500000e+06 m"
  /\ FormatResult NewUnitConverter 42.5 "kg" = "42.50 kg"
  /\ FormatResult NewUnitConverter 0.0005 "s" = "5.000000e-04 s"
  /\ FormatResult NewUnitConverter (-1500000) "m" = "-1.500000e+06 m"
  /\ FormatResult NewUnitConverter (-42.5) "kg" = "-42.50 kg"
  /\ FormatResult NewUnitConverter (-0.0005) "s" = "-5.000000e-04 s"
  /\ FormatResult NewUnitConverter (-1234.5) "m" = "-1234 m"
  /\ FormatResult NewUnitConverter (-0.25) "m" = "-0.2500 m".
Proof.
  split; [ | repeat split; vm_compute; reflexivity].
  intros uc result unit Hfin a scientific fixed.
  assert (Hbelow : forall b c : float,
             (a <? b)%float = true -> (b <=? c)%float = true ->
             (c <=? a)%float = false)
    by (intros b c; apply float_lt_le_not_le).
  split; [ | split; [ | split; [ | split]]].
  - intros Hsci. unfold FormatResult, math.Abs. fold a.
    destruct Hsci as [-> | ->]; [reflexivity | now rewrite orb_true_r].
  - intros [Hlo Hhi]. rewrite (FormatResult_fixed uc result unit Hlo Hhi).
    unfold math.Abs. fold a.
    repeat split.
    + intros ->. reflexivity.
    + intros H100 H1000.
      rewrite (Hbelow 1000 1000 H1000 eq_refl)%float, H100. reflexivity.
    + intros H10 H100.
      rewrite (Hbelow 100 1000 H100 eq_refl)%float, (Hbelow 100 100 H100 eq_refl)%float,
        H10. reflexivity.
    + intros H1 H10.
      rewrite (Hbelow 10 1000 H10 eq_refl)%float, (Hbelow 10 100 H10 eq_refl)%float,
        (Hbelow 10 10 H10 eq_refl)%float, H1. reflexivity.
    + intros H1.
      rewrite (Hbelow 1 1000 H1 eq_refl)%float, (Hbelow 1 100 H1 eq_refl)%float,
        (Hbelow 1 10 H1 eq_refl)%float, (Hbelow 1 1 H1 eq_refl)%float. reflexivity.
  - now apply FormatFloat_e_digits.
  - now apply FormatFloat_f_0_digits.
  - intros n Hn. now apply FormatFloat_f_digits.
Qed.

Lemma FormatResult_by_magnitude_witness :
  FormatResult NewUnitConverter (-250.75) "km"
  = strconv.FormatFloat (-250.75) strconv.verb_f 1 ++ " " ++ "km"
  /\ FormatResult NewUnitConverter (-0.0000123) "km"
     = strconv.FormatFloat (-0.0000123) strconv.verb_e 6 ++ " " ++ "km".
Proof.
  destruct FormatResult_by_magnitude as [H _].
  destruct (H NewUnitConverter (-250.75)%float "km" eq_refl) as (_ & Hfixed & _).
  destruct (H NewUnitConverter (-0.0000123)%float "km" eq_refl) as (Hsci & _).
  split.
  - exact (proj1 (proj2 (Hfixed (conj eq_refl eq_refl))) eq_refl eq_refl).
  - exact (Hsci (or_introl eq_refl)).
Defined.

(** ** The [/convert] handler *)

(** What the handler does with a request that parses and converts: the
    status is [200] and the body is the result printed by ["%.3f %s"]. *)
Lemma convertHandler_success
    (ParseFloat : string -> option float) (uc : UnitConverter)
    (method : string) (form : gmap string (list string))
    (value result : float) :
  method = "POST" ->
  http.FormValue form "value" <> "" ->
  http.FormValue form "from" <> "" ->
  http.FormValue form "to" <> "" ->
  ParseFloat (http.FormValue form "value") = Some value ->
  Convert uc value (http.FormValue form "from") (http.FormValue form "to")
  = (result, None) ->
  convertHandler ParseFloat uc http.NewResponseWriter (http.mkRequest method (Some form))
  = http.mkResponseWriter
      {["Content-Type" := "application/json"]}
      (Some 200%Z)
      [http.Text (strconv.FormatFloat result strconv.verb_f 3 ++ " "
                  ++ http.FormValue form "to")].
Proof.
  intros -> Hvalue Hfrom Hto Hparse Hconv. unfold convertHandler.
  cbn [http.Method http.Form]. change (String.eqb "POST" http.MethodPost) with true.
  cbn [negb]. apply String.eqb_neq in Hvalue, Hfrom, Hto.
  rewrite Hvalue, Hfrom, Hto. cbn [orb]. rewrite Hparse, Hconv. reflexivity.
Qed.



(** C8. A POST with [value=10], [from=kg], [to=g] is answered with status
    [200] and the body ["10000.000 g"], whatever else the form holds, as
    soon as ["10"] parses to [10]. *)
Theorem convertHandler_10_kg_g
    (ParseFloat : string -> option float) (form : gmap string (list string)) :
  ParseFloat "10" = Some 10%float ->
  http.FormValue form "value" = "10" ->
  http.FormValue form "from" = "kg" ->
  http.FormValue form "to" = "g" ->
  let w := convertHandler ParseFloat NewUnitConverter http.NewResponseWriter
             (http.mkRequest "POST" (Some form)) in
  http.Status w = Some 200%Z /\ http.Body w = [http.Text "10000.000 g"].
Proof.
  intros Hparse Hvalue Hfrom Hto w. subst w.
  rewrite (convertHandler_success ParseFloat NewUnitConverter "POST" form
             10%float 10000%float eq_refl);
    rewrite ?Hvalue, ?Hfrom, ?Hto; try discriminate; try assumption.
  - split; reflexivity.
  - vm_compute. reflexivity.
Qed.

Lemma convertHandler_10_kg_g_witness :
  http.Status (convertHandler strconv.ParseFloat NewUnitConverter
                 http.NewResponseWriter request_10_kg_g) = Some 200%Z
  /\ http.Body (convertHandler strconv.ParseFloat NewUnitConverter
                  http.NewResponseWriter request_10_kg_g)
     = [http.Text "10000.000 g"].
Proof.
  refine (convertHandler_10_kg_g strconv.ParseFloat
            (list_to_map [("value", ["10"]); ("from", ["kg"]); ("to", ["g"])])
            _ _ _ _).
  - vm_compute. reflexivity.
  - vm_compute. reflexivity.
  - vm_compute. reflexivity.
  - vm_compute. reflexivity.
Defined.

(** ** Identity and round trip *)

Local Open Scope Q_scope.

(** *** [Q_of_float] and [F2Q] *)

Lemma Q_of_float_F2Q (x : float) (q : Q) :
  Q_of_float x = Some q -> Ffin x = true /\ q == F2Q x.
Proof.
  unfold Q_of_float, exact, Ffin, F2Q.
  destruct (Prim2SF x) as [s|s| |s m e]; try discriminate; intros [= <-].
  - split; [reflexivity|]. rewrite SF2Q_zero. reflexivity.
  - split; [reflexivity|]. rewrite SF2Q_finite. destruct s; cbn [signed]; unfold pow2.
    + change (inject_Z (Z.neg m)) with (- inject_Z (Z.pos m)). ring.
    + reflexivity.
Qed.

Lemma Ffin_Q_of_float (x : float) :
  Ffin x = true -> exists q, Q_of_float x = Some q /\ q == F2Q x.
Proof.
  intros Hx.
  assert (H : exists q, Q_of_float x = Some q).
  { unfold Q_of_float, exact. unfold Ffin in Hx.
    destruct (Prim2SF x); try discriminate; eauto. }
  destruct H as [q Hq]. exists q. split; [exact Hq|].
  exact (proj2 (Q_of_float_F2Q x q Hq)).
Qed.

Lemma in_range_spec (lo hi : Q) (x : float) :
  in_range lo hi x = true -> Ffin x = true /\ lo <= F2Q x /\ F2Q x <= hi.
Proof.
  unfold in_range. destruct (Q_of_float x) as [q|] eqn:Hq; [|discriminate].
  destruct (Q_of_float_F2Q x q Hq) as [Hf Hv]. intros H.
  apply andb_prop in H as [H1 H2]. apply Qle_bool_iff in H1, H2.
  rewrite <- Hv. auto.
Qed.

(** *** The table *)

Lemma table_checked :
  map_Forall (fun _ u => unit_range u = true) (units NewUnitConverter).
Proof. apply (bool_decide_unpack _). vm_compute. exact I. Qed.

(** The reciprocal of a factor. *)
Lemma reciprocal (x lo : Q) :
  0 < lo -> lo <= x ->
  0 < / x /\ / x * x == 1 /\ / x * lo <= 1.
Proof.
  intros Hlo Hx. assert (Hx0 : 0 < x) by lra.
  assert (Hi : 0 < / x) by (apply Qinv_lt_0_compat; exact Hx0).
  assert (He : / x * x == 1) by (rewrite Qmult_comm; apply Qmult_inv_r; lra).
  split; [exact Hi | split; [exact He|]].
  rewrite <- He. apply mult_le_l; lra.
Qed.

Lemma Vmax_facts :
  1 <= Vmax /\ Vmax * 1000000000000000000000000000 <= Wmax.
Proof. split; now vm_compute. Qed.

Lemma Vmax_Wmax : Vmax <= Wmax.
Proof. now vm_compute. Qed.

(** *** [Convert] between two units of a ratio scale *)

Lemma ratio_round (v f g : float) (ig : Q) :
  Ffin v = true -> Ffin f = true -> Ffin g = true ->
  Qabs (F2Q v) <= Wmax ->
  0 < F2Q f -> F2Q f <= 10000000000000 ->
  0 < ig -> ig <= 10000000000000 -> ig * F2Q g == 1 ->
  let W := F2Q v * F2Q f * ig in
  Ffin (round_result (v * f / g)) = true
  /\ Qabs (F2Q (round_result (v * f / g)) - W)
     <= (502 # 1000000000000000) + (7 # 10000000000000000) * Qabs W.
Proof.
  intros Hv Hf Hg HV Hphi0 Hphi Hig0 Hig Hinv W.
  destruct (ratio_error v f g ig Hv Hf Hg HV Hphi0 Hphi Hig0 Hig Hinv) as [Hyf Hyerr].
  fold W in Hyerr.
  destruct Wmax_facts as [HV1 HV2].
  assert (HW : Qabs W <= Wmax * 10000000000000 * 10000000000000).
  { unfold W. apply Qabs_mult_le; [apply Qabs_mult_le|].
    - exact HV.
    - rewrite Qabs_pos by lra. exact Hphi.
    - rewrite Qabs_pos by lra. exact Hig. }
  clearbody W. apply Qabs_le_iff in Hyerr.
  destruct (Qabs_bounds W) as (HW0 & HW1 & HW2).
  assert (Hy : Qabs (F2Q (v * f / g)) <= (11 # 10) * Qabs W + 1).
  { apply Qabs_le_iff. lra. }
  destruct (round_result_error (v * f / g) Hyf) as [Hrf Hrerr].
  { lra. }
  split; [exact Hrf|].
  apply Qabs_le_iff in Hrerr. revert Hrerr Hy. generalize (Qabs (F2Q (v * f / g))).
  intros aY Hrerr Hy. apply Qabs_le_iff. lra.
Qed.

(** *** [Convert] between two temperature units *)

Lemma affine_round (v f a b g : float) (ig : Q) :
  Ffin v = true -> Ffin f = true -> Ffin a = true -> Ffin b = true -> Ffin g = true ->
  Qabs (F2Q v) <= Wmax ->
  0 < F2Q f -> F2Q f <= 1 ->
  0 <= F2Q a -> F2Q a <= 274 -> 0 <= F2Q b -> F2Q b <= 274 ->
  0 < ig -> ig <= 2 -> ig * F2Q g == 1 ->
  let X := F2Q v * F2Q f in
  let W := (X + F2Q a - F2Q b) * ig in
  Ffin (round_result ((v * f + a - b) / g)) = true
  /\ Qabs (F2Q (round_result ((v * f + a - b) / g)) - W)
     <= (502 # 1000000000000000) + (45 # 100000000000000000) * Qabs W
        + (13 # 100000000000000000) * (3 * (Qabs X * ig) + (2 * F2Q a + F2Q b) * ig).
Proof.
  intros Hv Hf Ha Hb Hg HV Hphi0 Hphi Ha0 Ha1 Hb0 Hb1 Hig0 Hig Hinv X W.
  destruct (affine_error v f a b g ig Hv Hf Ha Hb Hg HV Hphi0 Hphi Ha0 Ha1 Hb0 Hb1
              Hig0 Hig Hinv) as [Hyf Hyerr].
  fold X W in Hyerr.
  destruct Wmax_facts as [HV1 HV2].
  assert (HX : Qabs X <= Wmax).
  { apply Qle_trans with (Wmax * 1); [|lra].
    apply Qabs_mult_le; [exact HV|]. rewrite Qabs_pos by lra. exact Hphi. }
  assert (HWeq : W == X * ig + F2Q a * ig - F2Q b * ig) by (unfold W; ring).
  clearbody W X.
  destruct (Qabs_bounds X) as (HX0 & HX1 & HX2).
  pose proof (scale_bounds X (Qabs X) ig (Qlt_le_weak _ _ Hig0) (conj HX1 HX2)) as HsX.
  assert (HXig0 : 0 <= Qabs X * ig) by (apply Qmult_le_0_compat; lra).
  assert (Haig0 : 0 <= F2Q a * ig) by (apply Qmult_le_0_compat; lra).
  assert (Hbig0 : 0 <= F2Q b * ig) by (apply Qmult_le_0_compat; lra).
  assert (HXig : Qabs X * ig <= Wmax * 2) by (apply mult_le; lra).
  assert (Haig : F2Q a * ig <= 274 * 2) by (apply mult_le; lra).
  assert (Hbig : F2Q b * ig <= 274 * 2) by (apply mult_le; lra).
  assert (HaW : Qabs W <= Wmax * 2 + 1096) by (apply Qabs_le_iff; lra).
  apply Qabs_le_iff in Hyerr.
  destruct (Qabs_bounds W) as (HW0 & HW1 & HW2).
  revert Hyerr HX HX0 HX1 HX2 HsX HXig0 HXig. generalize (Qabs X).
  intros aX Hyerr HX HX0 HX1 HX2 HsX HXig0 HXig.
  assert (Hy : Qabs (F2Q ((v * f + a - b) / g))
               <= Qabs W + (12 # 100000000000000000)
                           * (Qabs W + 3 * (aX * ig) + (2 * F2Q a + F2Q b) * ig)
                  + (1 # 100000000000000000000)).
  { apply Qabs_le_iff. lra. }
  destruct (round_result_error ((v * f + a - b) / g) Hyf) as [Hrf Hrerr].
  { revert Hy. generalize (Qabs (F2Q ((v * f + a - b) / g))). intros aY Hy. lra. }
  split; [exact Hrf|].
  apply Qabs_le_iff in Hrerr. revert Hrerr Hy. generalize (Qabs (F2Q ((v * f + a - b) / g))).
  intros aY Hrerr Hy. revert HW0 HW1 HW2 HaW Hyerr Hrerr Hy. generalize (Qabs W).
  intros aW HW0 HW1 HW2 HaW Hyerr Hrerr Hy.
  apply Qabs_le_iff. lra.
Qed.

(** *** What the table says of two units *)

Lemma ratio_unit (u : Unit) :
  unit_range u = true -> Dimension u <> "temperature" ->
  Ffin (Factor u) = true
  /\ 0 < F2Q (Factor u) /\ F2Q (Factor u) <= 10000000000000
  /\ 0 < / F2Q (Factor u) /\ / F2Q (Factor u) <= 10000000000000
  /\ / F2Q (Factor u) * F2Q (Factor u) == 1.
Proof.
  intros Hr Hd. unfold unit_range in Hr. apply String.eqb_neq in Hd. rewrite Hd in Hr.
  apply andb_prop in Hr as [Hf _]. apply in_range_spec in Hf as (Hfin & Hlo & Hhi).
  destruct (reciprocal (F2Q (Factor u)) (1 # 10000000000000)) as (Hi0 & Hie & Hil);
    [lra | exact Hlo |].
  repeat split; try assumption; lra.
Qed.

Lemma temperature_unit (u : Unit) :
  unit_range u = true -> Dimension u = "temperature" ->
  Ffin (Factor u) = true /\ Ffin (Offset u) = true
  /\ 0 < F2Q (Factor u) /\ F2Q (Factor u) <= 1
  /\ 0 <= F2Q (Offset u) /\ F2Q (Offset u) <= 274
  /\ 0 < / F2Q (Factor u) /\ / F2Q (Factor u) <= 2
  /\ / F2Q (Factor u) * F2Q (Factor u) == 1.
Proof.
  intros Hr Hd. unfold unit_range in Hr. apply String.eqb_eq in Hd. rewrite Hd in Hr.
  apply andb_prop in Hr as [Hf Ho].
  apply in_range_spec in Hf as (Hfin & Hlo & Hhi).
  apply in_range_spec in Ho as (Hofin & Holo & Hohi).
  destruct (reciprocal (F2Q (Factor u)) (1 # 2)) as (Hi0 & Hie & Hil);
    [lra | exact Hlo |].
  repeat split; try assumption; lra.
Qed.

(** *** Identity *)

Lemma identity_error (u : Unit) (v : float) :
  unit_range u = true -> Ffin v = true -> Qabs (F2Q v) <= Wmax ->
  Ffin (convert_units u u v) = true
  /\ Qabs (F2Q (convert_units u u v) - F2Q v)
     <= (1 # 1000000000000) + (1 # 1000000000000000) * Qabs (F2Q v).
Proof.
  intros Hr Hv HV. unfold convert_units, unrounded.
  destruct (String.eqb (Dimension u) "temperature") eqn:Hd.
  - apply String.eqb_eq in Hd.
    destruct (temperature_unit u Hr Hd) as (Hf & Ho & Hf0 & Hf1 & Ho0 & Ho1 & Hi0 & Hi1 & Hie).
    destruct (affine_round v (Factor u) (Offset u) (Offset u) (Factor u) (/ F2Q (Factor u))
                Hv Hf Ho Ho Hf HV Hf0 Hf1 Ho0 Ho1 Ho0 Ho1 Hi0 Hi1 Hie) as [Hrf Hrerr].
    split; [exact Hrf|].
    assert (HW : (F2Q v * F2Q (Factor u) + F2Q (Offset u) - F2Q (Offset u)) * / F2Q (Factor u)
                 == F2Q v).
    { transitivity (F2Q v * (/ F2Q (Factor u) * F2Q (Factor u))); [ring | rewrite Hie; ring]. }
    assert (HX : Qabs (F2Q v * F2Q (Factor u)) * / F2Q (Factor u) == Qabs (F2Q v)).
    { rewrite Qabs_Qmult, (Qabs_pos (F2Q (Factor u))) by lra.
      transitivity (Qabs (F2Q v) * (/ F2Q (Factor u) * F2Q (Factor u))); [ring | rewrite Hie; ring]. }
    rewrite HW, HX in Hrerr.
    assert (Hoi : F2Q (Offset u) * / F2Q (Factor u) <= 274 * 2) by (apply mult_le; lra).
    pose proof (Qabs_nonneg (F2Q v)).
    eapply Qle_trans; [exact Hrerr|]. revert H. generalize (Qabs (F2Q v)). intros aV H. lra.
  - apply String.eqb_neq in Hd.
    destruct (ratio_unit u Hr Hd) as (Hf & Hf0 & Hf1 & Hi0 & Hi1 & Hie).
    destruct (ratio_round v (Factor u) (Factor u) (/ F2Q (Factor u))
                Hv Hf Hf HV Hf0 Hf1 Hi0 Hi1 Hie) as [Hrf Hrerr].
    split; [exact Hrf|].
    assert (HW : F2Q v * F2Q (Factor u) * / F2Q (Factor u) == F2Q v).
    { transitivity (F2Q v * (/ F2Q (Factor u) * F2Q (Factor u))); [ring | rewrite Hie; ring]. }
    rewrite HW in Hrerr.
    pose proof (Qabs_nonneg (F2Q v)).
    eapply Qle_trans; [exact Hrerr|]. revert H. generalize (Qabs (F2Q v)). intros aV H. lra.
Qed.

(** *** Round trip *)

Lemma round_trip_ratio (a b : Unit) (v : float) :
  unit_range a = true -> unit_range b = true ->
  Dimension a <> "temperature" -> Dimension b <> "temperature" ->
  Ffin v = true -> (1 # 100) <= Qabs (F2Q v) -> Qabs (F2Q v) <= Vmax ->
  let w := round_result (v * Factor a / Factor b) in
  let r := round_result (w * Factor b / Factor a) in
  Ffin w = true /\ Ffin r = true
  /\ ((1 # 100) <= Qabs (F2Q w) ->
      Qabs (F2Q r - F2Q v) <= (1 # 1000000000) * Qabs (F2Q v)).
Proof.
  intros Hra Hrb Hda Hdb Hv HV0 HV w r.
  destruct (ratio_unit a Hra Hda) as (Hfa & Hfa0 & Hfa1 & Hia0 & Hia1 & Hiae).
  destruct (ratio_unit b Hrb Hdb) as (Hfb & Hfb0 & Hfb1 & Hib0 & Hib1 & Hibe).
  destruct Vmax_facts as [HV1 HV2]. destruct Wmax_facts as [HW1 _].
  set (phi := F2Q (Factor a)) in *. set (gamma := F2Q (Factor b)) in *.
  set (iphi := / phi) in *. set (igamma := / gamma) in *.
  (* there *)
  destruct (ratio_round v (Factor a) (Factor b) igamma Hv Hfa Hfb) as [Hwf Hwerr];
    try assumption; [lra|].
  fold phi w in Hwerr. fold w in Hwf.
  assert (HW : Qabs (F2Q v * phi * igamma) <= Vmax * 10000000000000 * 10000000000000).
  { apply Qabs_mult_le; [apply Qabs_mult_le|].
    - exact HV.
    - rewrite Qabs_pos by lra. exact Hfa1.
    - rewrite Qabs_pos by lra. exact Hib1. }
  assert (Hw : Qabs (F2Q w) <= Wmax).
  { apply Qabs_le_iff in Hwerr.
    destruct (Qabs_bounds (F2Q v * phi * igamma)) as (H0 & H1 & H2).
    revert Hwerr HW H0 H1 H2. generalize (Qabs (F2Q v * phi * igamma)).
    intros aW Hwerr HW H0 H1 H2. apply Qabs_le_iff. lra. }
  (* and back *)
  destruct (ratio_round w (Factor b) (Factor a) iphi Hwf Hfb Hfa) as [Hrf Hrerr];
    try assumption.
  fold gamma r in Hrerr. fold r in Hrf.
  split; [exact Hwf | split; [exact Hrf|]]. intros Hw0.
  (* on rationals *)
  set (rho := gamma * iphi).
  assert (Hrho : 0 < rho) by (apply Qmult_lt_0_compat; assumption).
  assert (HWV : F2Q v * phi * igamma * rho == F2Q v).
  { unfold rho. transitivity (F2Q v * (iphi * phi) * (igamma * gamma)); [ring|].
    rewrite Hiae, Hibe. ring. }
  assert (HR : F2Q w * gamma * iphi == F2Q w * rho) by (unfold rho; ring).
  rewrite HR in Hrerr. clear HR.
  assert (HaWV : Qabs (F2Q v * phi * igamma) * rho == Qabs (F2Q v)).
  { rewrite <- HWV at 2. rewrite (Qabs_Qmult _ rho), (Qabs_pos rho) by lra. reflexivity. }
  clearbody rho. clear HW Hw.
  revert Hwerr HWV HaWV. generalize (F2Q v * phi * igamma). intros W Hwerr HWV HaWV.
  apply Qabs_le_iff in Hwerr.
  pose proof (scale_bounds _ _ rho (Qlt_le_weak _ _ Hrho) Hwerr) as Hs.
  destruct (Qabs_bounds W) as (HW0 & HWl & HWu).
  assert (Hwq : Qabs (F2Q w)
                <= Qabs W + ((502 # 1000000000000000) + (7 # 10000000000000000) * Qabs W)).
  { apply Qabs_le_iff. lra. }
  assert (HaW : (99 # 10000) <= Qabs W).
  { revert Hw0 Hwq. generalize (Qabs (F2Q w)). intros aw Hw0 Hwq. lra. }
  assert (Hrho1 : (99 # 10000) * rho <= Qabs W * rho).
  { apply Qmult_le_compat_r; [exact HaW | lra]. }
  destruct (Qabs_bounds (F2Q v)) as (HV0' & HVl & HVu).
  revert HV0 HV HaWV HVl HVu. generalize (Qabs (F2Q v)). intros aV HV0 HV HaWV HVl HVu.
  clear Hwq Hw0 Hwerr.
  revert Hs HaW Hrho1 HaWV HW0 HWl HWu. generalize (Qabs W).
  intros aW Hs HaW Hrho1 HaWV HW0 HWl HWu.
  assert (HR : Qabs (F2Q w * rho)
               <= aV + ((502 # 1000000000000000) * rho + (7 # 10000000000000000) * aV)).
  { apply Qabs_le_iff. lra. }
  apply Qabs_le_iff in Hrerr. revert Hrerr HR. generalize (Qabs (F2Q w * rho)).
  intros aR Hrerr HR. apply Qabs_le_iff. lra.
Qed.

Lemma round_trip_temperature (a b : Unit) (v : float) :
  unit_range a = true -> unit_range b = true ->
  Dimension a = "temperature" -> Dimension b = "temperature" ->
  Ffin v = true -> (1 # 100) <= Qabs (F2Q v) -> Qabs (F2Q v) <= Vmax ->
  let w := round_result ((v * Factor a + Offset a - Offset b) / Factor b) in
  let r := round_result ((w * Factor b + Offset b - Offset a) / Factor a) in
  Ffin w = true /\ Ffin r = true
  /\ Qabs (F2Q r - F2Q v) <= (1 # 1000000000) * Qabs (F2Q v).
Proof.
  intros Hra Hrb Hda Hdb Hv HV0 HV w r.
  destruct (temperature_unit a Hra Hda)
    as (Hfa & Hoa & Hfa0 & Hfa1 & Hoa0 & Hoa1 & Hia0 & Hia1 & Hiae).
  destruct (temperature_unit b Hrb Hdb)
    as (Hfb & Hob & Hfb0 & Hfb1 & Hob0 & Hob1 & Hib0 & Hib1 & Hibe).
  destruct Vmax_facts as [HV1 HV2]. destruct Wmax_facts as [HW1 _].
  set (phi := F2Q (Factor a)) in *. set (gamma := F2Q (Factor b)) in *.
  set (alpha := F2Q (Offset a)) in *. set (beta := F2Q (Offset b)) in *.
  set (iphi := / phi) in *. set (igamma := / gamma) in *.
  (* there *)
  destruct (affine_round v (Factor a) (Offset a) (Offset b) (Factor b) igamma
              Hv Hfa Hoa Hob Hfb) as [Hwf Hwerr]; try assumption; [lra|].
  fold phi alpha beta w in Hwerr. fold w in Hwf.
  set (X := F2Q v * phi) in *. set (W := (X + alpha - beta) * igamma) in *.
  assert (HaX : Qabs X <= Qabs (F2Q v)).
  { apply Qle_trans with (Qabs (F2Q v) * 1); [|lra].
    apply Qabs_mult_le; [apply Qle_refl|]. rewrite Qabs_pos by lra. exact Hfa1. }
  assert (HWeq : W == X * igamma + alpha * igamma - beta * igamma) by (unfold W; ring).
  assert (HWg : W * gamma == X + alpha - beta).
  { unfold W. transitivity ((X + alpha - beta) * (igamma * gamma)); [ring|].
    rewrite Hibe. ring. }
  assert (HXV : X * iphi == F2Q v).
  { unfold X. transitivity (F2Q v * (iphi * phi)); [ring | rewrite Hiae; ring]. }
  clearbody W X.
  destruct (Qabs_bounds X) as (HX0 & HXl & HXu).
  pose proof (scale_bounds X (Qabs X) igamma (Qlt_le_weak _ _ Hib0) (conj HXl HXu)) as HsX.
  assert (HXig0 : 0 <= Qabs X * igamma) by (apply Qmult_le_0_compat; lra).
  assert (HXig : Qabs X * igamma <= Qabs (F2Q v) * 2).
  { apply mult_le; lra. }
  assert (Haig0 : 0 <= alpha * igamma) by (apply Qmult_le_0_compat; lra).
  assert (Hbig0 : 0 <= beta * igamma) by (apply Qmult_le_0_compat; lra).
  assert (Haig : alpha * igamma <= 274 * 2) by (apply mult_le; lra).
  assert (Hbig : beta * igamma <= 274 * 2) by (apply mult_le; lra).
  assert (HaW : Qabs W <= 2 * Qabs (F2Q v) + 1096) by (apply Qabs_le_iff; lra).
  assert (HE1 : Qabs (F2Q w - W)
                <= (121 # 100000000000000) + (17 # 10000000000000000) * Qabs (F2Q v)).
  { eapply Qle_trans; [exact Hwerr|].
    pose proof (Qabs_nonneg W) as HW0.
    revert HXig0 HXig HaX HX0. generalize (Qabs X). revert HaW HW0. generalize (Qabs W).
    revert HV0. generalize (Qabs (F2Q v)). intros. lra. }
  clear Hwerr.
  assert (Hw : Qabs (F2Q w) <= Wmax).
  { apply Qabs_le_iff in HE1. destruct (Qabs_bounds W) as (HW0 & HWl & HWu).
    revert HaW HW0 HWl HWu. generalize (Qabs W).
    revert HV0 HV HE1. generalize (Qabs (F2Q v)). intros. apply Qabs_le_iff. lra. }
  (* and back *)
  destruct (affine_round w (Factor b) (Offset b) (Offset a) (Factor a) iphi
              Hwf Hfb Hob Hoa Hfa) as [Hrf Hrerr]; try assumption.
  fold gamma alpha beta r in Hrerr. fold r in Hrf.
  split; [exact Hwf | split; [exact Hrf|]].
  (* on rationals *)
  set (R := (F2Q w * gamma + beta - alpha) * iphi) in *.
  assert (HRV : R - F2Q v == (F2Q w - W) * gamma * iphi).
  { unfold R. rewrite <- HXV.
    transitivity ((F2Q w * gamma + beta - alpha - (W * gamma - alpha + beta)) * iphi).
    - rewrite HWg. ring.
    - ring. }
  assert (HdR : Qabs (R - F2Q v)
                <= 2 * ((121 # 100000000000000) + (17 # 10000000000000000) * Qabs (F2Q v))).
  { rewrite HRV.
    apply Qle_trans
      with (((121 # 100000000000000) + (17 # 10000000000000000) * Qabs (F2Q v)) * 1 * 2).
    - apply Qabs_mult_le; [apply Qabs_mult_le|].
      + exact HE1.
      + rewrite Qabs_pos by lra. exact Hfb1.
      + rewrite Qabs_pos by lra. exact Hia1.
    - generalize (Qabs (F2Q v)). intros aV. lra. }
  assert (Hoi : Qabs ((beta - alpha) * iphi) <= 274 * 2).
  { apply Qabs_mult_le; [apply Qabs_le_iff; lra | rewrite Qabs_pos by lra; exact Hia1]. }
  assert (HX2 : Qabs (F2Q w * gamma) * iphi == Qabs (R - (beta - alpha) * iphi)).
  { rewrite <- (Qabs_pos iphi) at 1 by lra. rewrite <- Qabs_Qmult.
    apply Qabs_wd. unfold R. ring. }
  rewrite HX2 in Hrerr. clear HX2.
  assert (Hbi0 : 0 <= beta * iphi) by (apply Qmult_le_0_compat; lra).
  assert (Hai0 : 0 <= alpha * iphi) by (apply Qmult_le_0_compat; lra).
  assert (Hbi : beta * iphi <= 274 * 2) by (apply mult_le; lra).
  assert (Hai : alpha * iphi <= 274 * 2) by (apply mult_le; lra).
  clearbody R. clear HRV HE1 Hw HaW HWeq HWg HXV HsX HXig0 HXig.
  apply Qabs_le_iff in HdR. apply Qabs_le_iff in Hoi.
  destruct (Qabs_bounds (F2Q v)) as (HaV0 & HVl & HVu).
  revert HV0 HV HdR HVl HVu Hrerr. generalize (Qabs (F2Q v)).
  intros aV HV0 HV HdR HVl HVu Hrerr.
  assert (HaR : Qabs R
                <= aV + 2 * ((121 # 100000000000000) + (17 # 10000000000000000) * aV)).
  { apply Qabs_le_iff. lra. }
  assert (HaR' : Qabs (R - (beta - alpha) * iphi)
                 <= aV + 2 * ((121 # 100000000000000) + (17 # 10000000000000000) * aV)
                    + 548).
  { apply Qabs_le_iff. lra. }
  apply Qabs_le_iff in Hrerr.
  revert Hrerr HaR HaR'. generalize (Qabs R) (Qabs (R - (beta - alpha) * iphi)).
  intros aR aR' Hrerr HaR HaR'. apply Qabs_le_iff. lra.
Qed.

Local Close Scope Q_scope.

(** C1, as the claim has it, fails in three ways.  The rounding at 12
    decimals turns [1e-13] metres, and [4.9e-13] metres, into [0]; the
    product and the quotient by the factor of the acre each round once
    and leave [2240] two units in the last place off; and the product by
    [10^12] overflows on [1e300]. *)
Lemma Convert_identity_counterexample :
  is_Some (units NewUnitConverter !! "m")
  /\ Convert NewUnitConverter 1e-13 "m" "m" = (0%float, None)
  /\ PrimFloat.Leibniz.eqb 0 1e-13 = false
  /\ Convert NewUnitConverter 1e-13 "m" "m" <> (1e-13%float, None)
  /\ Convert NewUnitConverter 4.9e-13 "m" "m" = (0%float, None)
  /\ is_Some (units NewUnitConverter !! "acre")
  /\ Convert NewUnitConverter 2240 "acre" "acre" = (2240.0000000000009%float, None)
  /\ PrimFloat.Leibniz.eqb 2240.0000000000009 2240 = false
  /\ Convert NewUnitConverter 1e300 "m" "m" = (infinity, None).
Proof.
  split; [vm_compute; eauto | ].
  split; [vm_compute; reflexivity | ].
  split; [vm_compute; reflexivity | ].
  split.
  { intros H. assert (H0 : fst (Convert NewUnitConverter 1e-13 "m" "m") = 1e-13%float)
      by now rewrite H.
    apply (f_equal Prim2SF) in H0. vm_compute in H0. discriminate H0. }
  split; [vm_compute; reflexivity | ].
  split; [vm_compute; eauto | ].
  repeat split; vm_compute; reflexivity.
Qed.

(** C1, as the code has it.  For every registered symbol [A],
    [Convert(v, A, A)] returns no error whatever [v] is; and for every
    finite [v] of magnitude up to [10^200] the number returned is finite
    and within [10^-12 + 10^-15 * |v|] of [v]. *)
Theorem Convert_identity :
  (forall (A : string) (v : float),
      is_Some (units NewUnitConverter !! A) ->
      snd (Convert NewUnitConverter v A A) = None)
  /\ (forall (A : string) (v : float) (qv : Q),
        is_Some (units NewUnitConverter !! A) ->
        Q_of_float v = Some qv ->
        (Qabs qv <= 10 ^ 200)%Q ->
        exists (r : float) (qr : Q),
          Convert NewUnitConverter v A A = (r, None)
          /\ Q_of_float r = Some qr
          /\ (Qabs (qr - qv)
              <= (1 # 1000000000000) + (1 # 1000000000000000) * Qabs qv)%Q).
Proof.
  split.
  - intros A v [u Hu].
    now rewrite (Convert_same_dimension NewUnitConverter v A A u u Hu Hu eq_refl).
  - intros A v qv [u Hu] Hqv Hb.
    destruct (Q_of_float_F2Q v qv Hqv) as [Hv Hval].
    assert (HV : (Qabs (F2Q v) <= Wmax)%Q).
    { rewrite <- Hval. eapply Qle_trans; [exact Hb | exact Vmax_Wmax]. }
    destruct (identity_error u v (table_checked A u Hu) Hv HV) as [Hrf Hrerr].
    destruct (Ffin_Q_of_float _ Hrf) as (qr & Hqr & Hrval).
    exists (convert_units u u v), qr.
    split; [exact (Convert_same_dimension _ _ A A u u Hu Hu eq_refl) | ].
    split; [exact Hqr | ].
    rewrite Hrval, Hval. exact Hrerr.
Qed.

Lemma Convert_identity_witness :
  exists (r : float) (qr : Q),
    Convert NewUnitConverter 2240 "acre" "acre" = (r, None)
    /\ Q_of_float r = Some qr
    /\ (Qabs (qr - inject_Z 4925812092436480 * 2 ^ (-41))
        <= (1 # 1000000000000)
           + (1 # 1000000000000000) * Qabs (inject_Z 4925812092436480 * 2 ^ (-41)))%Q.
Proof.
  refine (proj2 Convert_identity "acre" 2240%float
            (inject_Z 4925812092436480 * 2 ^ (-41))%Q _ _ _).
  - vm_compute. eauto.
  - vm_compute. reflexivity.
  - vm_compute. discriminate.
Defined.

(** C2, as the claim has it, fails when a value is small next to the
    [10^-12] of the rounding.  One second is [0.000011574074] days, which
    is [0.9999999936] seconds, off by [6.4e-9] of the value; [0.511 MB] is
    [0.000499023438 GB], which is [0.511000000512 MB]; and
    [0.00130649159963849] degrees Fahrenheit come back from Kelvin as
    [0.001306491601]. *)
Lemma Convert_round_trip_counterexample :
  Dimension <$> units NewUnitConverter !! "s" = Some "time"
  /\ Dimension <$> units NewUnitConverter !! "day" = Some "time"
  /\ Convert NewUnitConverter 1 "s" "day" = (0.000011574074%float, None)
  /\ Convert NewUnitConverter 0.000011574074 "day" "s" = (0.9999999936%float, None)
  /\ ~ close_1e9 1 0.9999999936
  /\ Convert NewUnitConverter 0.511 "MB" "GB" = (0.000499023438%float, None)
  /\ Convert NewUnitConverter 0.000499023438 "GB" "MB" = (0.511000000512%float, None)
  /\ ~ close_1e9 0.511 0.511000000512
  /\ Convert NewUnitConverter 0.00130649159963849 "F" "K" = (255.372725828667%float, None)
  /\ Convert NewUnitConverter 255.372725828667 "K" "F" = (0.001306491601%float, None)
  /\ ~ close_1e9 0.00130649159963849 0.001306491601.
Proof.
  repeat split; try (vm_compute; reflexivity);
    rewrite <- within_1e9_spec; vm_compute; discriminate.
Qed.

(** C2, as the code has it.  For every two registered symbols [A] and
    [B] of one dimension and every finite [v] with
    [0.01 <= |v| <= 10^200], both conversions succeed and the value [w] in
    [B] is finite; when [|w| >= 0.01], converting [w] back gives a value
    within [1e-9] of [v], relatively. *)
Theorem Convert_round_trip
    (A B : string) (unitA unitB : Unit) (v : float) (qv : Q) :
  units NewUnitConverter !! A = Some unitA ->
  units NewUnitConverter !! B = Some unitB ->
  Dimension unitA = Dimension unitB ->
  Q_of_float v = Some qv ->
  ((1 # 100) <= Qabs qv)%Q ->
  (Qabs qv <= 10 ^ 200)%Q ->
  exists (w r : float) (qw : Q),
    Convert NewUnitConverter v A B = (w, None)
    /\ Convert NewUnitConverter w B A = (r, None)
    /\ Q_of_float w = Some qw
    /\ (((1 # 100) <= Qabs qw)%Q -> close_1e9 v r).
Proof.
  intros HA HB Hdim Hqv Hlo Hhi.
  destruct (Q_of_float_F2Q v qv Hqv) as [Hv Hval].
  pose proof (table_checked A unitA HA) as HrA.
  pose proof (table_checked B unitB HB) as HrB.
  assert (HV0 : ((1 # 100) <= Qabs (F2Q v))%Q) by (rewrite <- Hval; exact Hlo).
  assert (HV : (Qabs (F2Q v) <= Vmax)%Q) by (rewrite <- Hval; exact Hhi).
  exists (convert_units unitA unitB v),
         (convert_units unitB unitA (convert_units unitA unitB v)).
  assert (Hgoal :
    Ffin (convert_units unitA unitB v) = true
    /\ Ffin (convert_units unitB unitA (convert_units unitA unitB v)) = true
    /\ (((1 # 100) <= Qabs (F2Q (convert_units unitA unitB v)))%Q ->
        (Qabs (F2Q (convert_units unitB unitA (convert_units unitA unitB v)) - F2Q v)
         <= (1 # 1000000000) * Qabs (F2Q v))%Q)).
  { unfold convert_units, unrounded.
    destruct (String.eqb (Dimension unitA) "temperature") eqn:HdA.
    - apply String.eqb_eq in HdA.
      assert (HdB : Dimension unitB = "temperature") by congruence.
      rewrite (proj2 (String.eqb_eq _ _) HdB).
      destruct (round_trip_temperature unitA unitB v HrA HrB HdA HdB Hv HV0 HV)
        as (Hw & Hr & Herr).
      split; [exact Hw | split; [exact Hr | intros _; exact Herr]].
    - apply String.eqb_neq in HdA.
      assert (HdB : Dimension unitB <> "temperature") by congruence.
      rewrite (proj2 (String.eqb_neq _ _) HdB).
      exact (round_trip_ratio unitA unitB v HrA HrB HdA HdB Hv HV0 HV). }
  destruct Hgoal as (Hwf & Hrf & Herr).
  destruct (Ffin_Q_of_float _ Hwf) as (qw & Hqw & Hwval).
  destruct (Ffin_Q_of_float _ Hrf) as (qr & Hqr & Hrval).
  exists qw.
  split; [exact (Convert_same_dimension _ _ A B unitA unitB HA HB Hdim) | ].
  split; [exact (Convert_same_dimension _ _ B A unitB unitA HB HA (eq_sym Hdim)) | ].
  split; [exact Hqw | ].
  intros Hw0. exists qv, qr. split; [exact Hqv | split; [exact Hqr | ]].
  rewrite Hrval, Hval. apply Herr. rewrite <- Hwval. exact Hw0.
Qed.

Lemma Convert_round_trip_witness :
  exists w r : float,
    Convert NewUnitConverter 26.2 "mi" "km" = (w, None)
    /\ Convert NewUnitConverter w "km" "mi" = (r, None)
    /\ close_1e9 26.2 r.
Proof.
  destruct (Convert_round_trip "mi" "km"
              (mkUnit 1609.344 "length" "Mile" 0) (mkUnit 1000 "length" "Kilometer" 0)
              26.2%float (inject_Z 7374644389819187 * 2 ^ (-48))%Q)
    as (w & r & qw & Hw & Hr & Hqw & Hclose).
  - vm_compute. reflexivity.
  - vm_compute. reflexivity.
  - reflexivity.
  - vm_compute. reflexivity.
  - vm_compute. discriminate.
  - vm_compute. discriminate.
  - exists w, r. split; [exact Hw | split; [exact Hr|]]. apply Hclose.
    vm_compute in Hw. injection Hw as <-.
    vm_compute in Hqw. injection Hqw as <-.
    vm_compute. discriminate.
Defined.

(** * The rest of the program *)

(** ** Groups of units *)

(** The entries of a group are the entries of the registry with that
    dimension tag. *)
Lemma GetUnitsByDimension_lookup (uc : UnitConverter) (dimension symbol : string) (u : Unit) :
  GetUnitsByDimension uc dimension !! symbol = Some u
  <-> units uc !! symbol = Some u /\ Dimension u = dimension.
Proof. unfold GetUnitsByDimension. apply map_lookup_filter_Some. Qed.

(** The loop of [GetAllDimensions] collects the tags in use. *)
Lemma GetAllDimensions_elem (uc : UnitConverter) (dimension : string) :
  dimension ∈ GetAllDimensions uc
  <-> exists symbol u, units uc !! symbol = Some u /\ Dimension u = dimension.
Proof.
  unfold GetAllDimensions.
  apply (map_fold_weak_ind
           (fun (acc : gset string) (m : gmap string Unit) =>
              dimension ∈ acc <-> exists symbol u, m !! symbol = Some u /\ Dimension u = dimension)).
  - split; [set_solver|]. intros (s & u & Hs & _). rewrite lookup_empty in Hs. discriminate.
  - intros i x m acc Hi IH. rewrite elem_of_union, elem_of_singleton, IH. split.
    + intros [-> | (s & u & Hs & Hd)].
      * exists i, x. split; [apply lookup_insert_eq | reflexivity].
      * exists s, u. split; [|exact Hd]. rewrite lookup_insert_ne; [exact Hs|]. congruence.
    + intros (s & u & Hs & Hd). destruct (decide (i = s)) as [->|Hne].
      * rewrite lookup_insert_eq in Hs. injection Hs as ->. now left.
      * rewrite lookup_insert_ne in Hs by exact Hne. right. eauto.
Qed.

Lemma GetAllDimensions_size (uc : UnitConverter) (dimension : string) :
  dimension ∈ GetAllDimensions uc <-> size (GetUnitsByDimension uc dimension) <> 0%nat.
Proof.
  rewrite GetAllDimensions_elem, map_size_non_empty_iff. split.
  - intros (s & u & Hs & Hd) Hempty.
    assert (Hg : GetUnitsByDimension uc dimension !! s = Some u)
      by now apply GetUnitsByDimension_lookup.
    rewrite Hempty, lookup_empty in Hg. discriminate.
  - intros Hg. apply map_choose in Hg as (s & u & Hg).
    apply GetUnitsByDimension_lookup in Hg. eauto.
Qed.

(** X1. [GetUnitsByDimension] splits the registry into groups: a group
    holds exactly the registry's entries of its dimension, so every
    registered unit is in the group of its own dimension, with the same
    definition, and in no other group; and the group of a tag that no
    unit carries is the empty map. *)
Theorem GetUnitsByDimension_partition (uc : UnitConverter) :
  (forall (dimension symbol : string) (u : Unit),
      GetUnitsByDimension uc dimension !! symbol = Some u
      <-> units uc !! symbol = Some u /\ Dimension u = dimension)
  /\ (forall (symbol : string) (u : Unit),
        units uc !! symbol = Some u ->
        GetUnitsByDimension uc (Dimension u) !! symbol = Some u
        /\ forall dimension, dimension <> Dimension u ->
                             GetUnitsByDimension uc dimension !! symbol = None)
  /\ (forall dimension,
        (forall symbol u, units uc !! symbol = Some u -> Dimension u <> dimension) ->
        GetUnitsByDimension uc dimension = ∅).
Proof.
  split; [intros; apply GetUnitsByDimension_lookup | split].
  - intros symbol u Hu. split; [now apply GetUnitsByDimension_lookup|].
    intros dimension Hne.
    destruct (GetUnitsByDimension uc dimension !! symbol) as [u'|] eqn:Hg; [|reflexivity].
    apply GetUnitsByDimension_lookup in Hg as [Hu' Hd]. congruence.
  - intros dimension Hnone. apply map_empty. intros symbol.
    destruct (GetUnitsByDimension uc dimension !! symbol) as [u|] eqn:Hg; [|reflexivity].
    apply GetUnitsByDimension_lookup in Hg as [Hu Hd]. now destruct (Hnone symbol u Hu).
Qed.

Lemma GetUnitsByDimension_partition_witness :
  GetUnitsByDimension NewUnitConverter "length" !! "km"
  = Some (mkUnit 1000 "length" "Kilometer" 0)
  /\ GetUnitsByDimension NewUnitConverter "mass" !! "km" = None
  /\ GetUnitsByDimension NewUnitConverter "colour" = ∅.
Proof.
  destruct (GetUnitsByDimension_partition NewUnitConverter) as (_ & Hown & Hnone).
  destruct (Hown "km" (mkUnit 1000 "length" "Kilometer" 0) eq_refl) as [Hin Hout].
  split; [exact Hin | split].
  - apply Hout. discriminate.
  - apply Hnone. intros symbol u Hu.
    assert (Hall : map_Forall (fun _ u => Dimension u <> "colour") (units NewUnitConverter))
      by (apply (bool_decide_unpack _); vm_compute; exact I).
    exact (Hall symbol u Hu).
Defined.

(** X2. The tags returned by [GetAllDimensions] are exactly the tags that
    some registered unit carries, and exactly the tags whose group, as
    [GetUnitsByDimension] returns it, is not empty. *)
Theorem GetAllDimensions_groups (uc : UnitConverter) (dimension : string) :
  (dimension ∈ GetAllDimensions uc
   <-> exists symbol u, units uc !! symbol = Some u /\ Dimension u = dimension)
  /\ (dimension ∈ GetAllDimensions uc <-> GetUnitsByDimension uc dimension <> ∅)
  /\ (dimension ∈ GetAllDimensions uc <-> size (GetUnitsByDimension uc dimension) <> 0%nat).
Proof.
  split; [apply GetAllDimensions_elem | split; [|apply GetAllDimensions_size]].
  rewrite GetAllDimensions_size. apply map_size_non_empty_iff.
Qed.

(** A conversion succeeds exactly between two registered units of one
    dimension. *)
Lemma Convert_ok_iff (uc : UnitConverter) (value : float) (from to : string) :
  snd (Convert uc value from to) = None
  <-> exists unitFrom unitTo,
        units uc !! from = Some unitFrom /\ units uc !! to = Some unitTo
        /\ Dimension unitFrom = Dimension unitTo.
Proof.
  destruct (units uc !! from) as [unitFrom|] eqn:Hfrom.
  - destruct (units uc !! to) as [unitTo|] eqn:Hto.
    + destruct (decide (Dimension unitFrom = Dimension unitTo)) as [Hdim|Hdim].
      * rewrite (Convert_same_dimension uc value from to _ _ Hfrom Hto Hdim).
        split; [eauto | reflexivity].
      * rewrite (Convert_mismatch uc value from to _ _ Hfrom Hto Hdim).
        split; [discriminate | intros (? & ? & [= <-] & [= <-] & ?); contradiction].
    + rewrite (Convert_target_absent uc value from to _ Hfrom Hto).
      split; [discriminate | intros (? & ? & _ & [=] & _)].
  - rewrite (Convert_source_absent uc value from to Hfrom).
    split; [discriminate | intros (? & ? & [=] & _)].
Qed.

(** X3. [Convert] returns no error exactly when some group returned by
    [GetUnitsByDimension] holds both symbols: the units a page lists
    together are the units that convert into each other. *)
Theorem Convert_ok_iff_same_group (uc : UnitConverter) (value : float) (from to : string) :
  snd (Convert uc value from to) = None
  <-> exists dimension,
        is_Some (GetUnitsByDimension uc dimension !! from)
        /\ is_Some (GetUnitsByDimension uc dimension !! to).
Proof.
  rewrite Convert_ok_iff. split.
  - intros (uf & ut & Hf & Ht & Hd). exists (Dimension uf). split.
    + exists uf. now apply GetUnitsByDimension_lookup.
    + exists ut. now apply GetUnitsByDimension_lookup.
  - intros (d & [uf Hf] & [ut Ht]).
    apply GetUnitsByDimension_lookup in Hf as [Hf Hdf], Ht as [Ht Hdt].
    exists uf, ut. split; [exact Hf | split; [exact Ht | congruence]].
Qed.

(** X4. Whether [Convert] fails, and with which error, depends on the two
    symbols only, never on the value; and a failing [Convert] returns the
    number [0]. *)
Theorem Convert_error_ignores_value (uc : UnitConverter) (value value' : float) (from to : string) :
  snd (Convert uc value from to) = snd (Convert uc value' from to)
  /\ (snd (Convert uc value from to) <> None -> fst (Convert uc value from to) = 0%float).
Proof.
  unfold Convert. destruct (units uc !! from) as [unitFrom|]; [|split; reflexivity].
  destruct (units uc !! to) as [unitTo|]; [|split; reflexivity].
  destruct (negb _); split; try reflexivity. intros H. now contradiction H.
Qed.

Lemma Convert_error_ignores_value_witness :
  snd (Convert NewUnitConverter 5 "kg" "m") = snd (Convert NewUnitConverter nan "kg" "m")
  /\ fst (Convert NewUnitConverter 5 "kg" "m") = 0%float.
Proof.
  destruct (Convert_error_ignores_value NewUnitConverter 5 nan "kg" "m") as [Hsame Hzero].
  split; [exact Hsame | apply Hzero]. vm_compute. discriminate.
Defined.

(** X5. Being convertible is an equivalence between registered symbols:
    a registered unit converts to itself, a conversion that succeeds one
    way succeeds the other way, and two conversions that succeed through
    a common unit give one that succeeds directly; the values converted
    play no part. *)
Theorem Convert_ok_equivalence (uc : UnitConverter) (v1 v2 v3 : float) (A B C : string) :
  (is_Some (units uc !! A) -> snd (Convert uc v1 A A) = None)
  /\ (snd (Convert uc v1 A B) = None -> snd (Convert uc v2 B A) = None)
  /\ (snd (Convert uc v1 A B) = None -> snd (Convert uc v2 B C) = None ->
      snd (Convert uc v3 A C) = None).
Proof.
  rewrite !Convert_ok_iff. split; [|split].
  - intros [u Hu]. exists u, u. auto.
  - intros (uA & uB & HA & HB & Hd). exists uB, uA. auto.
  - intros (uA & uB & HA & HB & Hd) (uB' & uC & HB' & HC & Hd').
    exists uA, uC. split; [exact HA | split; [exact HC | congruence]].
Qed.

Lemma Convert_ok_equivalence_witness :
  snd (Convert NewUnitConverter 1 "km" "km") = None
  /\ snd (Convert NewUnitConverter 2 "mi" "km") = None
  /\ snd (Convert NewUnitConverter 3 "km" "ft") = None.
Proof.
  destruct (Convert_ok_equivalence NewUnitConverter 1 2 3 "km" "mi" "ft")
    as (Hrefl & Hsym & Htrans).
  split; [apply Hrefl; vm_compute; eauto | split].
  - apply Hsym. reflexivity.
  - apply Htrans; reflexivity.
Defined.

(** ** Values that are not ordinary numbers *)

Lemma nan_mul (x : float) : (nan * x)%float = nan.
Proof. apply Prim2SF_inj. now rewrite FloatAxioms.mul_spec. Qed.

Lemma nan_add (x : float) : (nan + x)%float = nan.
Proof. apply Prim2SF_inj. now rewrite FloatAxioms.add_spec. Qed.

Lemma nan_sub (x : float) : (nan - x)%float = nan.
Proof. apply Prim2SF_inj. now rewrite FloatAxioms.sub_spec. Qed.

Lemma nan_div (x : float) : (nan / x)%float = nan.
Proof. apply Prim2SF_inj. now rewrite FloatAxioms.div_spec. Qed.

Lemma unrounded_nan (unitFrom unitTo : Unit) : unrounded unitFrom unitTo nan = nan.
Proof.
  unfold unrounded. destruct (String.eqb _ _).
  - now rewrite nan_mul, nan_add, nan_sub, nan_div.
  - now rewrite nan_mul, nan_div.
Qed.

(** X6. NaN goes through [Convert] unchanged and without an error, between
    any two registered units of one dimension, whatever their factors and
    offsets; and when the value of a POST parses to NaN, the handler
    answers [200] with the body ["NaN <to>"]. *)
Theorem Convert_nan (uc : UnitConverter) (from to : string)
    (unitFrom unitTo : Unit) :
  units uc !! from = Some unitFrom ->
  units uc !! to = Some unitTo ->
  Dimension unitFrom = Dimension unitTo ->
  Convert uc nan from to = (nan, None)
  /\ forall (ParseFloat : string -> option float) (form : gmap string (list string)),
       http.FormValue form "value" <> "" ->
       http.FormValue form "from" = from -> http.FormValue form "to" = to ->
       from <> "" -> to <> "" ->
       ParseFloat (http.FormValue form "value") = Some nan ->
       convertHandler ParseFloat uc http.NewResponseWriter
         (http.mkRequest "POST" (Some form))
       = http.mkResponseWriter {["Content-Type" := "application/json"]} (Some 200%Z)
           [http.Text ("NaN " ++ to)].
Proof.
  intros Hfrom Hto Hdim.
  assert (Hnan : Convert uc nan from to = (nan, None)).
  { rewrite (Convert_same_dimension uc nan from to _ _ Hfrom Hto Hdim), unrounded_nan.
    reflexivity. }
  split; [exact Hnan|].
  intros ParseFloat form Hv Hf Ht Hfe Hte Hp.
  rewrite (convertHandler_success ParseFloat uc "POST" form nan nan eq_refl Hv);
    rewrite ?Hf, ?Ht; auto.
Qed.

Lemma Convert_nan_witness :
  Convert NewUnitConverter nan "C" "F" = (nan, None)
  /\ convertHandler
       (fun s => if String.eqb s "NaN" then Some nan else strconv.ParseFloat s)
       NewUnitConverter http.NewResponseWriter
       (http.mkRequest "POST"
          (Some (list_to_map [("value", ["NaN"]); ("from", ["C"]); ("to", ["F"])])))
     = http.mkResponseWriter {["Content-Type" := "application/json"]} (Some 200%Z)
         [http.Text "NaN F"].
Proof.
  destruct (Convert_nan NewUnitConverter "C" "F"
              (mkUnit 1 "temperature" "Celsius" 273.15)
              (mkUnit 0.5555555555555556 "temperature" "Fahrenheit" 255.372)
              eq_refl eq_refl eq_refl) as [Hnan Hhandler].
  split; [exact Hnan|].
  apply Hhandler; try reflexivity; discriminate.
Defined.

(** A positive finite number, on its representation. *)
Lemma positive_finite (f : float) :
  (0 <? f)%float = true -> PrimFloat.is_finite f = true ->
  exists m e, Prim2SF f = S754_finite false m e.
Proof.
  intros Hpos Hfin. rewrite FloatAxioms.ltb_spec in Hpos.
  unfold PrimFloat.is_finite, PrimFloat.is_infinity in Hfin.
  rewrite FloatAxioms.eqb_spec, FloatAxioms.abs_spec in Hfin.
  destruct (Prim2SF f) as [s|s| |s m e]; try discriminate.
  - rewrite orb_true_r in Hfin. discriminate.
  - destruct s; [discriminate | eauto].
Qed.

Lemma zero_mul_div (f g : float) :
  (0 <? f)%float = true -> PrimFloat.is_finite f = true ->
  (0 <? g)%float = true -> PrimFloat.is_finite g = true ->
  (0 * f / g)%float = 0%float.
Proof.
  intros Hf Hff Hg Hgf.
  destruct (positive_finite f Hf Hff) as (mf & ef & Ef).
  destruct (positive_finite g Hg Hgf) as (mg & eg & Eg).
  apply Prim2SF_inj. rewrite FloatAxioms.div_spec, FloatAxioms.mul_spec, Ef, Eg. reflexivity.
Qed.

(** The factors of the table are positive and finite. *)
Lemma factors_checked :
  map_Forall (fun _ u => finite_factor u = true) (units NewUnitConverter).
Proof. apply (bool_decide_unpack _). vm_compute. exact I. Qed.

(** X7. Outside temperature, zero converts to zero: between two registered
    units of one dimension whose factors are positive and finite, as all
    factors of the table are, [Convert] of [0] is [0] exactly, without an
    error.  (Temperature scales have offsets, and their zeros differ.) *)
Theorem Convert_zero_ratio (uc : UnitConverter) (from to : string)
    (unitFrom unitTo : Unit) :
  units uc !! from = Some unitFrom ->
  units uc !! to = Some unitTo ->
  Dimension unitFrom = Dimension unitTo ->
  Dimension unitFrom <> "temperature" ->
  finite_factor unitFrom = true ->
  finite_factor unitTo = true ->
  Convert uc 0 from to = (0%float, None).
Proof.
  intros Hfrom Hto Hdim Htemp Hf Hg.
  apply andb_prop in Hf as [Hf Hff], Hg as [Hg Hgf].
  rewrite (Convert_same_dimension uc 0 from to _ _ Hfrom Hto Hdim). unfold unrounded.
  apply String.eqb_neq in Htemp. rewrite Htemp.
  now rewrite (zero_mul_div _ _ Hf Hff Hg Hgf).
Qed.

Lemma Convert_zero_ratio_witness :
  Convert NewUnitConverter 0 "mi" "km" = (0%float, None).
Proof.
  apply (Convert_zero_ratio NewUnitConverter "mi" "km"
           (mkUnit 1609.344 "length" "Mile" 0) (mkUnit 1000 "length" "Kilometer" 0));
    try reflexivity.
  discriminate.
Defined.

(** ** Sign symmetry *)

Lemma binary_round_aux_opp (s : bool) (m e : Z) (l : location) :
  binary_round_aux prec emax (negb s) m e l
  = SFopp (binary_round_aux prec emax s m e l).
Proof.
  unfold binary_round_aux.
  destruct (shr_fexp prec emax m e l) as [mrs' e'].
  destruct (shr_fexp prec emax _ e' loc_Exact) as [mrs'' e''].
  destruct (shr_m mrs''); [reflexivity | | reflexivity].
  destruct (Z.leb _ _); reflexivity.
Qed.

Lemma SFmul_opp_l (x y : spec_float) :
  SFmul prec emax (SFopp x) y = SFopp (SFmul prec emax x y).
Proof.
  destruct x as [sx|sx| |sx mx ex], y as [sy|sy| |sy my ey]; cbn [SFmul SFopp];
    rewrite <- ?negb_xorb_l; try reflexivity.
  apply binary_round_aux_opp.
Qed.

Lemma SFdiv_opp_l (x y : spec_float) :
  SFdiv prec emax (SFopp x) y = SFopp (SFdiv prec emax x y).
Proof.
  destruct x as [sx|sx| |sx mx ex], y as [sy|sy| |sy my ey]; cbn [SFdiv SFopp];
    rewrite <- ?negb_xorb_l; try reflexivity.
  destruct (SFdiv_core_binary prec emax (Zpos mx) ex (Zpos my) ey) as [[mz ez] lz].
  apply binary_round_aux_opp.
Qed.

Lemma opp_mul (x y : float) : (- x * y)%float = (- (x * y))%float.
Proof.
  apply Prim2SF_inj.
  rewrite FloatAxioms.mul_spec, !FloatAxioms.opp_spec, FloatAxioms.mul_spec.
  apply SFmul_opp_l.
Qed.

Lemma opp_div (x y : float) : (- x / y)%float = (- (x / y))%float.
Proof.
  apply Prim2SF_inj.
  rewrite FloatAxioms.div_spec, !FloatAxioms.opp_spec, FloatAxioms.div_spec.
  apply SFdiv_opp_l.
Qed.

Lemma opp_involutive (x : float) : (- - x)%float = x.
Proof.
  apply Prim2SF_inj. rewrite !FloatAxioms.opp_spec.
  destruct (Prim2SF x) as [s|s| |s m e]; cbn; now rewrite ?negb_involutive.
Qed.

Lemma SFeqb_opp (x : spec_float) : SFeqb (SFopp x) (SFopp x) = SFeqb x x.
Proof.
  destruct x as [s|s| |s m e]; cbn [SFopp]; try reflexivity.
  - now destruct s.
  - now rewrite !SFeqb_refl_finite.
Qed.

Lemma is_nan_opp (x : float) : PrimFloat.is_nan (- x) = PrimFloat.is_nan x.
Proof.
  unfold PrimFloat.is_nan. rewrite !FloatAxioms.eqb_spec, FloatAxioms.opp_spec.
  now rewrite SFeqb_opp.
Qed.

Lemma is_zero_opp (x : float) : PrimFloat.is_zero (- x) = PrimFloat.is_zero x.
Proof.
  unfold PrimFloat.is_zero. rewrite !FloatAxioms.eqb_spec, FloatAxioms.opp_spec.
  change (Prim2SF PrimFloat.zero) with (S754_zero false).
  destruct (Prim2SF x) as [s|s| |s m e]; try reflexivity; now destruct s.
Qed.

Lemma is_infinity_opp (x : float) : PrimFloat.is_infinity (- x) = PrimFloat.is_infinity x.
Proof.
  unfold PrimFloat.is_infinity.
  rewrite !FloatAxioms.eqb_spec, !FloatAxioms.abs_spec, FloatAxioms.opp_spec.
  now destruct (Prim2SF x).
Qed.

Lemma frshiftexp_opp (x : float) :
  frshiftexp (- x) = ((- fst (frshiftexp x))%float, snd (frshiftexp x)).
Proof.
  pose proof (frshiftexp_spec x) as H. pose proof (frshiftexp_spec (- x)%float) as H'.
  destruct (frshiftexp x) as [r se]. destruct (frshiftexp (- x)) as [r' se'].
  cbn [fst snd]. rewrite FloatAxioms.opp_spec in H'.
  assert (Hopp : SFfrexp prec emax (SFopp (Prim2SF x))
                 = (SFopp (fst (SFfrexp prec emax (Prim2SF x))),
                    snd (SFfrexp prec emax (Prim2SF x)))).
  { destruct (Prim2SF x) as [s|s| |s m e]; try reflexivity.
    cbn [SFopp SFfrexp]. destruct (Z.leb _ _); reflexivity. }
  rewrite Hopp, <- H in H'. cbn [fst snd] in H'. injection H' as Hr Hse.
  f_equal.
  - apply Prim2SF_inj. now rewrite FloatAxioms.opp_spec.
  - apply Uint63.to_Z_inj. lia.
Qed.

Lemma normfr_mantissa_opp (r : float) : normfr_mantissa (- r) = normfr_mantissa r.
Proof.
  apply Uint63.to_Z_inj. rewrite !normfr_mantissa_spec, FloatAxioms.opp_spec.
  now destruct (Prim2SF r).
Qed.

Lemma ltb_zero_opp (x : float) :
  PrimFloat.is_nan x = false -> PrimFloat.is_zero x = false ->
  (- x <? 0)%float = negb (x <? 0)%float.
Proof.
  unfold PrimFloat.is_nan, PrimFloat.is_zero.
  rewrite !FloatAxioms.eqb_spec, !FloatAxioms.ltb_spec, FloatAxioms.opp_spec.
  change (Prim2SF PrimFloat.zero) with (S754_zero false). change (Prim2SF 0) with (S754_zero false).
  destruct (Prim2SF x) as [s|s| |s m e]; cbn; try discriminate; now destruct s.
Qed.

(** [math.Round] is odd. *)
Lemma Round_opp (x : float) : math.Round (- x) = (- math.Round x)%float.
Proof.
  unfold math.Round.
  rewrite is_nan_opp, is_zero_opp, is_infinity_opp.
  destruct (PrimFloat.is_nan x) eqn:Hnan; [reflexivity|].
  destruct (PrimFloat.is_zero x) eqn:Hzero; [reflexivity|].
  destruct (PrimFloat.is_infinity x); [reflexivity|]. cbn [orb].
  rewrite frshiftexp_opp. destruct (frshiftexp x) as [r se]. cbn [fst snd].
  destruct (2154 <=? se)%uint63; [reflexivity|].
  rewrite normfr_mantissa_opp, (ltb_zero_opp x Hnan Hzero).
  destruct (x <? 0)%float; cbn [negb]; [now rewrite opp_involutive | reflexivity].
Qed.

Lemma round_result_opp (x : float) : round_result (- x) = (- round_result x)%float.
Proof. unfold round_result. cbv zeta. now rewrite opp_mul, Round_opp, opp_div. Qed.

(** X8. Outside temperature, [Convert] is odd in the value, bit for bit:
    between two registered units of one dimension, converting [-v] gives
    the negation of converting [v], for every float64 [v] (the rounding at
    12 decimals is away from zero on both sides, and the sign of a zero or
    of an infinity follows too). *)
Theorem Convert_opp_ratio (uc : UnitConverter) (value : float) (from to : string)
    (unitFrom unitTo : Unit) :
  units uc !! from = Some unitFrom ->
  units uc !! to = Some unitTo ->
  Dimension unitFrom = Dimension unitTo ->
  Dimension unitFrom <> "temperature" ->
  Convert uc (- value) from to = ((- fst (Convert uc value from to))%float, None).
Proof.
  intros Hfrom Hto Hdim Htemp.
  rewrite !(Convert_same_dimension uc _ from to _ _ Hfrom Hto Hdim). cbn [fst].
  unfold unrounded. apply String.eqb_neq in Htemp. rewrite Htemp.
  now rewrite opp_mul, opp_div, round_result_opp.
Qed.

Lemma Convert_opp_ratio_witness :
  Convert NewUnitConverter (- 26.2) "mi" "km"
  = ((- fst (Convert NewUnitConverter 26.2 "mi" "km"))%float, None)
  /\ fst (Convert NewUnitConverter 26.2 "mi" "km") = 42.1648128%float.
Proof.
  split; [|reflexivity].
  apply (Convert_opp_ratio NewUnitConverter 26.2 "mi" "km"
           (mkUnit 1609.344 "length" "Mile" 0) (mkUnit 1000 "length" "Kilometer" 0));
    try reflexivity.
  discriminate.
Defined.

(** ** Formatting what is not a finite nonzero number *)

Lemma is_nan_eq (x : float) : PrimFloat.is_nan x = true -> x = nan.
Proof.
  unfold PrimFloat.is_nan. rewrite FloatAxioms.eqb_spec. intros H.
  apply Prim2SF_inj. change (Prim2SF nan) with S754_nan.
  destruct (Prim2SF x) as [s|s| |s m e]; try reflexivity.
  - discriminate.
  - now destruct s.
  - now rewrite SFeqb_refl_finite in H.
Qed.

Lemma is_infinity_eq (x : float) :
  PrimFloat.is_infinity x = true ->
  x = (if (x <? 0)%float then neg_infinity else infinity).
Proof.
  unfold PrimFloat.is_infinity.
  rewrite FloatAxioms.eqb_spec, FloatAxioms.abs_spec, FloatAxioms.ltb_spec. intros H.
  change (Prim2SF 0) with (S754_zero false).
  change (Prim2SF infinity) with (S754_infinity false) in H.
  destruct (Prim2SF x) as [s|s| |s m e] eqn:Hx; try discriminate.
  destruct s; apply Prim2SF_inj; rewrite Hx; reflexivity.
Qed.

Lemma is_zero_eq (x : float) :
  PrimFloat.is_zero x = true -> x = (if get_sign x then (-0)%float else 0%float).
Proof.
  intros H. apply Prim2SF_inj.
  assert (Hx : Prim2SF x = S754_zero (get_sign x)).
  { unfold Prim2SF. rewrite H.
    destruct (PrimFloat.is_nan x) eqn:Hnan; [|reflexivity].
    apply is_nan_eq in Hnan. subst x. discriminate. }
  rewrite Hx. destruct (get_sign x); reflexivity.
Qed.

(** X9. [FormatResult] on the results that are not finite nonzero numbers:
    NaN fails every comparison and is printed by the fixed format as
    ["NaN"]; an infinity is above 1000000 and is printed by the scientific
    format as ["+Inf"] or ["-Inf"]; a zero is below 0.001 and is printed in
    scientific notation, ["0.000000e+00"], with the sign of the zero. *)
Theorem FormatResult_special_values (uc : UnitConverter) (result : float) (unit : string) :
  (PrimFloat.is_nan result = true -> FormatResult uc result unit = "NaN " ++ unit)
  /\ (PrimFloat.is_infinity result = true ->
      FormatResult uc result unit
      = (if (result <? 0)%float then "-Inf " else "+Inf ") ++ unit)
  /\ (PrimFloat.is_zero result = true ->
      FormatResult uc result unit
      = (if get_sign result then "-0.000000e+00 " else "0.000000e+00 ") ++ unit).
Proof.
  split; [|split].
  - intros H. apply is_nan_eq in H. now subst result.
  - intros H. apply is_infinity_eq in H. destruct (result <? 0)%float; now subst result.
  - intros H. apply is_zero_eq in H. destruct (get_sign result); now subst result.
Qed.

Lemma FormatResult_special_values_witness :
  FormatResult NewUnitConverter (0 / 0) "km" = "NaN km"
  /\ FormatResult NewUnitConverter (fst (Convert NewUnitConverter 1e308 "km" "mm")) "mm"
     = "+Inf mm"
  /\ FormatResult NewUnitConverter (fst (Convert NewUnitConverter (-1e-13) "m" "m")) "m"
     = "-0.000000e+00 m".
Proof.
  split; [|split].
  - exact (proj1 (FormatResult_special_values NewUnitConverter (0 / 0) "km") eq_refl).
  - exact (proj1 (proj2 (FormatResult_special_values NewUnitConverter
                           (fst (Convert NewUnitConverter 1e308 "km" "mm")) "mm")) eq_refl).
  - exact (proj2 (proj2 (FormatResult_special_values NewUnitConverter
                           (fst (Convert NewUnitConverter (-1e-13) "m" "m")) "m")) eq_refl).
Defined.

(** ** The table of units *)

Lemma GetAllDimensions_NewUnitConverter :
  GetAllDimensions NewUnitConverter = list_to_set dimension_tags.
Proof. apply (bool_decide_unpack _). vm_compute. exact I. Qed.

Lemma GetAllDimensions_tags (dimension : string) :
  dimension ∈ GetAllDimensions NewUnitConverter <-> In dimension dimension_tags.
Proof.
  rewrite GetAllDimensions_NewUnitConverter, elem_of_list_to_set.
  apply list_elem_of_In.
Qed.

(** X10. [GetDimensionName] covers the table: the tags it renames (the
    tags for which it does not fall to the default and return the tag
    itself) are exactly the dimensions of the registry built by
    [NewUnitConverter], and two different dimensions of the registry get
    different display names. *)
Theorem GetDimensionName_covers_registry (uc : UnitConverter) (dimension : string) :
  (dimension ∈ GetAllDimensions NewUnitConverter <-> GetDimensionName uc dimension <> dimension)
  /\ (forall dimension' : string,
        dimension ∈ GetAllDimensions NewUnitConverter ->
        dimension' ∈ GetAllDimensions NewUnitConverter ->
        GetDimensionName uc dimension = GetDimensionName uc dimension' ->
        dimension = dimension').
Proof.
  split.
  - rewrite GetAllDimensions_tags. unfold GetDimensionName, dimension_tags.
    repeat (switch_case dimension;
            [split; [discriminate | intros _; cbn; tauto]|]).
    split; [|intros H; now contradiction H].
    intros H. cbn in H. repeat (destruct H as [H|H]; [congruence|]). destruct H.
  - intros d'. rewrite !GetAllDimensions_tags. unfold dimension_tags. cbn [In].
    intros H H'.
    repeat (destruct H as [<-|H]; [
      repeat (destruct H' as [<-|H']; [cbn; congruence|]); destruct H' |]).
    destruct H.
Qed.

Lemma GetDimensionName_covers_registry_witness :
  "data_storage" ∈ GetAllDimensions NewUnitConverter
  /\ GetDimensionName NewUnitConverter "data_storage" = "Data Storage"
  /\ GetDimensionName NewUnitConverter "data_storage" <> "data_storage"
  /\ "Volume" ∉ GetAllDimensions NewUnitConverter.
Proof.
  destruct (GetDimensionName_covers_registry NewUnitConverter "data_storage") as [Hin _].
  destruct (GetDimensionName_covers_registry NewUnitConverter "Volume") as [Hout _].
  assert (H : "data_storage" ∈ GetAllDimensions NewUnitConverter)
    by (apply GetAllDimensions_tags; cbn; repeat (first [left; reflexivity | right])).
  split; [exact H | split; [reflexivity | split]].
  - apply Hin, H.
  - intros H'. apply Hout in H'. apply H'. reflexivity.
Defined.

Lemma one_base_unit_sound (uc : UnitConverter) (dimension : string) :
  one_base_unit uc dimension = true ->
  exists (symbol : string) (u : Unit),
    GetUnitsByDimension uc dimension !! symbol = Some u
    /\ is_base u = true
    /\ forall (symbol' : string) (u' : Unit),
         GetUnitsByDimension uc dimension !! symbol' = Some u' ->
         is_base u' = true -> symbol' = symbol.
Proof.
  unfold one_base_unit. destruct (base_units uc dimension) as [|[s u] [|]] eqn:Hl;
    try discriminate.
  intros _. exists s, u.
  assert (Hin : forall su, su ∈ base_units uc dimension
                           <-> is_base su.2 = true
                               /\ GetUnitsByDimension uc dimension !! su.1 = Some su.2).
  { intros [s' u']. unfold base_units. rewrite list_elem_of_filter, elem_of_map_to_list.
    reflexivity. }
  destruct (proj1 (Hin (s, u))) as [Hb Hs]; [rewrite Hl; apply list_elem_of_here|].
  split; [exact Hs | split; [exact Hb|]].
  intros s' u' Hs' Hb'.
  assert (H : (s', u') ∈ base_units uc dimension) by (apply Hin; auto).
  rewrite Hl in H. apply list_elem_of_singleton in H. congruence.
Qed.

Lemma one_base_unit_checked :
  forallb (one_base_unit NewUnitConverter) dimension_tags = true.
Proof. vm_compute. reflexivity. Qed.

(** X11. Every dimension of the table has exactly one base unit: among
    the units [GetUnitsByDimension] returns for a dimension of the registry
    built by [NewUnitConverter], one and only one has factor [1] and
    offset [0]. *)
Theorem base_unit_unique (dimension : string) :
  dimension ∈ GetAllDimensions NewUnitConverter ->
  exists (symbol : string) (u : Unit),
    GetUnitsByDimension NewUnitConverter dimension !! symbol = Some u
    /\ Factor u = 1%float /\ Offset u = 0%float
    /\ forall (symbol' : string) (u' : Unit),
         GetUnitsByDimension NewUnitConverter dimension !! symbol' = Some u' ->
         Factor u' = 1%float -> Offset u' = 0%float -> symbol' = symbol.
Proof.
  intros Hd. apply GetAllDimensions_tags in Hd.
  pose proof one_base_unit_checked as Hall. rewrite forallb_forall in Hall.
  destruct (one_base_unit_sound _ _ (Hall _ Hd)) as (s & u & Hs & Hb & Huniq).
  exists s, u. unfold is_base in Hb. apply andb_prop in Hb as [Hf Ho].
  apply FloatAxioms.Leibniz.eqb_spec in Hf, Ho.
  split; [exact Hs | split; [exact Hf | split; [exact Ho|]]].
  intros s' u' Hs' Hf' Ho'. apply (Huniq s' u' Hs'). unfold is_base.
  rewrite Hf', Ho'. reflexivity.
Qed.

Lemma base_unit_unique_witness :
  exists (symbol : string) (u : Unit),
    GetUnitsByDimension NewUnitConverter "temperature" !! symbol = Some u
    /\ Factor u = 1%float /\ Offset u = 0%float
    /\ forall (symbol' : string) (u' : Unit),
         GetUnitsByDimension NewUnitConverter "temperature" !! symbol' = Some u' ->
         Factor u' = 1%float -> Offset u' = 0%float -> symbol' = symbol.
Proof.
  apply (base_unit_unique "temperature"). apply GetAllDimensions_tags. cbn.
  repeat (first [left; reflexivity | right]).
Defined.

(** ** Every answer of the [/convert] handler *)

Section ConvertHandlerCases.

Variable ParseFloat : string -> option float.
Variable uc : UnitConverter.

Lemma convertHandler_not_post (r : http.Request) :
  http.Method r <> "POST" ->
  convertHandler ParseFloat uc http.NewResponseWriter r
  = failure_response 405 "Method not allowed. Please use POST.".
Proof.
  intros Hm. unfold convertHandler. apply String.eqb_neq in Hm.
  unfold http.MethodPost. rewrite Hm. reflexivity.
Qed.

(** The handler on a POST, by cases in the order of its tests. *)
Lemma convertHandler_post (form : option (gmap string (list string))) :
  convertHandler ParseFloat uc http.NewResponseWriter (http.mkRequest "POST" form)
  = match form with
    | None => failure_response 400 "Error parsing form data"
    | Some form =>
        let valueStr := http.FormValue form "value" in
        let fromUnit := http.FormValue form "from" in
        let toUnit := http.FormValue form "to" in
        if String.eqb valueStr "" || String.eqb fromUnit "" || String.eqb toUnit "" then
          failure_response 400 "All fields (value, from, to) are required"
        else
          match ParseFloat valueStr with
          | None => failure_response 400 "Invalid value: must be a number"
          | Some value =>
              match Convert uc value fromUnit toUnit with
              | (_, Some err) => failure_response 400 (Error err)
              | (result, None) =>
                  http.mkResponseWriter {["Content-Type" := "application/json"]}
                    (Some 200%Z)
                    [http.Text (strconv.FormatFloat result strconv.verb_f 3 ++ " " ++ toUnit)]
              end
          end
    end.
Proof.
  unfold convertHandler. cbn [http.Method http.Form].
  change (String.eqb "POST" http.MethodPost) with true. cbn [negb].
  destruct form as [form|]; [|reflexivity]. cbv zeta.
  destruct (_ || _); [reflexivity|].
  destruct (ParseFloat _); [|reflexivity].
  destruct (Convert _ _ _ _) as [result [err|]]; reflexivity.
Qed.

End ConvertHandlerCases.

Lemma Error_not_empty (err : error) : Error err <> "".
Proof. destruct err; discriminate. Qed.

(** X12. What holds of every answer of [convertHandler], whatever the
    request, the parser and the registry: the [Content-Type] header is
    [application/json] and no other header is set (also on the success
    path, whose body is plain text); the status is [200], [400] or [405];
    it is [405] exactly when the method is not POST; the body is one text
    exactly when the status is [200], and otherwise one JSON object with
    [success] false and a message that is not empty. *)
Theorem convertHandler_invariants
    (ParseFloat : string -> option float) (uc : UnitConverter) (r : http.Request) :
  let w := convertHandler ParseFloat uc http.NewResponseWriter r in
  http.Header w = {["Content-Type" := "application/json"]}
  /\ (http.Status w = Some 200%Z \/ http.Status w = Some 400%Z
      \/ http.Status w = Some 405%Z)
  /\ (http.Status w = Some 405%Z <-> http.Method r <> "POST")
  /\ (http.Status w = Some 200%Z <-> exists s, http.Body w = [http.Text s])
  /\ (http.Status w <> Some 200%Z <->
      exists msg, msg <> "" /\ http.Body w = [http.JSON (failure msg)]).
Proof.
  intros w. subst w. destruct r as [method form].
  destruct (String.eqb_spec method "POST") as [->|Hm].
  - rewrite convertHandler_post.
    assert (Hfail : forall code msg,
               (code = 400%Z) -> msg <> "" ->
               let w := failure_response code msg in
               http.Header w = {["Content-Type" := "application/json"]}
               /\ (http.Status w = Some 200%Z \/ http.Status w = Some 400%Z
                   \/ http.Status w = Some 405%Z)
               /\ (http.Status w = Some 405%Z <-> "POST" <> "POST")
               /\ (http.Status w = Some 200%Z <-> exists s, http.Body w = [http.Text s])
               /\ (http.Status w <> Some 200%Z <->
                   exists msg, msg <> "" /\ http.Body w = [http.JSON (failure msg)])).
    { intros code msg -> Hmsg. cbn. repeat split; auto; try discriminate.
      - intros H. now contradiction H.
      - intros [s [=]].
      - intros _. eauto. }
    cbn [http.Method].
    destruct form as [form|]; [|apply Hfail; [reflexivity|discriminate]]. cbv zeta.
    destruct (_ || _); [apply Hfail; [reflexivity|discriminate]|].
    destruct (ParseFloat _); [|apply Hfail; [reflexivity|discriminate]].
    destruct (Convert _ _ _ _) as [result [err|]];
      [apply Hfail; [reflexivity|apply Error_not_empty]|].
    cbn. repeat split; auto; try discriminate.
    + intros H. now contradiction H.
    + eauto.
    + intros H. now contradiction H.
    + intros (msg & _ & [=]).
  - rewrite (convertHandler_not_post ParseFloat uc (http.mkRequest method form) Hm).
    cbn. repeat split; auto; try discriminate.
    + intros [s [=]].
    + intros _. exists "Method not allowed. Please use POST.". split; [discriminate|reflexivity].
Qed.

(** X13. [convertHandler] answers [200] exactly when the method is POST,
    the form parses, the fields [value], [from] and [to] are all present
    and not empty, the value parses as a number and [Convert] returns no
    error for it. *)
Theorem convertHandler_ok_iff
    (ParseFloat : string -> option float) (uc : UnitConverter) (r : http.Request) :
  http.Status (convertHandler ParseFloat uc http.NewResponseWriter r) = Some 200%Z
  <-> http.Method r = "POST"
      /\ exists form value,
           http.Form r = Some form
           /\ http.FormValue form "value" <> ""
           /\ http.FormValue form "from" <> ""
           /\ http.FormValue form "to" <> ""
           /\ ParseFloat (http.FormValue form "value") = Some value
           /\ snd (Convert uc value (http.FormValue form "from") (http.FormValue form "to"))
              = None.
Proof.
  destruct r as [method form]. cbn [http.Method http.Form].
  destruct (String.eqb_spec method "POST") as [->|Hm].
  - rewrite convertHandler_post.
    destruct form as [form|];
      [ | split; [discriminate | intros (_ & ? & ? & [=] & _)] ].
    cbv zeta.
    destruct (String.eqb_spec (http.FormValue form "value") "") as [Hv|Hv].
    { split; [discriminate | intros (_ & ? & ? & [= <-] & ? & _); contradiction]. }
    destruct (String.eqb_spec (http.FormValue form "from") "") as [Hf|Hf].
    { split; [discriminate | intros (_ & ? & ? & [= <-] & _ & ? & _); contradiction]. }
    destruct (String.eqb_spec (http.FormValue form "to") "") as [Ht|Ht].
    { split; [discriminate | intros (_ & ? & ? & [= <-] & _ & _ & ? & _); contradiction]. }
    cbn [orb].
    destruct (ParseFloat _) as [value|] eqn:Hp.
    2:{ split; [discriminate|]. intros (_ & ? & ? & [= <-] & _ & _ & _ & Hp' & _).
        congruence. }
    destruct (Convert _ _ _ _) as [result [err|]] eqn:Hc.
    + split; [discriminate|]. intros (_ & ? & v & [= <-] & _ & _ & _ & Hp' & Hc').
      assert (v = value) as -> by congruence. rewrite Hc in Hc'. discriminate.
    + split; [|reflexivity]. intros _. split; [reflexivity|].
      exists form, value. rewrite Hc. auto 10.
  - rewrite (convertHandler_not_post ParseFloat uc (http.mkRequest method form) Hm).
    split; [discriminate | intros [? _]; contradiction].
Qed.

(** X14. The failures of [convertHandler], each with its status and
    message, in the order of the tests: a method other than POST gives
    [405]; a form that does not parse, a missing or empty field, a value
    that is not a number give [400] with a fixed message; a failing
    [Convert] gives [400] with its error text: the unknown source symbol
    (also when the target is unknown too), the unknown target symbol, or
    the two symbols with their dimensions. *)
Theorem convertHandler_failure_messages
    (ParseFloat : string -> option float) (uc : UnitConverter)
    (form : gmap string (list string)) :
  let respond r := convertHandler ParseFloat uc http.NewResponseWriter r in
  let valueStr := http.FormValue form "value" in
  let fromUnit := http.FormValue form "from" in
  let toUnit := http.FormValue form "to" in
  (forall method oform, method <> "POST" ->
     respond (http.mkRequest method oform)
     = failure_response 405 "Method not allowed. Please use POST.")
  /\ respond (http.mkRequest "POST" None) = failure_response 400 "Error parsing form data"
  /\ (valueStr = "" \/ fromUnit = "" \/ toUnit = "" ->
      respond (http.mkRequest "POST" (Some form))
      = failure_response 400 "All fields (value, from, to) are required")
  /\ (valueStr <> "" -> fromUnit <> "" -> toUnit <> "" ->
      (ParseFloat valueStr = None ->
       respond (http.mkRequest "POST" (Some form))
       = failure_response 400 "Invalid value: must be a number")
      /\ (forall value, ParseFloat valueStr = Some value ->
            (units uc !! fromUnit = None ->
             respond (http.mkRequest "POST" (Some form))
             = failure_response 400 ("invalid source unit: " ++ fromUnit))
            /\ (is_Some (units uc !! fromUnit) -> units uc !! toUnit = None ->
                respond (http.mkRequest "POST" (Some form))
                = failure_response 400 ("invalid target unit: " ++ toUnit))
            /\ (forall unitFrom unitTo,
                  units uc !! fromUnit = Some unitFrom ->
                  units uc !! toUnit = Some unitTo ->
                  Dimension unitFrom <> Dimension unitTo ->
                  respond (http.mkRequest "POST" (Some form))
                  = failure_response 400
                      ("cannot convert between different dimensions: " ++ fromUnit
                       ++ " (" ++ Dimension unitFrom ++ ") and " ++ toUnit
                       ++ " (" ++ Dimension unitTo ++ ")")))).
Proof.
  intros respond valueStr fromUnit toUnit. subst respond. cbv beta.
  split; [intros method oform Hm; now apply convertHandler_not_post|].
  rewrite !convertHandler_post. cbv zeta. fold valueStr fromUnit toUnit.
  split; [reflexivity | split].
  - intros Hempty.
    assert (Hor : String.eqb valueStr "" || String.eqb fromUnit "" || String.eqb toUnit ""
                  = true).
    { destruct Hempty as [-> | [-> | ->]]; rewrite String.eqb_refl;
        rewrite ?orb_true_r; reflexivity. }
    now rewrite Hor.
  - intros Hv Hf Ht. apply String.eqb_neq in Hv, Hf, Ht. rewrite Hv, Hf, Ht. cbn [orb].
    split; [intros ->; reflexivity|]. intros value ->. split; [|split].
    + intros Hfrom. now rewrite (Convert_source_absent uc value fromUnit toUnit Hfrom).
    + intros [unitFrom Hfrom] Hto.
      now rewrite (Convert_target_absent uc value fromUnit toUnit _ Hfrom Hto).
    + intros unitFrom unitTo Hfrom Hto Hdim.
      now rewrite (Convert_mismatch uc value fromUnit toUnit _ _ Hfrom Hto Hdim).
Qed.

Lemma convertHandler_failure_messages_witness :
  convertHandler strconv.ParseFloat NewUnitConverter http.NewResponseWriter
    (http.mkRequest "GET" None)
  = failure_response 405 "Method not allowed. Please use POST."
  /\ convertHandler strconv.ParseFloat NewUnitConverter http.NewResponseWriter
       (http.mkRequest "POST"
          (Some (list_to_map [("value", ["3"]); ("from", ["kg"]); ("to", ["km"])])))
     = failure_response 400
         "cannot convert between different dimensions: kg (mass) and km (length)".
Proof.
  destruct (convertHandler_failure_messages strconv.ParseFloat NewUnitConverter
              (list_to_map [("value", ["3"]); ("from", ["kg"]); ("to", ["km"])]))
    as (Hmethod & _ & _ & Hfields).
  split; [apply Hmethod; discriminate|].
  destruct Hfields as [_ Hconvert]; [discriminate | discriminate | discriminate|].
  destruct (Hconvert 3%float eq_refl) as (_ & _ & Hmismatch).
  apply (Hmismatch (mkUnit 1000 "mass" "Kilogram" 0) (mkUnit 1000 "length" "Kilometer" 0));
    [reflexivity | reflexivity | discriminate].
Defined.

(** ** The digits of the body *)

(** X15. The text of a successful answer: when the result is a finite
    number, the body of [convertHandler] is an optional minus sign, one or
    more decimal digits, a point, exactly three decimal digits, a space
    and the target symbol as it was sent; never an exponent, whatever the
    magnitude. *)
Theorem convertHandler_three_decimals
    (ParseFloat : string -> option float) (uc : UnitConverter)
    (form : gmap string (list string)) (value result : float) :
  http.FormValue form "value" <> "" ->
  http.FormValue form "from" <> "" ->
  http.FormValue form "to" <> "" ->
  ParseFloat (http.FormValue form "value") = Some value ->
  Convert uc value (http.FormValue form "from") (http.FormValue form "to")
  = (result, None) ->
  PrimFloat.is_finite result = true ->
  exists sign ip fp : string,
    http.Body (convertHandler ParseFloat uc http.NewResponseWriter
                 (http.mkRequest "POST" (Some form)))
    = [http.Text ((sign ++ ip ++ "." ++ fp) ++ " " ++ http.FormValue form "to")]
    /\ (sign = "" \/ sign = "-")
    /\ all_digits ip = true /\ 1 <= String.length ip
    /\ all_digits fp = true /\ String.length fp = 3%nat.
Proof.
  intros Hv Hf Ht Hp Hc Hfin.
  rewrite (convertHandler_success ParseFloat uc "POST" form value result
             eq_refl Hv Hf Ht Hp Hc).
  destruct (FormatFloat_f_digits result 3 ltac:(discriminate) Hfin)
    as (sign & ip & fp & -> & H).
  exists sign, ip, fp. auto.
Qed.

Lemma convertHandler_three_decimals_witness :
  exists sign ip fp : string,
    http.Body (convertHandler strconv.ParseFloat NewUnitConverter http.NewResponseWriter
                 (http.mkRequest "POST"
                    (Some (list_to_map
                             [("value", ["-1e9"]); ("from", ["mi"]); ("to", ["mm"])]))))
    = [http.Text ((sign ++ ip ++ "." ++ fp) ++ " " ++ "mm")]
    /\ (sign = "" \/ sign = "-")
    /\ all_digits ip = true /\ 1 <= String.length ip
    /\ all_digits fp = true /\ String.length fp = 3%nat.
Proof.
  refine ((fun H => H)
            (convertHandler_three_decimals strconv.ParseFloat NewUnitConverter
               (list_to_map [("value", ["-1e9"]); ("from", ["mi"]); ("to", ["mm"])])
               (-1e9)%float
               (fst (Convert NewUnitConverter (-1e9) "mi" "mm"))
               _ _ _ eq_refl eq_refl eq_refl)); discriminate.
Defined.

(** ** The [/unit-info] and [/units-by-dimension] handlers *)

Lemma api_Error_fresh (msg : string) (code : Z) :
  api.Error msg code api.NewResponseWriter = error_response code msg.
Proof.
  unfold api.Error, error_response, api.Write, api.WriteHeader, api.Header_Set. cbn.
  reflexivity.
Qed.

(** X16. The answers of [unitInfoHandler]: [400] with its message when the
    [unit] parameter is missing or empty, [400] when the symbol is not
    registered (so exactly in these two cases), and for a registered
    symbol with a finite factor, [200] with the symbol as it was sent and
    the name, dimension and factor of the registry's entry. *)
Theorem unitInfoHandler_answers (uc : UnitConverter) (r : api.Request) :
  let symbol := api.Get (api.Query r) "unit" in
  let w := unitInfoHandler uc api.NewResponseWriter r in
  (symbol = "" -> w = error_response 400 "Unit symbol is required")
  /\ (symbol <> "" -> units uc !! symbol = None ->
      w = error_response 400 "Invalid unit symbol")
  /\ (forall u, symbol <> "" -> units uc !! symbol = Some u ->
        PrimFloat.is_finite (Factor u) = true ->
        w = api.mkResponseWriter {["Content-Type" := "application/json"]} (Some 200%Z)
              [api.UnitJSON symbol (Name u) (Dimension u) (Factor u)])
  /\ (api.Status w = Some 400%Z <-> symbol = "" \/ units uc !! symbol = None).
Proof.
  intros symbol w. subst w. unfold unitInfoHandler. fold symbol.
  destruct (String.eqb_spec symbol "") as [He|Hne].
  - rewrite api_Error_fresh. repeat split; try congruence; auto.
  - destruct (units uc !! symbol) as [u|] eqn:Hu.
    + cbv zeta. unfold api.Encode. cbn [api.encodable].
      split; [congruence | split; [discriminate | split]].
      * intros u' _ [= <-] Hfin. rewrite Hfin. reflexivity.
      * destruct (PrimFloat.is_finite (Factor u)); cbn;
          (split; [discriminate | intros [?|?]; [contradiction | discriminate]]).
    + rewrite api_Error_fresh. repeat split; try congruence; try discriminate; auto.
Qed.

Lemma unitInfoHandler_answers_witness :
  unitInfoHandler NewUnitConverter api.NewResponseWriter
    (api.mkRequest "/unit-info" {["unit" := ["mi"]]})
  = api.mkResponseWriter {["Content-Type" := "application/json"]} (Some 200%Z)
      [api.UnitJSON "mi" "Mile" "length" 1609.344]
  /\ unitInfoHandler NewUnitConverter api.NewResponseWriter
       (api.mkRequest "/unit-info" {["unit" := ["mile"]]})
     = error_response 400 "Invalid unit symbol".
Proof.
  destruct (unitInfoHandler_answers NewUnitConverter
              (api.mkRequest "/unit-info" {["unit" := ["mi"]]})) as (_ & _ & Hfound & _).
  destruct (unitInfoHandler_answers NewUnitConverter
              (api.mkRequest "/unit-info" {["unit" := ["mile"]]})) as (_ & Hunknown & _).
  split.
  - exact (Hfound (mkUnit 1609.344 "length" "Mile" 0) ltac:(discriminate) eq_refl eq_refl).
  - exact (Hunknown ltac:(discriminate) eq_refl).
Defined.

(** [unitsByDimensionHandler], by cases in the order of its tests. *)
Lemma unitsByDimensionHandler_cases
    (iteration : gmap string Unit -> list (string * Unit))
    (uc : UnitConverter) (r : api.Request) :
  unitsByDimensionHandler iteration uc api.NewResponseWriter r
  = let dimension := api.Get (api.Query r) "dimension" in
    if String.eqb dimension "" then error_response 400 "Dimension is required"
    else if (size (GetUnitsByDimension uc dimension) =? 0)%nat
         then error_response 400 "Invalid dimension"
         else api.mkResponseWriter {["Content-Type" := "application/json"]} (Some 200%Z)
                [api.UnitInfosJSON
                   ((fun su : string * Unit => (su.1, Name su.2))
                      <$> iteration (GetUnitsByDimension uc dimension))].
Proof.
  unfold unitsByDimensionHandler. cbv zeta.
  destruct (String.eqb _ ""); [apply api_Error_fresh|].
  destruct (_ =? 0)%nat; [apply api_Error_fresh | reflexivity].
Qed.

(** The pairs listed for a dimension, when the iteration visits every
    entry of the group once. *)
Lemma listed_unit (iteration : gmap string Unit -> list (string * Unit))
    (uc : UnitConverter) (dimension symbol name : string) :
  iteration (GetUnitsByDimension uc dimension)
    ≡ₚ map_to_list (GetUnitsByDimension uc dimension) ->
  (symbol, name) ∈ (fun su : string * Unit => (su.1, Name su.2))
                     <$> iteration (GetUnitsByDimension uc dimension)
  <-> exists u, units uc !! symbol = Some u /\ Dimension u = dimension /\ Name u = name.
Proof.
  intros Hperm. rewrite list_elem_of_fmap. split.
  - intros ([s u] & [= -> ->] & Hin). rewrite Hperm in Hin.
    apply elem_of_map_to_list, GetUnitsByDimension_lookup in Hin as [Hu Hd].
    exists u. auto.
  - intros (u & Hu & Hd & Hn). exists (symbol, u). split; [now rewrite <- Hn|].
    rewrite Hperm. now apply elem_of_map_to_list, GetUnitsByDimension_lookup.
Qed.

(** X17. The answers of [unitsByDimensionHandler], in whatever order the
    map is visited: [400] with its message when the [dimension] parameter
    is missing or empty, [400] when no registered unit has that dimension,
    and otherwise [200] with a list that names every registered unit of
    the dimension once, by symbol and display name, and nothing else. *)
Theorem unitsByDimensionHandler_answers
    (iteration : gmap string Unit -> list (string * Unit))
    (uc : UnitConverter) (r : api.Request) :
  let dimension := api.Get (api.Query r) "dimension" in
  let w := unitsByDimensionHandler iteration uc api.NewResponseWriter r in
  iteration (GetUnitsByDimension uc dimension)
    ≡ₚ map_to_list (GetUnitsByDimension uc dimension) ->
  (dimension = "" -> w = error_response 400 "Dimension is required")
  /\ (dimension <> "" -> dimension ∉ GetAllDimensions uc ->
      w = error_response 400 "Invalid dimension")
  /\ (dimension <> "" -> dimension ∈ GetAllDimensions uc ->
      exists unitInfos : list (string * string),
        w = api.mkResponseWriter {["Content-Type" := "application/json"]} (Some 200%Z)
              [api.UnitInfosJSON unitInfos]
        /\ NoDup unitInfos.*1
        /\ length unitInfos = size (GetUnitsByDimension uc dimension)
        /\ forall symbol name,
             (symbol, name) ∈ unitInfos
             <-> exists u, units uc !! symbol = Some u
                           /\ Dimension u = dimension /\ Name u = name).
Proof.
  intros dimension w Hperm. subst w. rewrite unitsByDimensionHandler_cases.
  cbv zeta. fold dimension.
  destruct (String.eqb_spec dimension "") as [He|Hne].
  { repeat split; try congruence. }
  destruct (Nat.eqb_spec (size (GetUnitsByDimension uc dimension)) 0) as [Hz|Hnz].
  { repeat split; try congruence.
    intros _ Hin. apply GetAllDimensions_size in Hin. contradiction. }
  split; [congruence | split].
  { intros _ Hout. destruct Hout. now apply GetAllDimensions_size. }
  intros _ _. eexists. split; [reflexivity|]. split; [|split].
  - rewrite <- list_fmap_compose.
    change (NoDup (iteration (GetUnitsByDimension uc dimension)).*1).
    rewrite Hperm. apply NoDup_fst_map_to_list.
  - now rewrite length_fmap, Hperm, length_map_to_list.
  - intros symbol name. now apply listed_unit.
Qed.

Lemma unitsByDimensionHandler_answers_witness :
  (exists unitInfos : list (string * string),
      unitsByDimensionHandler map_to_list NewUnitConverter api.NewResponseWriter
        (api.mkRequest "/units-by-dimension" {["dimension" := ["angle"]]})
      = api.mkResponseWriter {["Content-Type" := "application/json"]} (Some 200%Z)
          [api.UnitInfosJSON unitInfos]
      /\ NoDup unitInfos.*1
      /\ length unitInfos = 4%nat
      /\ forall symbol name,
           (symbol, name) ∈ unitInfos
           <-> exists u, units NewUnitConverter !! symbol = Some u
                         /\ Dimension u = "angle" /\ Name u = name)
  /\ unitsByDimensionHandler map_to_list NewUnitConverter api.NewResponseWriter
       (api.mkRequest "/units-by-dimension" {["dimension" := ["Angle"]]})
     = error_response 400 "Invalid dimension".
Proof.
  split.
  - refine ((fun H => H)
              (proj2 (proj2 (unitsByDimensionHandler_answers map_to_list NewUnitConverter
                               (api.mkRequest "/units-by-dimension"
                                  {["dimension" := ["angle"]]})
                               (reflexivity _))) _ _)); [discriminate|].
    apply GetAllDimensions_tags. cbn. repeat (first [left; reflexivity | right]).
  - refine (proj1 (proj2 (unitsByDimensionHandler_answers map_to_list NewUnitConverter
                            (api.mkRequest "/units-by-dimension"
                               {["dimension" := ["Angle"]]})
                            (reflexivity _))) _ _); [discriminate|].
    intros Hin. apply GetAllDimensions_tags in Hin. cbn in Hin.
    repeat (destruct Hin as [Hin|Hin]; [discriminate|]). exact Hin.
Defined.

(** X18. What a page built from these answers can rely on: every symbol
    that [unitsByDimensionHandler] lists for a dimension gets a [200] from
    [unitInfoHandler], with the same name and that dimension, and any two
    listed symbols convert into each other without an error, for every
    value.  (The symbol [""] cannot be asked for, and a factor has to be
    finite to be encoded; all factors of the table are.) *)
Theorem listed_units_work
    (iteration : gmap string Unit -> list (string * Unit))
    (uc : UnitConverter) (r : api.Request) (unitInfos : list (string * string)) :
  let dimension := api.Get (api.Query r) "dimension" in
  iteration (GetUnitsByDimension uc dimension)
    ≡ₚ map_to_list (GetUnitsByDimension uc dimension) ->
  api.Body (unitsByDimensionHandler iteration uc api.NewResponseWriter r)
  = [api.UnitInfosJSON unitInfos] ->
  (forall symbol name (r' : api.Request),
      (symbol, name) ∈ unitInfos -> symbol <> "" ->
      api.Get (api.Query r') "unit" = symbol ->
      (forall u, units uc !! symbol = Some u -> PrimFloat.is_finite (Factor u) = true) ->
      exists factor,
        unitInfoHandler uc api.NewResponseWriter r'
        = api.mkResponseWriter {["Content-Type" := "application/json"]} (Some 200%Z)
            [api.UnitJSON symbol name dimension factor])
  /\ (forall symbol1 name1 symbol2 name2 (value : float),
        (symbol1, name1) ∈ unitInfos -> (symbol2, name2) ∈ unitInfos ->
        snd (Convert uc value symbol1 symbol2) = None).
Proof.
  intros dimension Hperm Hbody. rewrite unitsByDimensionHandler_cases in Hbody.
  cbv zeta in Hbody. fold dimension in Hbody.
  destruct (String.eqb dimension ""); [discriminate|].
  destruct (_ =? 0)%nat; [discriminate|].
  cbn [api.Body] in Hbody. injection Hbody as <-. split.
  - intros symbol name r' Hin Hne Hq Hfin.
    apply (listed_unit iteration uc dimension symbol name Hperm) in Hin
      as (u & Hu & Hd & Hn).
    exists (Factor u). unfold unitInfoHandler. rewrite Hq.
    apply String.eqb_neq in Hne. rewrite Hne, Hu, Hd, Hn. cbv zeta.
    unfold api.Encode. cbn [api.encodable]. rewrite (Hfin u Hu). reflexivity.
  - intros s1 n1 s2 n2 value H1 H2.
    apply (listed_unit iteration uc dimension s1 n1 Hperm) in H1 as (u1 & Hu1 & Hd1 & _).
    apply (listed_unit iteration uc dimension s2 n2 Hperm) in H2 as (u2 & Hu2 & Hd2 & _).
    now rewrite (Convert_same_dimension uc value s1 s2 u1 u2 Hu1 Hu2) by congruence.
Qed.

Lemma listed_units_work_witness :
  api.Body (unitsByDimensionHandler map_to_list NewUnitConverter api.NewResponseWriter
              (api.mkRequest "/units-by-dimension" {["dimension" := ["angle"]]}))
  = [api.UnitInfosJSON
       [("arcsec", "Second"); ("arcmin", "Minute"); ("rad", "Radian"); ("deg", "Degree")]]
  /\ (exists factor,
        unitInfoHandler NewUnitConverter api.NewResponseWriter
          (api.mkRequest "/unit-info" {["unit" := ["arcmin"]]})
        = api.mkResponseWriter {["Content-Type" := "application/json"]} (Some 200%Z)
            [api.UnitJSON "arcmin" "Minute" "angle" factor])
  /\ snd (Convert NewUnitConverter 90 "deg" "arcsec") = None.
Proof.
  assert (Hbody :
            api.Body (unitsByDimensionHandler map_to_list NewUnitConverter
                        api.NewResponseWriter
                        (api.mkRequest "/units-by-dimension" {["dimension" := ["angle"]]}))
            = [api.UnitInfosJSON
                 [("arcsec", "Second"); ("arcmin", "Minute"); ("rad", "Radian");
                  ("deg", "Degree")]])
    by (vm_compute; reflexivity).
  destruct (listed_units_work map_to_list NewUnitConverter
              (api.mkRequest "/units-by-dimension" {["dimension" := ["angle"]]})
              _ (reflexivity _) Hbody) as [Hinfo Hconvert].
  split; [exact Hbody | split].
  - apply (Hinfo "arcmin" "Minute" (api.mkRequest "/unit-info" {["unit" := ["arcmin"]]})).
    + apply list_elem_of_In. cbn. auto.
    + discriminate.
    + reflexivity.
    + intros u Hu.
      pose proof (factors_checked "arcmin" u Hu) as Hok.
      now apply andb_prop in Hok as [_ Hfin].
  - apply (Hconvert "deg" "Degree" "arcsec" "Second"); apply list_elem_of_In; cbn; auto.
Defined.

(** ** The home page *)

Lemma lookup_by_dimension {B : Type} (f : string -> B) (dims : gset string) (d : string) :
  (set_to_map (fun dim => (dim, f dim)) dims : gmap string B) !! d
  = if decide (d ∈ dims) then Some (f d) else None.
Proof.
  assert (Hinj : forall y y' : string, y ∈ dims -> y' ∈ dims ->
                   ((fun dim => (dim, f dim)) y).1 = ((fun dim => (dim, f dim)) y').1 -> y = y')
    by (intros y y' _ _ H; exact H).
  destruct (decide (d ∈ dims)) as [Hin|Hout].
  - apply (lookup_set_to_map (fun dim => (dim, f dim)) dims d (f d) Hinj). eauto.
  - destruct (_ !! d) as [x|] eqn:Hx; [|reflexivity].
    apply (lookup_set_to_map (fun dim => (dim, f dim)) dims d x Hinj) in Hx
      as (y & Hy & [= -> _]).
    contradiction.
Qed.

(** X19. [homeHandler] answers [404] on every path but ["/"]; on ["/"] the
    data it hands to the template is consistent: [Units] and
    [DimensionNames] have exactly the dimensions of [Dimensions] as keys,
    which are those of [GetAllDimensions]; every dimension maps to its
    group, which is not empty, and to its display name; and the groups
    together hold every registered unit, and nothing else. *)
Theorem homeHandler_data (uc : UnitConverter) (year : Z) (r : api.Request) :
  (api.Path r <> "/" ->
   homeHandler uc year api.NewResponseWriter r
   = HomeNotFound (error_response 404 "404 page not found"))
  /\ (api.Path r = "/" ->
      exists data : TemplateData,
        homeHandler uc year api.NewResponseWriter r = HomeRender data
        /\ CurrentYear data = year
        /\ Dimensions data = GetAllDimensions uc
        /\ dom (Units data) = Dimensions data
        /\ dom (DimensionNames data) = Dimensions data
        /\ (forall d, d ∈ Dimensions data ->
              Units data !! d = Some (GetUnitsByDimension uc d)
              /\ GetUnitsByDimension uc d <> ∅
              /\ DimensionNames data !! d = Some (GetDimensionName uc d))
        /\ (forall symbol u,
              units uc !! symbol = Some u
              <-> exists d group, Units data !! d = Some group /\ group !! symbol = Some u)).
Proof.
  unfold homeHandler. split.
  - intros Hp. apply String.eqb_neq in Hp. rewrite Hp. cbn [negb].
    unfold api.NotFound, api.StatusNotFound. now rewrite api_Error_fresh.
  - intros Hp. apply String.eqb_eq in Hp. rewrite Hp. cbn [negb]. cbv zeta.
    eexists. split; [reflexivity|]. cbn [CurrentYear Dimensions Units DimensionNames].
    split; [reflexivity | split; [reflexivity|]].
    assert (Hdom : forall (B : Type) (f : string -> B),
               dom (set_to_map (fun dim => (dim, f dim)) (GetAllDimensions uc)
                    : gmap string B) = GetAllDimensions uc).
    { intros B f. apply set_eq. intros d. rewrite elem_of_dom, lookup_by_dimension.
      destruct (decide _) as [Hin|Hout]; split; eauto; try contradiction.
      intros [? [=]]. }
    split; [apply Hdom | split; [apply Hdom | split]].
    + intros d Hd. rewrite !lookup_by_dimension.
      destruct (decide _) as [_|Hout]; [|contradiction].
      split; [reflexivity | split; [|reflexivity]].
      apply map_size_non_empty_iff. now apply GetAllDimensions_size.
    + intros symbol u. split.
      * intros Hu. exists (Dimension u), (GetUnitsByDimension uc (Dimension u)).
        rewrite lookup_by_dimension.
        destruct (decide _) as [_|Hout].
        -- split; [reflexivity|]. now apply GetUnitsByDimension_lookup.
        -- destruct Hout. apply GetAllDimensions_elem. eauto.
      * intros (d & group & Hg & Hs). rewrite lookup_by_dimension in Hg.
        destruct (decide _); [|discriminate]. injection Hg as <-.
        now apply GetUnitsByDimension_lookup in Hs as [Hs _].
Qed.

Lemma homeHandler_data_witness :
  homeHandler NewUnitConverter 2025 api.NewResponseWriter (api.mkRequest "/index.html" ∅)
  = HomeNotFound (error_response 404 "404 page not found")
  /\ exists data : TemplateData,
       homeHandler NewUnitConverter 2025 api.NewResponseWriter (api.mkRequest "/" ∅)
       = HomeRender data
       /\ CurrentYear data = 2025%Z
       /\ Dimensions data = GetAllDimensions NewUnitConverter
       /\ dom (Units data) = Dimensions data
       /\ dom (DimensionNames data) = Dimensions data
       /\ (forall d, d ∈ Dimensions data ->
             Units data !! d = Some (GetUnitsByDimension NewUnitConverter d)
             /\ GetUnitsByDimension NewUnitConverter d <> ∅
             /\ DimensionNames data !! d = Some (GetDimensionName NewUnitConverter d))
       /\ (forall symbol u,
             units NewUnitConverter !! symbol = Some u
             <-> exists d group, Units data !! d = Some group /\ group !! symbol = Some u).
Proof.
  split.
  - apply (proj1 (homeHandler_data NewUnitConverter 2025
                    (api.mkRequest "/index.html" ∅))).
    discriminate.
  - exact (proj2 (homeHandler_data NewUnitConverter 2025 (api.mkRequest "/" ∅)) eq_refl).
Defined.
